(** * GLAMDP language-grounding classifiers: vocabulary, vectorizer,
      training loop and two-stage scoring

    A shallow embedding of [code/dual_nn.py] (class [NNDual]),
    [code/dual_rnn.py] (class [RNNDual]) and [code/single_rnn.py]
    (class [RNNClassifier]).

    Python values are modelled as follows.
    - tokens are [string]s, token sequences are [list string];
    - a Python [set] of tokens is a [gset string], a [dict] keyed by
      strings is a [gmap string nat];
    - Python integers ([chunk_size], [batch_size], [epochs], lengths,
      slice bounds) are [Z];
    - a NumPy vector is a [list Z]; the cells of an [int32] vector are
      written through [int32] (two's complement wrap-around), an
      out-of-range index raises [IndexError];
    - exceptions are the constructors of [exn]; fallible pure code lives in
      [result], code that talks to the TensorFlow session lives in the
      state-and-exception monad [M];
    - the TensorFlow session (graph, variables, optimizer, random
      generator) is outside the repository: it is a parameter of the
      development (class [Engine]). *)

From Stdlib Require Import QArith_base.
From stdpp Require Import base numbers list strings gmap fin_maps fin_sets.

Local Open Scope Z_scope.

(** ** Exceptions and the [result] monad *)

Inductive exn : Type :=
  | KeyError
  | IndexError
  | ValueError
  | ZeroDivisionError
  | UnicodeError
  | EngineError.

Inductive result (A : Type) : Type :=
  | Ok (a : A)
  | Raise (e : exn).
Arguments Ok {A} a.
Arguments Raise {A} e.

#[global] Instance exn_eq_dec : EqDecision exn.
Proof. solve_decision. Defined.

#[global] Instance result_ret : MRet result := fun A a => Ok a.
#[global] Instance result_bind : MBind result := fun A B f r =>
  match r with
  | Ok a => f a
  | Raise e => Raise e
  end.

(** [for x in l: acc = f(acc, x)], stopping at the first exception *)
Fixpoint foldM {A B : Type} (f : A -> B -> result A) (acc : A) (l : list B)
  : result A :=
  match l with
  | [] => Ok acc
  | x :: l' => acc' ← f acc x; foldM f acc' l'
  end.

(** ** Python and NumPy primitives *)

(** the value kept by a NumPy [int32] cell *)
Definition int32 (z : Z) : Z := (z + 2 ^ 31) `mod` 2 ^ 32 - 2 ^ 31.

Definition py_len {A : Type} (l : list A) : Z := Z.of_nat (length l).

(** [range(start, stop, step)] of Python 2 (a list) *)
Definition py_range (start stop step : Z) : result (list Z) :=
  if step =? 0 then Raise ValueError
  else
    let n :=
      if 0 <? step
      then (if start <? stop then (stop - start + step - 1) `div` step else 0)
      else (if stop <? start then (start - stop - step - 1) `div` (- step) else 0) in
    Ok ((fun i : nat => start + Z.of_nat i * step) <$> seq 0 (Z.to_nat n)).

(** a slice bound, as Python normalises it against the length *)
Definition py_bound (len i : Z) : Z :=
  if i <? 0 then Z.max 0 (i + len) else Z.min i len.

(** [l[start:stop]] *)
Definition py_slice {A : Type} (l : list A) (start stop : Z) : list A :=
  let a := py_bound (py_len l) start in
  let b := py_bound (py_len l) stop in
  take (Z.to_nat (b - a)) (drop (Z.to_nat a) l).

(** [l[:stop]] *)
Definition py_prefix {A : Type} (l : list A) (stop : Z) : list A :=
  py_slice l 0 stop.

(** [zip(a, b)] *)
Definition py_zip {A B : Type} (a : list A) (b : list B) : list (A * B) :=
  zip a b.

(** [max(l)] on a list of integers *)
Definition py_max (l : list Z) : result Z :=
  match l with
  | [] => Raise ValueError
  | x :: l' => Ok (foldl Z.max x l')
  end.

(** [{k: v for (k, v) in l}]: a later pair overwrites an earlier one *)
Definition py_dict (l : list (string * nat)) : gmap string nat :=
  foldl (fun m kv => <[kv.1 := kv.2]> m) ∅ l.

(** [d.get(k, default)] *)
Definition py_get (d : gmap string nat) (k : string) (default : nat) : nat :=
  match d !! k with
  | Some v => v
  | None => default
  end.

(** [d[k]] *)
Definition py_getitem (d : gmap string nat) (k : string) : result nat :=
  match d !! k with
  | Some v => Ok v
  | None => Raise KeyError
  end.

(** [l[i]] for a non-negative index *)
Definition py_index {A : Type} (l : list A) (i : nat) : result A :=
  match l !! i with
  | Some x => Ok x
  | None => Raise IndexError
  end.

(** [" ".join(x)] *)
Definition join_tokens (x : list string) : string := String.concat " " x.

(** [np.zeros((n), dtype=np.int32)] *)
Definition np_zeros (n : Z) : result (list Z) :=
  if n <? 0 then Raise ValueError else Ok (replicate (Z.to_nat n) 0).

(** the value kept by a NumPy [float64] cell that is assigned a Python
    integer; token ids and lengths stay far below 2^53, where the
    conversion is exact *)
Definition float64 (z : Z) : Z := z.

(** [v[i] = x] on a vector whose cells convert with [cast] *)
Definition np_set (cast : Z -> Z) (v : list Z) (i : nat) (x : Z)
  : result (list Z) :=
  match v !! i with
  | Some _ => Ok (<[i := cast x]> v)
  | None => Raise IndexError
  end.

(** [v[i] += 1] on an [int32] vector *)
Definition np_incr (v : list Z) (i : nat) : result (list Z) :=
  match v !! i with
  | Some c => Ok (<[i := int32 (c + 1)]> v)
  | None => Raise IndexError
  end.

(** ** Levels and the level dictionary *)

Inductive level : Type := L0 | L1 | L2.

#[global] Instance level_eq_dec : EqDecision level.
Proof. solve_decision. Defined.

Definition level_index (l : level) : Z :=
  match l with L0 => 0 | L1 => 1 | L2 => 2 end.

Abbreviation corpus := (list (list string * list string)).
Abbreviation command_set := (list (list string)).

(** [{" ".join(x): i for (i, x) in enumerate(commands)}] *)
Definition make_labels (commands : command_set) : gmap string nat :=
  py_dict (imap (fun i x => (join_tokens x, i)) commands).

(** one value of [self.lvl_dict]: (commands, parallel corpus, labels) *)
Record lvl_entry : Type := LvlEntry {
  lvl_commands : command_set;
  lvl_pc : corpus;
  lvl_labels : gmap string nat
}.

(** a dictionary keyed by ['L0'], ['L1'], ['L2'] *)
Record per_level (A : Type) : Type := PerLevel {
  at_L0 : A;
  at_L1 : A;
  at_L2 : A
}.
Arguments PerLevel {A} _ _ _.
Arguments at_L0 {A} _.
Arguments at_L1 {A} _.
Arguments at_L2 {A} _.

Definition pl_get {A : Type} (d : per_level A) (l : level) : A :=
  match l with
  | L0 => at_L0 d
  | L1 => at_L1 d
  | L2 => at_L2 d
  end.

Definition pl_set {A : Type} (d : per_level A) (l : level) (a : A) : per_level A :=
  match l with
  | L0 => PerLevel a (at_L1 d) (at_L2 d)
  | L1 => PerLevel (at_L0 d) a (at_L2 d)
  | L2 => PerLevel (at_L0 d) (at_L1 d) a
  end.

Definition make_lvl_dict (l0_pc l1_pc l2_pc : corpus)
    (l0_commands l1_commands l2_commands : command_set) : per_level lvl_entry :=
  PerLevel (LvlEntry l0_commands l0_pc (make_labels l0_commands))
           (LvlEntry l1_commands l1_pc (make_labels l1_commands))
           (LvlEntry l2_commands l2_pc (make_labels l2_commands)).

Definition PAD : string := "<<PAD>>".
Definition PAD_ID : nat := 0.
Definition UNK : string := "<<UNK>>".
Definition UNK_ID : nat := 1.

(** ** Vocabulary and vectorizers

    Two things in the source are fixed by the Python run time and not by
    the program: the order in which [list(vocab)] enumerates a set, and
    the order in which [for lvl in self.lvl_dict] visits the three keys.
    Both are parameters here; the theorems hold for every choice. *)

Section Construction.

Variable set_list : gset string -> list string.
Variable lvl_order : list level.

(** [for word in n: vocab.add(word)] *)
Definition add_words (vocab : gset string) (n : list string) : gset string :=
  foldl (fun v word => v ∪ {[word]}) vocab n.

(** [id2word = [PAD, UNK] + list(vocab)] and
    [word2id = {id2word[i]: i for i in range(len(id2word))}] *)
Definition number_vocabulary (vocab : gset string) : gmap string nat * list string :=
  let id2word := [PAD; UNK] ++ set_list vocab in
  let word2id := py_dict (imap (fun i w => (w, i)) id2word) in
  (word2id, id2word).

(** *** [NNDual] *)

Definition NN_collect_vocab (lvl_dict : per_level lvl_entry) : gset string :=
  foldl (fun vocab lvl =>
           foldl (fun vocab entry => add_words vocab entry.1)
                 vocab (lvl_pc (pl_get lvl_dict lvl)))
        ∅ lvl_order.

Definition NN_build_vocabulary (lvl_dict : per_level lvl_entry)
  : gmap string nat * list string :=
  number_vocabulary (NN_collect_vocab lvl_dict).

(** the body of the loop over one level's corpus in [NNDual.vectorize] *)
Definition NN_vectorize_entry (word2id labels : gmap string nat)
    (entry : list string * list string) : result (list Z * nat) :=
  let '(nl, ml) := entry in
  nvec ← np_zeros (Z.of_nat (size word2id));
  mlab ← py_getitem labels (join_tokens ml);
  nvec ← foldM (fun nvec w => np_incr nvec (py_get word2id w UNK_ID)) nvec nl;
  Ok (nvec, mlab).

Definition vectorize_level
    (body : list string * list string -> result (list Z * nat))
    (pc : corpus) : result (list (list Z) * list nat) :=
  foldM (fun '(xl, yl) entry =>
           '(nvec, mlab) ← body entry;
           Ok (xl ++ [nvec], yl ++ [mlab]))
        ([], []) pc.

(** [np.array(y[lvl], dtype=np.int32)] *)
Definition np_int32_array (y : list nat) : list Z :=
  (fun i : nat => int32 (Z.of_nat i)) <$> y.

Definition vectorize_levels
    (body : level -> list string * list string -> result (list Z * nat))
    (lvl_dict : per_level lvl_entry)
  : result (per_level (list (list Z)) * per_level (list Z)) :=
  '(x, y) ← foldM (fun '(x, y) lvl =>
                     '(xl, yl) ← vectorize_level (body lvl) (lvl_pc (pl_get lvl_dict lvl));
                     Ok (pl_set x lvl xl, pl_set y lvl yl))
                  (PerLevel [] [] [], PerLevel [] [] []) lvl_order;
  Ok (x, PerLevel (np_int32_array (at_L0 y)) (np_int32_array (at_L1 y))
                  (np_int32_array (at_L2 y))).

Definition NN_vectorize (lvl_dict : per_level lvl_entry) (word2id : gmap string nat)
  : result (per_level (list (list Z)) * per_level (list Z)) :=
  vectorize_levels
    (fun lvl => NN_vectorize_entry word2id (lvl_labels (pl_get lvl_dict lvl)))
    lvl_dict.

(** the Python-side fields of an [NNDual] object *)
Record NNDual : Type := MkNNDual {
  nn_lvl_dict : per_level lvl_entry;
  nn_epochs : Z;
  nn_bsz : Z;
  nn_word2id : gmap string nat;
  nn_id2word : list string;
  nn_train_x : per_level (list (list Z));
  nn_train_y : per_level (list Z)
}.

(** [NNDual.__init__], up to the construction of the graph *)
Definition NNDual_init (l0_corpus l1_corpus l2_corpus : corpus)
    (l0_commands l1_commands l2_commands : command_set)
    (epochs batch_size : Z) : result NNDual :=
  let lvl_dict := make_lvl_dict l0_corpus l1_corpus l2_corpus
                                l0_commands l1_commands l2_commands in
  let '(word2id, id2word) := NN_build_vocabulary lvl_dict in
  '(train_x, train_y) ← NN_vectorize lvl_dict word2id;
  Ok (MkNNDual lvl_dict epochs batch_size word2id id2word train_x train_y).

(** *** [RNNDual] *)

Definition RNN_scan_corpora (lvl_dict : per_level lvl_entry)
  : gset string * Z * per_level (list Z) :=
  foldl (fun st lvl =>
           foldl (fun '(vocab, max_length, lengths) entry =>
                    let n := entry.1 in
                    let max_length :=
                      if max_length <? py_len n then py_len n else max_length in
                    let lengths :=
                      pl_set lengths lvl (pl_get lengths lvl ++ [py_len n]) in
                    (add_words vocab n, max_length, lengths))
                 st (lvl_pc (pl_get lvl_dict lvl)))
        (∅, 0, PerLevel [] [] []) lvl_order.

Definition RNN_build_vocabulary (lvl_dict : per_level lvl_entry)
  : gmap string nat * list string * Z * per_level (list Z) :=
  let '(vocab, max_length, lengths) := RNN_scan_corpora lvl_dict in
  let '(word2id, id2word) := number_vocabulary vocab in
  (word2id, id2word, max_length, lengths).

(** [for i in range(len(nl)): nvec[i] = self.word2id.get(nl[i], UNK_ID)];
    [count] bounds the loop ([len(nl)] in [vectorize], a minimum in [score]) *)
Definition fill_ids (cast : Z -> Z) (word2id : gmap string nat) (nvec : list Z)
    (nl : list string) (count : nat) : result (list Z) :=
  foldM (fun nvec i =>
           w ← py_index nl i;
           np_set cast nvec i (Z.of_nat (py_get word2id w UNK_ID)))
        nvec (seq 0 count).

Definition RNN_vectorize_entry (word2id labels : gmap string nat) (max_len : Z)
    (entry : list string * list string) : result (list Z * nat) :=
  let '(nl, ml) := entry in
  nvec ← np_zeros max_len;
  mlab ← py_getitem labels (join_tokens ml);
  nvec ← fill_ids int32 word2id nvec nl (length nl);
  Ok (nvec, mlab).

Definition RNN_vectorize (lvl_dict : per_level lvl_entry)
    (word2id : gmap string nat) (max_len : Z)
  : result (per_level (list (list Z)) * per_level (list Z)) :=
  vectorize_levels
    (fun lvl => RNN_vectorize_entry word2id (lvl_labels (pl_get lvl_dict lvl)) max_len)
    lvl_dict.

Record RNNDual : Type := MkRNNDual {
  rnn_lvl_dict : per_level lvl_entry;
  rnn_epochs : Z;
  rnn_bsz : Z;
  rnn_word2id : gmap string nat;
  rnn_id2word : list string;
  rnn_max_len : Z;
  rnn_lengths : per_level (list Z);
  rnn_train_x : per_level (list (list Z));
  rnn_train_y : per_level (list Z)
}.

Definition RNNDual_init (l0_corpus l1_corpus l2_corpus : corpus)
    (l0_commands l1_commands l2_commands : command_set)
    (epochs batch_size : Z) : result RNNDual :=
  let lvl_dict := make_lvl_dict l0_corpus l1_corpus l2_corpus
                                l0_commands l1_commands l2_commands in
  let '(word2id, id2word, max_len, lengths) := RNN_build_vocabulary lvl_dict in
  '(train_x, train_y) ← RNN_vectorize lvl_dict word2id max_len;
  Ok (MkRNNDual lvl_dict epochs batch_size word2id id2word max_len lengths
                train_x train_y).

(** *** [RNNClassifier] *)

Definition RC_build_vocabulary (pc : corpus) : gmap string nat * list string :=
  number_vocabulary (foldl (fun vocab entry => add_words vocab entry.1) ∅ pc).

Definition RC_vectorize_entry (word2id labels : gmap string nat) (lengths : list Z)
    (entry : list string * list string) : result (list Z * nat) :=
  let '(nl, ml) := entry in
  width ← py_max lengths;
  nvec ← np_zeros width;
  mlab ← py_getitem labels (join_tokens ml);
  nvec ← fill_ids int32 word2id nvec nl (length nl);
  Ok (nvec, mlab).

Definition RC_vectorize (pc : corpus) (word2id labels : gmap string nat)
    (lengths : list Z) : result (list (list Z) * list Z) :=
  '(x, y) ← vectorize_level (RC_vectorize_entry word2id labels lengths) pc;
  Ok (x, np_int32_array y).

Record RNNClassifier : Type := MkRNNClassifier {
  rc_commands : command_set;
  rc_labels : gmap string nat;
  rc_pc : corpus;
  rc_epochs : Z;
  rc_bsz : Z;
  rc_word2id : gmap string nat;
  rc_id2word : list string;
  rc_lengths : list Z;
  rc_train_x : list (list Z);
  rc_train_y : list Z
}.

Definition RNNClassifier_init (parallel_corpus : corpus) (commands : command_set)
    (epochs batch_size : Z) : result RNNClassifier :=
  let labels := make_labels commands in
  let '(word2id, id2word) := RC_build_vocabulary parallel_corpus in
  let lengths := (fun entry : list string * list string => py_len entry.1)
                   <$> parallel_corpus in
  '(train_x, train_y) ← RC_vectorize parallel_corpus word2id labels lengths;
  Ok (MkRNNClassifier commands labels parallel_corpus epochs batch_size
                      word2id id2word lengths train_x train_y).

End Construction.

(** ** The TensorFlow session

    [session.run(fetches, feed_dict)] is the only door to the numeric
    engine.  The source fetches either one probability tensor (a forward
    pass) or a pair of a combined loss and the matching training
    operation (one optimizer step). *)

Inductive probs_tensor : Type :=
  | l0_probs | l1_probs | l2_probs | lvl_probs   (* the dual models *)
  | rc_probs.                                    (* [RNNClassifier.probs] *)

Inductive train_op : Type :=
  | l0_train_op | l1_train_op | l2_train_op      (* the dual models *)
  | rc_train_op.                                 (* [RNNClassifier.train_op] *)

#[global] Instance train_op_eq_dec : EqDecision train_op.
Proof. solve_decision. Defined.

Definition probs_of (l : level) : probs_tensor :=
  match l with L0 => l0_probs | L1 => l1_probs | L2 => l2_probs end.

Definition train_op_of (l : level) : train_op :=
  match l with L0 => l0_train_op | L1 => l1_train_op | L2 => l2_train_op end.

(** a [feed_dict]; the placeholders a call does not feed are [None] *)
Record feed : Type := Feed {
  fd_X : list (list Z);
  fd_X_len : option (list Z);
  fd_keep_prob : Q;
  fd_Y : option (list Z);
  fd_LVL_Y : option (list Z)
}.

(** what a run leaves behind: the optimizer steps that were asked for,
    the three summands of every [curr_loss += l0_loss + l1_loss + l2_loss],
    and what was printed.  The [print] statement of Python 2 writes each
    item as soon as it is evaluated: the text ['Epoch e Average Loss:']
    is out before the average is computed. *)
Inductive event (Loss : Type) : Type :=
  | EvTrain (op : train_op) (fd : feed)
  | EvAccum (e start stop : Z) (l0_loss l1_loss l2_loss : Loss)
  | EvPrintEpoch (e : Z)
  | EvPrintLoss (average : Loss).
Arguments EvTrain {Loss} op fd.
Arguments EvAccum {Loss} e start stop l0_loss l1_loss l2_loss.
Arguments EvPrintEpoch {Loss} e.
Arguments EvPrintLoss {Loss} average.

Definition is_train_of {Loss : Type} (op : train_op) (ev : event Loss) : bool :=
  match ev with
  | EvTrain op' _ => bool_decide (op' = op)
  | _ => false
  end.

Definition is_train {Loss : Type} (ev : event Loss) : bool :=
  match ev with
  | EvTrain _ _ => true
  | _ => false
  end.

(** the number of optimizer steps of [op] recorded in a trace *)
Definition steps_of {Loss : Type} (op : train_op) (tr : list (event Loss)) : nat :=
  length (filter (fun ev => is_train_of op ev = true) tr).

(** the number of optimizer steps recorded in a trace *)
Definition steps {Loss : Type} (tr : list (event Loss)) : nat :=
  length (filter (fun ev => is_train ev = true) tr).

Record St (Session Loss : Type) : Type := MkSt {
  session : Session;
  trace : list (event Loss)
}.
Arguments MkSt {Session Loss} _ _.
Arguments session {Session Loss} _.
Arguments trace {Session Loss} _.

(** The engine: the session type, the values of the [tf.Variable]s it
    holds, floating-point probabilities with their order, floating-point
    losses with the operations [fit] applies to them, and the two kinds of
    [session.run] the source performs. *)
Class Engine : Type := MkEngine {
  Session : Type;
  (** the values of all [tf.Variable]s of the graph *)
  Params : Type;
  params_of : Session -> Params;
  Prob : Type;
  prob_leb : Prob -> Prob -> bool;
  Loss : Type;
  (** the integer [0] and the float [0.0] the loss variables start from *)
  loss_zero : Loss;
  loss_add : Loss -> Loss -> Loss;
  (** [curr_loss / batches] for a non-zero [batches] *)
  loss_div : Loss -> Z -> Loss;
  (** [session.run(probs, feed_dict)] *)
  run_probs : probs_tensor -> feed -> Session -> result (list (list Prob)) * Session;
  (** [session.run([loss + lvl_loss, train_op], feed_dict)], which returns
      the value of the combined loss *)
  run_train : train_op -> feed -> Session -> result Loss * Session
}.

Section Engine.

Context `{E : Engine}.

(** *** The monad of [fit] and [score] *)

Definition M (A : Type) : Type :=
  St Session Loss -> result A * St Session Loss.

#[global] Instance M_ret : MRet M := fun A a s => (Ok a, s).
#[global] Instance M_bind : MBind M := fun A B f m s =>
  match m s with
  | (Ok a, s') => f a s'
  | (Raise e, s') => (Raise e, s')
  end.

Definition raise {A : Type} (e : exn) : M A := fun s => (Raise e, s).
Definition lift {A : Type} (r : result A) : M A := fun s => (r, s).
Definition emit (ev : event Loss) : M unit := fun s =>
  (Ok tt, MkSt (session s) (trace s ++ [ev])).

Definition sess_probs (t : probs_tensor) (fd : feed) : M (list (list Prob)) :=
  fun s =>
    let '(r, se) := run_probs t fd (session s) in
    (r, MkSt se (trace s)).

Definition sess_train (op : train_op) (fd : feed) : M Loss := fun s =>
  let '(r, se) := run_train op fd (session s) in
  (r, MkSt se (trace s ++ [EvTrain op fd])).

(** [for x in l: acc = body(acc, x)] *)
Fixpoint forM {A B : Type} (body : A -> B -> M A) (acc : A) (l : list B) : M A :=
  match l with
  | [] => mret acc
  | x :: l' => acc' ← body acc x; forM body acc' l'
  end.

(** *** [np.argmax] *)

Fixpoint argmax_from (best_i : nat) (best : Prob) (i : nat) (l : list Prob) : nat :=
  match l with
  | [] => best_i
  | x :: l' =>
      if prob_leb x best then argmax_from best_i best (S i) l'
      else argmax_from i x (S i) l'
  end.

Definition np_argmax (row : list Prob) : result nat :=
  match row with
  | [] => Raise ValueError
  | x :: l => Ok (argmax_from 0%nat x 1%nat l)
  end.

(** [np.argmax(a, axis=1)] *)
Fixpoint np_argmax_axis1 (a : list (list Prob)) : result (list nat) :=
  match a with
  | [] => Ok []
  | row :: a' => i ← np_argmax row; r ← np_argmax_axis1 a'; Ok (i :: r)
  end.

(** [[v] = l] *)
Definition unpack1 {A : Type} (l : list A) : result A :=
  match l with
  | [v] => Ok v
  | _ => Raise ValueError
  end.

(** *** [NNDual.fit] *)

Definition NN_feed (m : NNDual) (lvl : level) (start stop : Z) (lvl_y : list Z)
  : feed :=
  Feed (py_slice (pl_get (nn_train_x m) lvl) start stop) None (1 # 2)
       (Some (py_slice (pl_get (nn_train_y m) lvl) start stop))
       (Some ((fun z => z + level_index lvl) <$> lvl_y)).

(** one of the three guarded steps of the loop body *)
Definition NN_fit_level (m : NNDual) (lvl : level) (start stop : Z) : M Loss :=
  if stop <? py_len (pl_get (nn_train_x m) lvl) then
    lvl_y ← lift (np_zeros (nn_bsz m));
    sess_train (train_op_of lvl) (NN_feed m lvl start stop lvl_y)
  else mret loss_zero.

Definition NN_fit_position (m : NNDual) (e : Z) (acc : Loss * Z) (pos : Z * Z)
  : M (Loss * Z) :=
  let '(curr_loss, batches) := acc in
  let '(start, stop) := pos in
  l0_loss ← NN_fit_level m L0 start stop;
  l1_loss ← NN_fit_level m L1 start stop;
  l2_loss ← NN_fit_level m L2 start stop;
  emit (EvAccum e start stop l0_loss l1_loss l2_loss);;
  mret (loss_add curr_loss (loss_add (loss_add l0_loss l1_loss) l2_loss),
        batches + 1).

(** [zip(range(0, n - bsz, bsz), range(bsz, n, bsz))] *)
Definition positions (n bsz : Z) : result (list (Z * Z)) :=
  starts ← py_range 0 (n - bsz) bsz;
  stops ← py_range bsz n bsz;
  Ok (py_zip starts stops).

Definition NN_positions (m : NNDual) (chunk_size : Z) : result (list (Z * Z)) :=
  positions (py_len (py_prefix (pl_get (nn_train_x m) L0) chunk_size)) (nn_bsz m).

(** [print 'Epoch %s Average Loss:' % str(e), curr_loss / batches] *)
Definition print_average (e : Z) (curr_loss : Loss) (batches : Z) : M unit :=
  emit (EvPrintEpoch e);;
  if batches =? 0 then raise ZeroDivisionError
  else emit (EvPrintLoss (loss_div curr_loss batches)).

Definition NN_fit_epoch (m : NNDual) (chunk_size : Z) (e : Z) : M unit :=
  ps ← lift (NN_positions m chunk_size);
  '(curr_loss, batches) ← forM (NN_fit_position m e) (loss_zero, 0) ps;
  print_average e curr_loss batches.

Definition NN_fit (m : NNDual) (chunk_size : Z) : M unit :=
  es ← lift (py_range 0 (nn_epochs m) 1);
  forM (fun _ e => NN_fit_epoch m chunk_size e) tt es.

(** *** [RNNDual.fit] *)

Definition RNN_feed (m : RNNDual) (lvl : level) (start stop : Z) (z : list Z)
  : feed :=
  Feed (py_slice (pl_get (rnn_train_x m) lvl) start stop)
       (Some (py_slice (pl_get (rnn_lengths m) lvl) start stop)) (1 # 2)
       (Some (py_slice (pl_get (rnn_train_y m) lvl) start stop))
       (Some ((fun x => x + level_index lvl) <$> z)).

(** one of the three guarded steps; [prev] is the value the loss variable
    of the level holds when the guard is reached *)
Definition RNN_fit_level (m : RNNDual) (z : list Z) (lvl : level)
    (start stop : Z) (prev : Loss) : M Loss :=
  if stop <? py_len (pl_get (rnn_train_x m) lvl) then
    sess_train (train_op_of lvl) (RNN_feed m lvl start stop z)
  else mret prev.

Definition RNN_fit_position (m : RNNDual) (z : list Z) (e : Z)
    (acc : Loss * Z * (Loss * Loss * Loss)) (pos : Z * Z)
  : M (Loss * Z * (Loss * Loss * Loss)) :=
  let '(curr_loss, batches, (l0_loss, l1_loss, l2_loss)) := acc in
  let '(start, stop) := pos in
  l0_loss ← RNN_fit_level m z L0 start stop l0_loss;
  l1_loss ← RNN_fit_level m z L1 start stop l1_loss;
  l2_loss ← RNN_fit_level m z L2 start stop l2_loss;
  emit (EvAccum e start stop l0_loss l1_loss l2_loss);;
  mret (loss_add curr_loss (loss_add (loss_add l0_loss l1_loss) l2_loss),
        batches + 1, (l0_loss, l1_loss, l2_loss)).

Definition RNN_positions (m : RNNDual) (chunk_size : Z) : result (list (Z * Z)) :=
  positions chunk_size (rnn_bsz m).

Definition RNN_fit_epoch (m : RNNDual) (chunk_size : Z) (z : list Z)
    (losses : Loss * Loss * Loss) (e : Z) : M (Loss * Loss * Loss) :=
  ps ← lift (RNN_positions m chunk_size);
  '(curr_loss, batches, losses) ←
    forM (RNN_fit_position m z e) (loss_zero, 0, losses) ps;
  print_average e curr_loss batches;;
  mret losses.

Definition RNN_fit (m : RNNDual) (chunk_size : Z) : M unit :=
  z ← lift (np_zeros (rnn_bsz m));
  es ← lift (py_range 0 (rnn_epochs m) 1);
  forM (RNN_fit_epoch m chunk_size z) (loss_zero, loss_zero, loss_zero) es;;
  mret tt.

(** *** [RNNClassifier.fit] *)

Definition RC_feed (m : RNNClassifier) (start stop : Z) : feed :=
  Feed (py_slice (rc_train_x m) start stop)
       (Some (py_slice (rc_lengths m) start stop)) (1 # 2)
       (Some (py_slice (rc_train_y m) start stop)) None.

Definition RC_fit_position (m : RNNClassifier) (acc : Loss * Z) (pos : Z * Z)
  : M (Loss * Z) :=
  let '(curr_loss, batches) := acc in
  let '(start, stop) := pos in
  loss ← sess_train rc_train_op (RC_feed m start stop);
  mret (loss_add curr_loss loss, batches + 1).

Definition RC_positions (m : RNNClassifier) (chunk_size : Z)
  : result (list (Z * Z)) :=
  positions (py_len (py_prefix (rc_train_x m) chunk_size)) (rc_bsz m).

Definition RC_fit_epoch (m : RNNClassifier) (chunk_size : Z) (e : Z) : M unit :=
  ps ← lift (RC_positions m chunk_size);
  '(curr_loss, batches) ← forM (RC_fit_position m) (loss_zero, 0) ps;
  print_average e curr_loss batches.

Definition RC_fit (m : RNNClassifier) (chunk_size : Z) : M unit :=
  es ← lift (py_range 0 (rc_epochs m) 1);
  forM (fun _ e => RC_fit_epoch m chunk_size e) tt es.

(** *** [score] *)

Definition score_feed (seq : list Z) (x_len : option (list Z)) : feed :=
  Feed [seq] x_len 1 None None.

(** the branch of [score] for one predicted level: run that level's head,
    take the best command and build the returned tuple *)
Definition score_level (commands : command_set) (t : probs_tensor) (fd : feed)
    (lvl : list (list Prob)) (pred_level : nat)
  : M (list string * Prob * nat * Prob) :=
  y ← sess_probs t fd;
  pred_command ← lift (am ← np_argmax_axis1 y; unpack1 am);
  command ← lift (py_index commands pred_command);
  y0 ← lift (py_index y 0);
  p ← lift (py_index y0 pred_command);
  lvl0 ← lift (py_index lvl 0);
  q ← lift (py_index lvl0 pred_level);
  mret (command, p, pred_level, q).

(** the part of [score] the two dual models share: everything after the
    input vector has been built *)
Definition score_dual (lvl_dict : per_level lvl_entry) (fd : feed)
  : M (list string * Prob * nat * Prob) :=
  lvl ← sess_probs lvl_probs fd;
  pred_level ← lift (am ← np_argmax_axis1 lvl; unpack1 am);
  match pred_level with
  | 0%nat => score_level (lvl_commands (at_L0 lvl_dict)) l0_probs fd lvl pred_level
  | 1%nat => score_level (lvl_commands (at_L1 lvl_dict)) l1_probs fd lvl pred_level
  | 2%nat => score_level (lvl_commands (at_L2 lvl_dict)) l2_probs fd lvl pred_level
  | _ => raise UnicodeError
  end.

(** the input vector of [NNDual.score]: the same histogram loop as
    [vectorize] *)
Definition NN_input (m : NNDual) (nl_command : list string) : result (list Z) :=
  seq ← np_zeros (Z.of_nat (size (nn_word2id m)));
  foldM (fun seq w => np_incr seq (py_get (nn_word2id m) w UNK_ID)) seq nl_command.

Definition NN_score (m : NNDual) (nl_command : list string)
  : M (list string * Prob * nat * Prob) :=
  seq ← lift (NN_input m nl_command);
  score_dual (nn_lvl_dict m) (score_feed seq None).

(** the input vector of [RNNDual.score]:
    [for i in range(min(len(nl_command), self.max_len))] *)
Definition RNN_input (m : RNNDual) (nl_command : list string) : result (list Z) :=
  seq ← np_zeros (rnn_max_len m);
  fill_ids int32 (rnn_word2id m) seq nl_command
    (Z.to_nat (Z.min (py_len nl_command) (rnn_max_len m))).

Definition RNN_score (m : RNNDual) (nl_command : list string)
  : M (list string * Prob * nat * Prob) :=
  seq ← lift (RNN_input m nl_command);
  score_dual (rnn_lvl_dict m) (score_feed seq (Some [py_len nl_command])).

(** the input vector of [RNNClassifier.score]; [np.zeros] without a
    [dtype] is a [float64] vector *)
Definition RC_input (m : RNNClassifier) (nl_command : list string)
  : result (list Z) :=
  width ← py_max (rc_lengths m);
  seq ← np_zeros width;
  fill_ids float64 (rc_word2id m) seq nl_command
    (Z.to_nat (Z.min (py_len nl_command) (py_len seq))).

Definition RC_score (m : RNNClassifier) (nl_command : list string)
  : M (list string * Prob) :=
  seq ← lift (RC_input m nl_command);
  let seq_len := py_len nl_command in
  y ← sess_probs rc_probs (score_feed seq (Some [seq_len]));
  pred_command ← lift (am ← np_argmax_axis1 y; unpack1 am);
  command ← lift (py_index (rc_commands m) pred_command);
  y0 ← lift (py_index y 0);
  p ← lift (py_index y0 pred_command);
  mret (command, p).

End Engine.

(** * Vocabulary of the statements

    The notions the theorems are stated with: token counts, the shape of a
    padded vector, predicates on traces and on runs of [M], a small
    engine and sample corpora for concrete runs. *)

(** the tokens of the source sequences of a corpus, with repetitions *)
Definition source_tokens (pc : corpus) : list string :=
  mjoin (fst <$> pc).

(** the tokens of the source sequences of all three corpora *)
Definition all_source_tokens (lvl_dict : per_level lvl_entry) : list string :=
  source_tokens (lvl_pc (at_L0 lvl_dict))
  ++ source_tokens (lvl_pc (at_L1 lvl_dict))
  ++ source_tokens (lvl_pc (at_L2 lvl_dict)).

(** the number of distinct tokens among them *)
Definition distinct_tokens (lvl_dict : per_level lvl_entry) : nat :=
  length (remove_dups (all_source_tokens lvl_dict)).

(** what the specification asks of a vocabulary *)
Definition vocabulary_ok (tokens : list string)
    (word2id : gmap string nat) (id2word : list string) : Prop :=
  size word2id = (2 + length (remove_dups tokens))%nat
  /\ length id2word = size word2id
  /\ word2id !! PAD = Some PAD_ID
  /\ word2id !! UNK = Some UNK_ID
  /\ (forall w : string, w ∈ tokens -> is_Some (word2id !! w))
  /\ forall (w : string) (i : nat), word2id !! w = Some i <-> id2word !! i = Some w.

(** the number of occurrences of a token in a sequence *)
Definition occurrences (w : string) (nl : list string) : nat :=
  length (filter (fun x => x = w) nl).

(** every target sequence of a corpus is one of the commands of its level *)
Definition targets_known (lvl_dict : per_level lvl_entry) : Prop :=
  forall lvl nl ml,
    (nl, ml) ∈ lvl_pc (pl_get lvl_dict lvl) -> ml ∈ lvl_commands (pl_get lvl_dict lvl).

(** the running maximum of [build_vocabulary] *)
Definition running_max (mx : Z) (lens : list Z) : Z :=
  foldl (fun m n => if m <? n then n else m) mx lens.

(** the lengths of the source sequences of a corpus, in order *)
Definition source_lengths (pc : corpus) : list Z :=
  (fun entry : list string * list string => py_len entry.1) <$> pc.

(** [mx] is the greatest of the lengths [lens], or 0 when there is none *)
Definition is_longest (mx : Z) (lens : list Z) : Prop :=
  (forall n, n ∈ lens -> n <= mx) /\ (mx ∈ lens \/ (lens = [] /\ mx = 0)).

(** the lengths of the source sequences of all three corpora *)
Definition all_source_lengths (lvl_dict : per_level lvl_entry) : list Z :=
  source_lengths (lvl_pc (at_L0 lvl_dict))
  ++ source_lengths (lvl_pc (at_L1 lvl_dict))
  ++ source_lengths (lvl_pc (at_L2 lvl_dict)).

(** the vector [v] holds the ids of the tokens of [nl] in order, and
    [PAD_ID] from the length of [nl] on *)
Definition padded_ids (word2id : gmap string nat) (nl : list string)
    (v : list Z) : Prop :=
  (forall i w, nl !! i = Some w ->
     exists k, word2id !! w = Some k /\ v !! i = Some (Z.of_nat k))
  /\ (forall i, (length nl <= i < length v)%nat -> v !! i = Some (Z.of_nat PAD_ID)).

(** An instance of [Engine] on which the models run by computation: the
    session is the number of optimizer steps taken so far, a forward pass
    scores a row by the sum of its cells, and a training step returns a
    positive loss. *)
Definition toy_run_probs (t : probs_tensor) (fd : feed) (se : nat)
  : result (list (list Z)) * nat :=
  (Ok ((fun row : list Z =>
          match t with
          | lvl_probs => [foldr Z.add 0 row; 3; 2]
          | _ => [1; foldr Z.add 0 row]
          end) <$> fd_X fd), se).

Definition toy_run_train (op : train_op) (fd : feed) (se : nat) : result Z * nat :=
  (Ok (1 + Z.of_nat se), S se).

Definition toy_engine : Engine :=
  {| Session := nat; Params := nat; params_of := fun se => se;
     Prob := Z; prob_leb := Z.leb;
     Loss := Z; loss_zero := 0; loss_add := Z.add; loss_div := Z.div;
     run_probs := toy_run_probs; run_train := toy_run_train |}.

(** the order of enumeration used when a model is run by computation *)
Definition std_order : list level := [L0; L1; L2].

(** [spec Q R m]: running [m] only appends events that satisfy [Q] to
    the trace, and a value it returns satisfies [R] *)
Definition spec `{E : Engine} {A : Type} (Q : event Loss -> Prop) (R : A -> Prop)
    (m : M A) : Prop :=
  forall s, exists evs,
    trace (m s).2 = trace s ++ evs
    /\ Forall Q evs
    /\ forall a, (m s).1 = Ok a -> R a.

(** [quiet m]: running [m] leaves the session as it is and appends no
    optimizer step to the trace *)
Definition quiet `{E : Engine} {A : Type} (m : M A) : Prop :=
  forall s,
    session (m s).2 = session s
    /\ exists evs, trace (m s).2 = trace s ++ evs
                   /\ Forall (fun ev => is_train ev = false) evs.

(** the event is not an optimizer step of [op] *)
Definition not_step_of {Loss : Type} (op : train_op) (ev : event Loss) : Prop :=
  is_train_of op ev = false.

(** no optimizer step was added to the trace and every [tf.Variable] holds
    the value it held before *)
Definition nothing_trained `{E : Engine} (s s' : St Session Loss) : Prop :=
  steps (trace s') = steps (trace s)
  /\ params_of (session s') = params_of (session s).

(** in an accumulation event, a level whose example count [len] is not
    above the end index of the position adds [loss_zero] *)
Definition exhausted_adds_zero `{E : Engine} (len : level -> Z) (ev : event Loss)
  : Prop :=
  match ev with
  | EvAccum _ _ stop l0_loss l1_loss l2_loss =>
      forall k, len k <= stop -> pl_get (PerLevel l0_loss l1_loss l2_loss) k = loss_zero
  | _ => True
  end.

(** the commands and the corpora of the concrete runs: [n] copies of one
    sentence pair *)
Definition sample_commands : command_set := [["MOVE"; "N"]; ["MOVE"; "S"]].

Definition sample_corpus (n : nat) : corpus :=
  replicate n (["go"; "north"], ["MOVE"; "N"]).

(** [i] is the position of the first greatest element of [row] *)
Definition is_first_max `{E : Engine} (row : list Prob) (i : nat) : Prop :=
  exists x, row !! i = Some x
    /\ (forall j y, row !! j = Some y -> prob_leb y x = true)
    /\ (forall j y, (j < i)%nat -> row !! j = Some y -> prob_leb x y = false).

(** what [score] returns from state [s] on the feed [fd], once the
    level-selector has answered the single row [lvl_row] *)
Definition two_stage `{E : Engine} (lvl_dict : per_level lvl_entry) (fd : feed)
    (s : St Session Loss)
    (out : result (list string * Prob * nat * Prob) * St Session Loss) : Prop :=
  forall lvl_row s1,
    run_probs lvl_probs fd (session s) = (Ok [lvl_row], s1) ->
    lvl_row <> [] ->
    exists pred_level q,
      is_first_max lvl_row pred_level
      /\ lvl_row !! pred_level = Some q
      /\ ((2 < pred_level)%nat -> out = (Raise UnicodeError, MkSt s1 (trace s)))
      /\ forall l, Z.of_nat pred_level = level_index l ->
           forall y_row s2,
             run_probs (probs_of l) fd s1 = (Ok [y_row], s2) ->
             y_row <> [] ->
             exists pred_command p,
               is_first_max y_row pred_command
               /\ y_row !! pred_command = Some p
               /\ forall command,
                    lvl_commands (pl_get lvl_dict l) !! pred_command = Some command ->
                    out = (Ok (command, p, pred_level, q), MkSt s2 (trace s)).

(** [m] answers the same on any two states whose model parameters agree,
    keeps the parameters and records nothing *)
Definition pure_query `{E : Engine} {A : Type} (m : M A) : Prop :=
  forall s s',
    params_of (session s) = params_of (session s') ->
    (m s).1 = (m s').1
    /\ params_of (session (m s).2) = params_of (session s)
    /\ trace (m s).2 = trace s.

(** what every vocabulary satisfies, reserved words in the corpus or not:
    decoding an id gives back the word it encodes, the words with an id
    are the two reserved words and the tokens, and [id2word] lists the
    reserved words first, then each distinct token once *)
Definition vocabulary_sound (tokens : list string)
    (word2id : gmap string nat) (id2word : list string) : Prop :=
  (forall w k, word2id !! w = Some k -> id2word !! k = Some w)
  /\ (forall w, is_Some (word2id !! w) <-> w = PAD \/ w = UNK \/ w ∈ tokens)
  /\ id2word !! PAD_ID = Some PAD
  /\ id2word !! UNK_ID = Some UNK
  /\ length id2word = (2 + length (remove_dups tokens))%nat.

(** every target sequence joins to the same string as some command of its
    level *)
Definition targets_joined_known (lvl_dict : per_level lvl_entry) : Prop :=
  forall lvl nl ml,
    (nl, ml) ∈ lvl_pc (pl_get lvl_dict lvl) ->
    join_tokens ml ∈ join_tokens <$> lvl_commands (pl_get lvl_dict lvl).

(** the cell [y] of a label array holds the position of a command that
    joins to the same string as the target [ml] *)
Definition label_of (commands : command_set) (ml : list string) (y : Z) : Prop :=
  exists i c, y = int32 (Z.of_nat i)
              /\ commands !! i = Some c
              /\ join_tokens c = join_tokens ml.

(** the rows [xs] and the labels [ys] built for the corpus [pc]: one row
    and one label per entry, every row of the shape [P] *)
Definition parallel_arrays (commands : command_set) (pc : corpus)
    (P : list Z -> Prop) (xs : list (list Z)) (ys : list Z) : Prop :=
  length xs = length pc
  /\ length ys = length pc
  /\ Forall P xs
  /\ forall j nl ml, pc !! j = Some (nl, ml) ->
       exists y, ys !! j = Some y /\ label_of commands ml y.

(** the [i]-th window of [bsz] consecutive rows of [l] *)
Definition window {A : Type} (bsz : Z) (i : nat) (l : list A) : list A :=
  take (Z.to_nat bsz) (drop (i * Z.to_nat bsz) l).

(** the feed of a training step on the [i]-th window: the rows, their
    lengths where the model has them, the labels, and a level target that
    holds [lvl_y] in each of its [bsz] cells *)
Definition batch_feed (bsz : Z) (i : nat) (x : list (list Z))
    (x_len : option (list Z)) (y : list Z) (lvl_y : option Z) : feed :=
  Feed (window bsz i x) (window bsz i <$> x_len) (1 # 2) (Some (window bsz i y))
       ((fun c => replicate (Z.to_nat bsz) c) <$> lvl_y).

(** an optimizer step of [NNDual.fit]: the step of a level, on a window
    of that level that ends before the last row *)
Definition NN_step {Loss : Type} (m : NNDual) (ev : event Loss) : Prop :=
  match ev with
  | EvTrain op fd =>
      exists (lvl : level) (i : nat),
        op = train_op_of lvl
        /\ (Z.of_nat i + 1) * nn_bsz m < py_len (pl_get (nn_train_x m) lvl)
        /\ fd = batch_feed (nn_bsz m) i (pl_get (nn_train_x m) lvl) None
                           (pl_get (nn_train_y m) lvl) (Some (level_index lvl))
  | _ => True
  end.

Definition RNN_step {Loss : Type} (m : RNNDual) (ev : event Loss) : Prop :=
  match ev with
  | EvTrain op fd =>
      exists (lvl : level) (i : nat),
        op = train_op_of lvl
        /\ (Z.of_nat i + 1) * rnn_bsz m < py_len (pl_get (rnn_train_x m) lvl)
        /\ fd = batch_feed (rnn_bsz m) i (pl_get (rnn_train_x m) lvl)
                           (Some (pl_get (rnn_lengths m) lvl))
                           (pl_get (rnn_train_y m) lvl) (Some (level_index lvl))
  | _ => True
  end.

Definition RC_step {Loss : Type} (m : RNNClassifier) (ev : event Loss) : Prop :=
  match ev with
  | EvTrain op fd =>
      exists i : nat,
        op = rc_train_op
        /\ (Z.of_nat i + 1) * rc_bsz m < py_len (rc_train_x m)
        /\ fd = batch_feed (rc_bsz m) i (rc_train_x m) (Some (rc_lengths m))
                           (rc_train_y m) None
  | _ => True
  end.

(** the three summands of the last accumulation of a trace, or [prev]
    when the trace holds none *)
Fixpoint last_accum {Loss : Type} (prev : per_level Loss) (evs : list (event Loss))
  : per_level Loss :=
  match evs with
  | [] => prev
  | EvAccum _ _ _ l0_loss l1_loss l2_loss :: evs' =>
      last_accum (PerLevel l0_loss l1_loss l2_loss) evs'
  | _ :: evs' => last_accum prev evs'
  end.

(** in every accumulation of the trace, a level whose example count
    [len] is not above the end index of the position adds what it added
    in the accumulation before ([prev] for the first one) *)
Fixpoint carries {Loss : Type} (len : level -> Z) (prev : per_level Loss)
    (evs : list (event Loss)) : Prop :=
  match evs with
  | [] => True
  | EvAccum _ _ stop l0_loss l1_loss l2_loss :: evs' =>
      (forall k, len k <= stop ->
         pl_get (PerLevel l0_loss l1_loss l2_loss) k = pl_get prev k)
      /\ carries len (PerLevel l0_loss l1_loss l2_loss) evs'
  | _ :: evs' => carries len prev evs'
  end.

(** the event is no accumulation *)
Definition not_accum {Loss : Type} (ev : event Loss) : Prop :=
  match ev with
  | EvAccum _ _ _ _ _ _ => False
  | _ => True
  end.

(** [tracked len prev R m]: the events [m] appends satisfy [carries]
    from [prev] on, and a value it returns is related by [R] to the
    summands of the last accumulation *)
Definition tracked `{E : Engine} {A : Type} (len : level -> Z)
    (prev : per_level Loss) (R : A -> per_level Loss -> Prop) (m : M A) : Prop :=
  forall s, exists evs,
    trace (m s).2 = trace s ++ evs
    /\ carries len prev evs
    /\ forall a, (m s).1 = Ok a -> R a (last_accum prev evs).

(** the number of tokens of [nl] that [score] counts as unknown: the
    reserved word [UNK] itself and every word without an id *)
Definition unknown_words (word2id : gmap string nat) (nl : list string) : nat :=
  length (filter (fun w => w = UNK \/ word2id !! w = None) nl).

(** the input row of [score] in sequence mode, of width [width] and over
    cells that convert with [cast]: the ids of the first tokens of [nl],
    [UNK_ID] for a word without an id, then [PAD_ID] *)
Definition score_row (cast : Z -> Z) (word2id : gmap string nat) (width : Z)
    (nl : list string) (seq : list Z) : Prop :=
  py_len seq = width
  /\ (forall i w, Z.of_nat i < width -> nl !! i = Some w ->
        seq !! i = Some (cast (Z.of_nat (default UNK_ID (word2id !! w)))))
  /\ (forall i, py_len nl <= Z.of_nat i < width ->
        seq !! i = Some (Z.of_nat PAD_ID)).

(** [curr_loss += l0_loss + l1_loss + l2_loss], read off an accumulation
    event *)
Definition add_accum `{E : Engine} (curr_loss : Loss) (ev : event Loss) : Loss :=
  match ev with
  | EvAccum _ _ _ l0_loss l1_loss l2_loss =>
      loss_add curr_loss (loss_add (loss_add l0_loss l1_loss) l2_loss)
  | _ => curr_loss
  end.

(** the running loss after the accumulations of a trace, from [curr_loss] *)
Definition epoch_total `{E : Engine} (curr_loss : Loss) (evs : list (event Loss))
  : Loss :=
  foldl add_accum curr_loss evs.

Definition is_accum {Loss : Type} (ev : event Loss) : bool :=
  match ev with
  | EvAccum _ _ _ _ _ _ => true
  | _ => false
  end.

(** the number of accumulations of a trace: the positions visited *)
Definition accum_count {Loss : Type} (evs : list (event Loss)) : Z :=
  Z.of_nat (length (filter (fun ev => is_accum ev = true) evs)).

(** the event is no printed text *)
Definition not_print {Loss : Type} (ev : event Loss) : Prop :=
  match ev with
  | EvPrintEpoch _ | EvPrintLoss _ => False
  | _ => True
  end.

(** the trace of [n] completed epochs, numbered from [e]: each epoch
    visits at least one position, prints nothing while it visits them,
    and ends with its number and the running loss divided by the number
    of positions visited *)
Fixpoint epoch_log `{E : Engine} (e : Z) (n : nat) (evs : list (event Loss))
  : Prop :=
  match n with
  | O => evs = []
  | S n' =>
      exists body rest,
        evs = body
              ++ [EvPrintEpoch e;
                  EvPrintLoss (loss_div (epoch_total loss_zero body)
                                        (accum_count body))]
              ++ rest
        /\ Forall not_print body
        /\ accum_count body <> 0
        /\ epoch_log (e + 1) n' rest
  end.

(** [logged c b R m]: [m] prints nothing, and a value it returns is
    related by [R] to the running loss and the number of positions after
    the events it appends, counted from [c] and [b] *)
Definition logged `{E : Engine} {A : Type} (c : Loss) (b : Z)
    (R : A -> Loss -> Z -> Prop) (m : M A) : Prop :=
  forall s, exists evs,
    trace (m s).2 = trace s ++ evs
    /\ Forall not_print evs
    /\ forall a, (m s).1 = Ok a -> R a (epoch_total c evs) (b + accum_count evs).

(** * Properties *)

(** ** The [result] monad and the primitives *)

Lemma foldM_app {A B : Type} (f : A -> B -> result A) (acc : A) (l1 l2 : list B) :
  foldM f acc (l1 ++ l2) = (acc' ← foldM f acc l1; foldM f acc' l2).
Proof.
  revert acc. induction l1 as [|x l1 IH]; intros acc; simpl; [done|].
  destruct (f acc x) as [acc'|e]; simpl; [apply IH | done].
Qed.

Lemma int32_small (z : Z) : - 2 ^ 31 <= z < 2 ^ 31 -> int32 z = z.
Proof. intros H. unfold int32. rewrite Z.mod_small; lia. Qed.

Lemma pl_get_set_eq {A : Type} (d : per_level A) (l : level) (a : A) :
  pl_get (pl_set d l a) l = a.
Proof. by destruct l. Qed.

Lemma pl_get_set_ne {A : Type} (d : per_level A) (l l' : level) (a : A) :
  l' <> l -> pl_get (pl_set d l a) l' = pl_get d l'.
Proof. by destruct l, l'. Qed.

(** ** Dictionaries built by comprehension *)

Lemma py_dict_snoc (l : list (string * nat)) (k : string) (v : nat) :
  py_dict (l ++ [(k, v)]) = <[k := v]> (py_dict l).
Proof. unfold py_dict. by rewrite foldl_app. Qed.

Lemma py_dict_list_to_map (l : list (string * nat)) :
  py_dict l = list_to_map (reverse l).
Proof.
  induction l as [|[k v] l IH] using rev_ind; [done|].
  by rewrite py_dict_snoc, reverse_snoc, list_to_map_cons, IH.
Qed.

Lemma py_dict_lookup_NoDup (l : list (string * nat)) (k : string) (v : nat) :
  NoDup l.*1 -> py_dict l !! k = Some v <-> (k, v) ∈ l.
Proof.
  intros Hnd. rewrite py_dict_list_to_map, <- elem_of_list_to_map.
  - apply elem_of_reverse.
  - by rewrite fmap_reverse, reverse_Permutation.
Qed.

Lemma py_dict_dom (l : list (string * nat)) :
  dom (py_dict l) = list_to_set l.*1.
Proof.
  rewrite py_dict_list_to_map, dom_list_to_map_L, fmap_reverse.
  apply set_eq. intros k. rewrite !elem_of_list_to_set. apply elem_of_reverse.
Qed.

Lemma py_dict_is_Some (l : list (string * nat)) (k : string) :
  is_Some (py_dict l !! k) <-> k ∈ l.*1.
Proof. by rewrite <- elem_of_dom, py_dict_dom, elem_of_list_to_set. Qed.

Lemma py_dict_size (l : list (string * nat)) :
  size (py_dict l) = length (remove_dups l.*1).
Proof.
  rewrite <- size_dom, py_dict_dom.
  rewrite <- (size_list_to_set (C := gset string) (remove_dups l.*1))
    by apply NoDup_remove_dups.
  f_equal. apply set_eq. intros k.
  by rewrite !elem_of_list_to_set, elem_of_remove_dups.
Qed.

Lemma enumerate_keys {A : Type} (f : A -> string) (l : list A) :
  (imap (fun i x => (f x, i)) l).*1 = f <$> l.
Proof.
  apply list_eq. intros i.
  rewrite !list_lookup_fmap, list_lookup_imap. by destruct (l !! i).
Qed.

Lemma enumerate_elem_of {A : Type} (f : A -> string) (l : list A) (k : string) (i : nat) :
  (k, i) ∈ imap (fun i x => (f x, i)) l <-> exists x, l !! i = Some x /\ k = f x.
Proof.
  rewrite elem_of_lookup_imap. split.
  - intros (j & x & [= -> ->] & Hx). eauto.
  - intros (x & Hx & ->). eauto.
Qed.

(** ** The vocabulary *)

Lemma add_words_elem_of (vocab : gset string) (n : list string) (w : string) :
  w ∈ add_words vocab n <-> w ∈ vocab \/ w ∈ n.
Proof.
  unfold add_words. revert vocab.
  induction n as [|x n IH]; intros vocab; simpl.
  - set_solver.
  - rewrite IH. set_solver.
Qed.

Lemma add_corpus_elem_of (vocab : gset string) (pc : corpus) (w : string) :
  w ∈ foldl (fun vocab entry => add_words vocab entry.1) vocab pc
  <-> w ∈ vocab \/ w ∈ source_tokens pc.
Proof.
  unfold source_tokens. revert vocab.
  induction pc as [|[nl ml] pc IH]; intros vocab; simpl.
  - set_solver.
  - rewrite IH, add_words_elem_of, elem_of_app. tauto.
Qed.

Lemma size_token_set (vocab : gset string) (tokens : list string) :
  (forall w, w ∈ vocab <-> w ∈ tokens) ->
  size vocab = length (remove_dups tokens).
Proof.
  intros Hv.
  rewrite <- (size_list_to_set (C := gset string) (remove_dups tokens))
    by apply NoDup_remove_dups.
  f_equal. apply set_eq. intros w.
  by rewrite Hv, elem_of_list_to_set, elem_of_remove_dups.
Qed.

Lemma word_index_keys (id2word : list string) :
  (imap (fun i w => (w, i)) id2word).*1 = id2word.
Proof.
  apply list_eq. intros i.
  rewrite list_lookup_fmap, list_lookup_imap. by destruct (id2word !! i).
Qed.

Lemma word_index_lookup (id2word : list string) (w : string) (i : nat) :
  NoDup id2word ->
  py_dict (imap (fun i w => (w, i)) id2word) !! w = Some i <-> id2word !! i = Some w.
Proof.
  intros Hnd. rewrite py_dict_lookup_NoDup by by rewrite word_index_keys.
  rewrite elem_of_lookup_imap. split.
  - by intros (j & x & [= -> ->] & Hx).
  - intros Hx. eauto.
Qed.

Lemma word_index_size (id2word : list string) :
  NoDup id2word ->
  size (py_dict (imap (fun i w => (w, i)) id2word)) = length id2word.
Proof.
  intros Hnd.
  by rewrite <- size_dom, py_dict_dom, word_index_keys, size_list_to_set.
Qed.

Section VocabularyFacts.

Variable set_list : gset string -> list string.
Variable lvl_order : list level.
Hypothesis set_list_perm : forall s, set_list s ≡ₚ elements s.
Hypothesis lvl_order_perm : lvl_order ≡ₚ [L0; L1; L2].

Lemma elem_of_lvl_order (lvl : level) : lvl ∈ lvl_order.
Proof using lvl_order_perm.
  rewrite lvl_order_perm. destruct lvl; rewrite !elem_of_cons; auto.
Qed.

Lemma elem_of_set_list (s : gset string) (w : string) : w ∈ set_list s <-> w ∈ s.
Proof using set_list_perm. by rewrite set_list_perm, elem_of_elements. Qed.

Lemma NoDup_set_list (s : gset string) : NoDup (set_list s).
Proof using set_list_perm. rewrite set_list_perm. apply NoDup_elements. Qed.

Lemma length_set_list (s : gset string) : length (set_list s) = size s.
Proof using set_list_perm. by rewrite set_list_perm. Qed.

Lemma all_source_tokens_elem_of (lvl_dict : per_level lvl_entry) (w : string) :
  w ∈ all_source_tokens lvl_dict
  <-> exists lvl, w ∈ source_tokens (lvl_pc (pl_get lvl_dict lvl)).
Proof using Type.
  unfold all_source_tokens. rewrite !elem_of_app. split.
  - intros [H|[H|H]]; [by exists L0 | by exists L1 | by exists L2].
  - intros [[] H]; simpl in H; tauto.
Qed.

Lemma collect_levels_elem_of (lvl_dict : per_level lvl_entry)
    (vocab : gset string) (order : list level) (w : string) :
  w ∈ foldl (fun vocab lvl =>
               foldl (fun vocab entry => add_words vocab entry.1)
                     vocab (lvl_pc (pl_get lvl_dict lvl)))
            vocab order
  <-> w ∈ vocab
      \/ exists lvl, lvl ∈ order /\ w ∈ source_tokens (lvl_pc (pl_get lvl_dict lvl)).
Proof using Type.
  revert vocab. induction order as [|lvl order IH]; intros vocab; simpl.
  - split; [tauto|]. intros [H|(lvl & Hl & _)]; [done|]. by apply elem_of_nil in Hl.
  - rewrite IH, add_corpus_elem_of. split.
    + intros [[H|H]|(l & Hl & H)]; [tauto| |].
      * right. exists lvl. split; [left|done].
      * right. exists l. split; [by right|done].
    + intros [H|(l & Hl & H)]; [tauto|].
      apply elem_of_cons in Hl as [->|Hl]; [tauto|]. right. eauto.
Qed.

Lemma NN_collect_vocab_elem_of (lvl_dict : per_level lvl_entry) (w : string) :
  w ∈ NN_collect_vocab lvl_order lvl_dict <-> w ∈ all_source_tokens lvl_dict.
Proof using lvl_order_perm.
  unfold NN_collect_vocab.
  rewrite collect_levels_elem_of, all_source_tokens_elem_of. split.
  - intros [H|(lvl & _ & H)]; [by apply not_elem_of_empty in H | eauto].
  - intros [lvl H]. right. exists lvl. split; [apply elem_of_lvl_order | done].
Qed.

(** the numbering of a set of tokens that holds neither reserved word *)
Lemma number_vocabulary_ok (vocab : gset string) (tokens : list string) :
  (forall w, w ∈ vocab <-> w ∈ tokens) ->
  PAD ∉ tokens -> UNK ∉ tokens ->
  vocabulary_ok tokens (number_vocabulary set_list vocab).1
                       (number_vocabulary set_list vocab).2.
Proof using set_list_perm.
  intros Hv Hpad Hunk. unfold number_vocabulary, vocabulary_ok. cbn [fst snd].
  assert (Hnd : NoDup ([PAD; UNK] ++ set_list vocab)).
  { simpl. apply NoDup_cons. split.
    - rewrite elem_of_cons, elem_of_set_list, Hv. intros [?|?]; [discriminate | done].
    - apply NoDup_cons. split; [by rewrite elem_of_set_list, Hv | apply NoDup_set_list]. }
  split; [|split; [|split; [|split; [|split]]]].
  - rewrite word_index_size by done. simpl.
    by rewrite length_set_list, (size_token_set vocab tokens).
  - by rewrite word_index_size.
  - by apply word_index_lookup.
  - by apply word_index_lookup.
  - intros w Hw. apply py_dict_is_Some. rewrite word_index_keys.
    do 2 right. by rewrite elem_of_set_list, Hv.
  - intros w i. by apply word_index_lookup.
Qed.

End VocabularyFacts.

Lemma RNN_scan_entries_vocab (lvl : level) (pc : corpus)
    (st : gset string * Z * per_level (list Z)) :
  (foldl (fun '(vocab, max_length, lengths) entry =>
            let n := entry.1 in
            let max_length :=
              if max_length <? py_len n then py_len n else max_length in
            let lengths :=
              pl_set lengths lvl (pl_get lengths lvl ++ [py_len n]) in
            (add_words vocab n, max_length, lengths)) st pc).1.1
  = foldl (fun vocab entry => add_words vocab entry.1) st.1.1 pc.
Proof.
  revert st. induction pc as [|entry pc IH]; intros [[vocab mx] lens]; [done|].
  simpl. by rewrite IH.
Qed.

Lemma RNN_scan_corpora_vocab (lvl_order : list level) (lvl_dict : per_level lvl_entry) :
  (RNN_scan_corpora lvl_order lvl_dict).1.1 = NN_collect_vocab lvl_order lvl_dict.
Proof.
  unfold RNN_scan_corpora, NN_collect_vocab.
  generalize (PerLevel (@nil Z) [] []). generalize 0. generalize (∅ : gset string).
  induction lvl_order as [|lvl order IH]; intros vocab mx lens; [done|].
  simpl.
  match goal with
  | |- (foldl ?F (foldl ?G ?st ?pc) order).1.1 = _ =>
      destruct (foldl G st pc) as [[vocab' mx'] lens'] eqn:E
  end.
  rewrite IH. f_equal.
  pose proof (RNN_scan_entries_vocab lvl (lvl_pc (pl_get lvl_dict lvl))
                (vocab, mx, lens)) as H.
  simpl in H. rewrite E in H. by simpl in H.
Qed.

(** both dual models number a token set without reserved words as the
    specification asks *)
Lemma dual_vocabulary_ok
    (set_list : gset string -> list string) (lvl_order : list level)
    (lvl_dict : per_level lvl_entry) :
  (forall s, set_list s ≡ₚ elements s) ->
  lvl_order ≡ₚ [L0; L1; L2] ->
  PAD ∉ all_source_tokens lvl_dict ->
  UNK ∉ all_source_tokens lvl_dict ->
  vocabulary_ok (all_source_tokens lvl_dict)
    (NN_build_vocabulary set_list lvl_order lvl_dict).1
    (NN_build_vocabulary set_list lvl_order lvl_dict).2
  /\ vocabulary_ok (all_source_tokens lvl_dict)
       (RNN_build_vocabulary set_list lvl_order lvl_dict).1.1.1
       (RNN_build_vocabulary set_list lvl_order lvl_dict).1.1.2.
Proof.
  intros Hset Hord Hpad Hunk.
  assert (Hnn : vocabulary_ok (all_source_tokens lvl_dict)
    (NN_build_vocabulary set_list lvl_order lvl_dict).1
    (NN_build_vocabulary set_list lvl_order lvl_dict).2).
  { unfold NN_build_vocabulary. apply number_vocabulary_ok; try done.
    intros w. by apply NN_collect_vocab_elem_of. }
  split; [done|].
  unfold RNN_build_vocabulary.
  pose proof (RNN_scan_corpora_vocab lvl_order lvl_dict) as Hv.
  destruct (RNN_scan_corpora lvl_order lvl_dict) as [[vocab mx] lens].
  simpl in Hv. subst vocab. unfold NN_build_vocabulary in Hnn.
  by destruct (number_vocabulary set_list (NN_collect_vocab lvl_order lvl_dict)).
Qed.

(** C3, as amended: when no source sequence of the three corpora holds a
    reserved word ([<<PAD>>] or [<<UNK>>]), the vocabulary built by
    [NNDual] and by [RNNDual] has exactly 2 plus the number of distinct
    source tokens entries, maps [PAD] to 0 and [UNK] to 1, and [word2id]
    and [id2word] are inverse to each other.  This holds for every
    enumeration order of the token set and of the level dictionary. *)
Theorem build_vocabulary_bijection
    (set_list : gset string -> list string) (lvl_order : list level)
    (lvl_dict : per_level lvl_entry) :
  (forall s, set_list s ≡ₚ elements s) ->
  lvl_order ≡ₚ [L0; L1; L2] ->
  PAD ∉ all_source_tokens lvl_dict ->
  UNK ∉ all_source_tokens lvl_dict ->
  vocabulary_ok (all_source_tokens lvl_dict)
    (NN_build_vocabulary set_list lvl_order lvl_dict).1
    (NN_build_vocabulary set_list lvl_order lvl_dict).2
  /\ vocabulary_ok (all_source_tokens lvl_dict)
       (RNN_build_vocabulary set_list lvl_order lvl_dict).1.1.1
       (RNN_build_vocabulary set_list lvl_order lvl_dict).1.1.2.
Proof. apply dual_vocabulary_ok. Qed.

(** ** The vectorizers *)

(** [vectorize_level] collects the results of its body, entry by entry *)
Lemma vectorize_level_acc
    (body : list string * list string -> result (list Z * nat))
    (pc : corpus) (xl0 : list (list Z)) (yl0 : list nat) :
  (forall entry, entry ∈ pc -> exists r, body entry = Ok r) ->
  exists rs : list (list Z * nat),
    foldM (fun '(xl, yl) entry =>
             '(nvec, mlab) ← body entry;
             Ok (xl ++ [nvec], yl ++ [mlab]))
          (xl0, yl0) pc = Ok (xl0 ++ rs.*1, yl0 ++ rs.*2)
    /\ Forall2 (fun entry r => body entry = Ok r) pc rs.
Proof.
  revert xl0 yl0. induction pc as [|entry pc IH]; intros xl0 yl0 Hok.
  - exists []. simpl. by rewrite !app_nil_r.
  - destruct (Hok entry) as [[nvec mlab] Hr]; [left|].
    destruct (IH (xl0 ++ [nvec]) (yl0 ++ [mlab])) as (rs & Hrs & Hall).
    { intros e He. apply Hok. by right. }
    exists ((nvec, mlab) :: rs). split; [|by constructor].
    simpl. rewrite Hr. simpl. rewrite Hrs. by rewrite <- !app_assoc.
Qed.

Lemma vectorize_level_Ok
    (body : list string * list string -> result (list Z * nat)) (pc : corpus) :
  (forall entry, entry ∈ pc -> exists r, body entry = Ok r) ->
  exists rs : list (list Z * nat),
    vectorize_level body pc = Ok (rs.*1, rs.*2)
    /\ Forall2 (fun entry r => body entry = Ok r) pc rs.
Proof. intros Hok. by apply (vectorize_level_acc body pc [] []). Qed.

Lemma vectorize_levels_acc
    (body : level -> list string * list string -> result (list Z * nat))
    (lvl_dict : per_level lvl_entry) (order : list level)
    (r : level -> list (list Z) * list nat)
    (x0 : per_level (list (list Z))) (y0 : per_level (list nat)) :
  (forall lvl, vectorize_level (body lvl) (lvl_pc (pl_get lvl_dict lvl)) = Ok (r lvl)) ->
  exists x y,
    foldM (fun '(x, y) lvl =>
             '(xl, yl) ← vectorize_level (body lvl) (lvl_pc (pl_get lvl_dict lvl));
             Ok (pl_set x lvl xl, pl_set y lvl yl))
          (x0, y0) order = Ok (x, y)
    /\ forall lvl,
         (lvl ∈ order -> pl_get x lvl = (r lvl).1 /\ pl_get y lvl = (r lvl).2)
         /\ (lvl ∉ order -> pl_get x lvl = pl_get x0 lvl /\ pl_get y lvl = pl_get y0 lvl).
Proof.
  intros Hr. revert x0 y0.
  induction order as [|l order IH]; intros x0 y0.
  - exists x0, y0. split; [done|]. intros lvl. split; [|done].
    intros H. by apply elem_of_nil in H.
  - destruct (r l) as [xl yl] eqn:El.
    destruct (IH (pl_set x0 l xl) (pl_set y0 l yl)) as (x & y & Hf & Hxy).
    exists x, y. split.
    { simpl. rewrite Hr, El. simpl. exact Hf. }
    intros lvl. destruct (Hxy lvl) as [Hin Hout]. split.
    + intros Hl. destruct (decide (lvl ∈ order)) as [Ho|Ho]; [by apply Hin|].
      apply elem_of_cons in Hl as [->|Hl]; [|done].
      destruct (Hout Ho) as [-> ->]. rewrite El. by destruct l.
    + intros Hl. apply not_elem_of_cons in Hl as [Hne Ho].
      destruct (Hout Ho) as [-> ->]. by destruct lvl, l.
Qed.

Lemma vectorize_levels_Ok
    (body : level -> list string * list string -> result (list Z * nat))
    (lvl_dict : per_level lvl_entry) (lvl_order : list level) :
  lvl_order ≡ₚ [L0; L1; L2] ->
  (forall lvl entry, entry ∈ lvl_pc (pl_get lvl_dict lvl) ->
                     exists r, body lvl entry = Ok r) ->
  exists x y,
    vectorize_levels lvl_order body lvl_dict = Ok (x, y)
    /\ forall lvl, exists rs : list (list Z * nat),
         pl_get x lvl = rs.*1
         /\ pl_get y lvl = np_int32_array rs.*2
         /\ Forall2 (fun entry r => body lvl entry = Ok r)
                    (lvl_pc (pl_get lvl_dict lvl)) rs.
Proof.
  intros Hord Hok.
  assert (Hlv : forall lvl, exists rs : list (list Z * nat),
             vectorize_level (body lvl) (lvl_pc (pl_get lvl_dict lvl)) = Ok (rs.*1, rs.*2)
             /\ Forall2 (fun entry r => body lvl entry = Ok r)
                        (lvl_pc (pl_get lvl_dict lvl)) rs).
  { intros lvl. apply vectorize_level_Ok. apply Hok. }
  destruct (Hlv L0) as (rs0 & H0 & F0), (Hlv L1) as (rs1 & H1 & F1),
           (Hlv L2) as (rs2 & H2 & F2).
  set (rs := fun lvl => match lvl with L0 => rs0 | L1 => rs1 | L2 => rs2 end).
  destruct (vectorize_levels_acc body lvl_dict lvl_order
              (fun lvl => ((rs lvl).*1, (rs lvl).*2))
              (PerLevel [] [] []) (PerLevel [] [] [])) as (x & y & Hf & Hxy).
  { by intros []. }
  exists x, (PerLevel (np_int32_array (at_L0 y)) (np_int32_array (at_L1 y))
                      (np_int32_array (at_L2 y))).
  split.
  { unfold vectorize_levels. rewrite Hf. done. }
  intros lvl. exists (rs lvl).
  destruct (Hxy lvl) as [Hin _]. destruct Hin as [Hx Hy].
  { rewrite Hord. destruct lvl; rewrite !elem_of_cons; auto. }
  split; [done|]. split; [|by destruct lvl].
  simpl in Hy. destruct lvl; simpl in *; by rewrite Hy.
Qed.

Lemma np_zeros_of_nat (n : nat) : np_zeros (Z.of_nat n) = Ok (replicate n 0).
Proof.
  unfold np_zeros. destruct (Z.ltb_spec (Z.of_nat n) 0); [lia|].
  by rewrite Nat2Z.id.
Qed.

Lemma make_labels_is_Some (commands : command_set) (ml : list string) :
  ml ∈ commands -> exists i, make_labels commands !! join_tokens ml = Some i.
Proof.
  intros Hml. apply py_dict_is_Some. rewrite enumerate_keys.
  by apply list_elem_of_fmap_2.
Qed.

Lemma np_incr_Some (v : list Z) (i : nat) (c : Z) :
  v !! i = Some c -> np_incr v i = Ok (<[i := int32 (c + 1)]> v).
Proof. intros H. unfold np_incr. by rewrite H. Qed.

(** the histogram loop, for any way [idx] of choosing the slot of a word *)
Lemma histogram_loop (idx : string -> nat) (nl : list string) (nvec : list Z) :
  (forall w, w ∈ nl -> (idx w < length nvec)%nat) ->
  (forall i c, nvec !! i = Some c -> 0 <= c /\ c + Z.of_nat (length nl) < 2 ^ 31) ->
  exists v,
    foldM (fun nvec w => np_incr nvec (idx w)) nvec nl = Ok v
    /\ length v = length nvec
    /\ forall i c, nvec !! i = Some c ->
         v !! i = Some (c + Z.of_nat (length (filter (fun w => idx w = i) nl))).
Proof.
  revert nvec. induction nl as [|w nl IH]; intros nvec Hidx Hrange.
  - exists nvec. split; [done|]. split; [done|].
    intros i c Hc. simpl. by rewrite Z.add_0_r.
  - destruct (lookup_lt_is_Some_2 nvec (idx w)) as [c0 Hc0].
    { apply Hidx. left. }
    destruct (Hrange _ _ Hc0) as [Hlo Hhi]. simpl length in Hhi.
    destruct (IH (<[idx w := c0 + 1]> nvec)) as (v & Hv & Hlen & Hcells).
    + intros w' Hw'. rewrite length_insert. apply Hidx. by right.
    + intros i c Hc. destruct (decide (i = idx w)) as [->|Hne].
      * rewrite list_lookup_insert_eq in Hc by by eapply lookup_lt_Some.
        injection Hc as <-. lia.
      * rewrite list_lookup_insert_ne in Hc by done.
        destruct (Hrange _ _ Hc). simpl length in *. lia.
    + exists v. split; [|split].
      * cbn [foldM]. rewrite (np_incr_Some nvec (idx w) c0) by done.
        rewrite int32_small by lia. exact Hv.
      * by rewrite Hlen, length_insert.
      * intros i c Hc. destruct (decide (idx w = i)) as [<-|Hne].
        -- rewrite filter_cons_True by done. simpl length.
           rewrite (Hcells (idx w) (c0 + 1)).
           ++ rewrite Hc0 in Hc. injection Hc as <-. f_equal. lia.
           ++ apply list_lookup_insert_eq. by eapply lookup_lt_Some.
        -- rewrite filter_cons_False by done. apply Hcells.
           by rewrite list_lookup_insert_ne.
Qed.

Lemma filter_length_ext {A : Type} (P Q : A -> Prop)
    `{!forall x, Decision (P x)} `{!forall x, Decision (Q x)} (l : list A) :
  (forall x, x ∈ l -> P x <-> Q x) ->
  length (filter P l) = length (filter Q l).
Proof.
  induction l as [|x l IH]; intros Hext; [done|].
  assert (Hx : P x <-> Q x) by (apply Hext; left).
  assert (Hl : length (filter P l) = length (filter Q l)).
  { apply IH. intros y Hy. apply Hext. by right. }
  destruct (decide (P x)) as [HP|HP].
  - rewrite !filter_cons_True by tauto. simpl. by rewrite Hl.
  - rewrite !filter_cons_False by tauto. done.
Qed.

(** one corpus entry in bag-of-words mode, over a vocabulary that is a
    bijection and knows every token of the entry *)
Lemma NN_vectorize_entry_counts (word2id labels : gmap string nat)
    (id2word : list string) (nl ml : list string) :
  length id2word = size word2id ->
  (forall w i, word2id !! w = Some i <-> id2word !! i = Some w) ->
  (forall w, w ∈ nl -> is_Some (word2id !! w)) ->
  is_Some (labels !! join_tokens ml) ->
  Z.of_nat (length nl) < 2 ^ 31 ->
  exists v lab,
    NN_vectorize_entry word2id labels (nl, ml) = Ok (v, lab)
    /\ length v = size word2id
    /\ forall i w, id2word !! i = Some w ->
         v !! i = Some (Z.of_nat (occurrences w nl)).
Proof.
  intros Hlen Hbij Hknown [lab Hlab] Hshort.
  destruct (histogram_loop (fun w => py_get word2id w UNK_ID) nl
              (replicate (size word2id) 0)) as (v & Hv & Hvlen & Hcells).
  - intros w Hw. rewrite length_replicate, <- Hlen.
    destruct (Hknown w Hw) as [i Hi]. unfold py_get. rewrite Hi.
    apply (lookup_lt_Some id2word i w). by apply Hbij.
  - intros i c Hc. apply lookup_replicate in Hc as [-> _]. lia.
  - exists v, lab. split; [|split].
    + unfold NN_vectorize_entry. rewrite np_zeros_of_nat. simpl.
      unfold py_getitem. rewrite Hlab. simpl. by rewrite Hv.
    + by rewrite Hvlen, length_replicate.
    + intros i w Hw. rewrite (Hcells i 0).
      * rewrite Z.add_0_l. do 2 f_equal. unfold occurrences.
        apply filter_length_ext. intros x Hx.
        destruct (Hknown x Hx) as [k Hk]. unfold py_get. rewrite Hk. split.
        -- intros ->. apply Hbij in Hk. congruence.
        -- intros ->. apply Hbij in Hw. congruence.
      * apply lookup_replicate_2. rewrite <- Hlen. by eapply lookup_lt_Some.
Qed.

Lemma make_lvl_dict_labels (l0_pc l1_pc l2_pc : corpus)
    (l0_commands l1_commands l2_commands : command_set) (lvl : level) :
  let e := pl_get (make_lvl_dict l0_pc l1_pc l2_pc
                     l0_commands l1_commands l2_commands) lvl in
  lvl_labels e = make_labels (lvl_commands e).
Proof. by destruct lvl. Qed.

Lemma elem_of_source_tokens (pc : corpus) (nl ml : list string) (w : string) :
  (nl, ml) ∈ pc -> w ∈ nl -> w ∈ source_tokens pc.
Proof.
  intros Hentry Hw. unfold source_tokens. apply list_elem_of_join.
  exists nl. split; [done|]. by apply (list_elem_of_fmap_2 fst) in Hentry.
Qed.

Lemma elem_of_all_source_tokens (lvl_dict : per_level lvl_entry) (lvl : level)
    (nl ml : list string) (w : string) :
  (nl, ml) ∈ lvl_pc (pl_get lvl_dict lvl) -> w ∈ nl ->
  w ∈ all_source_tokens lvl_dict.
Proof.
  intros Hentry Hw. apply all_source_tokens_elem_of. exists lvl.
  by eapply elem_of_source_tokens.
Qed.

(** C2, as amended: in the bag-of-words variant, when no source sequence
    holds a reserved word, every target sequence is a command of its
    level and every source sequence has fewer than 2^31 tokens,
    construction succeeds, and for every corpus entry the vectorized input
    has length equal to the vocabulary size and holds, at each vocabulary
    id, the number of occurrences of that id's token in the source
    sequence. *)
Theorem NN_vectorize_word_counts
    (set_list : gset string -> list string) (lvl_order : list level)
    (l0_corpus l1_corpus l2_corpus : corpus)
    (l0_commands l1_commands l2_commands : command_set) (epochs batch_size : Z) :
  let lvl_dict := make_lvl_dict l0_corpus l1_corpus l2_corpus
                                l0_commands l1_commands l2_commands in
  (forall s, set_list s ≡ₚ elements s) ->
  lvl_order ≡ₚ [L0; L1; L2] ->
  PAD ∉ all_source_tokens lvl_dict ->
  UNK ∉ all_source_tokens lvl_dict ->
  targets_known lvl_dict ->
  (forall lvl nl ml, (nl, ml) ∈ lvl_pc (pl_get lvl_dict lvl) ->
                     Z.of_nat (length nl) < 2 ^ 31) ->
  exists m,
    NNDual_init set_list lvl_order l0_corpus l1_corpus l2_corpus
                l0_commands l1_commands l2_commands epochs batch_size = Ok m
    /\ forall lvl j nl ml,
         lvl_pc (pl_get lvl_dict lvl) !! j = Some (nl, ml) ->
         exists v,
           pl_get (nn_train_x m) lvl !! j = Some v
           /\ length v = size (nn_word2id m)
           /\ forall i, (i < size (nn_word2id m))%nat ->
                exists w, nn_id2word m !! i = Some w
                          /\ v !! i = Some (Z.of_nat (occurrences w nl)).
Proof.
  intros lvl_dict Hset Hord Hpad Hunk Htargets Hshort.
  destruct (dual_vocabulary_ok set_list lvl_order lvl_dict Hset Hord Hpad Hunk)
    as [(Hsize & Hlen & _ & _ & Hknown & Hbij) _].
  unfold NNDual_init. fold lvl_dict.
  destruct (NN_build_vocabulary set_list lvl_order lvl_dict) as [word2id id2word].
  cbn [fst snd] in *.
  assert (Hentry : forall lvl nl ml, (nl, ml) ∈ lvl_pc (pl_get lvl_dict lvl) ->
            exists v lab,
              NN_vectorize_entry word2id (lvl_labels (pl_get lvl_dict lvl)) (nl, ml)
              = Ok (v, lab)
              /\ length v = size word2id
              /\ forall i w, id2word !! i = Some w ->
                   v !! i = Some (Z.of_nat (occurrences w nl))).
  { intros lvl nl ml Hin.
    apply (NN_vectorize_entry_counts word2id _ id2word); try done.
    - intros w Hw. apply Hknown. by eapply elem_of_all_source_tokens.
    - unfold lvl_dict. rewrite make_lvl_dict_labels.
      destruct (make_labels_is_Some _ ml (Htargets lvl nl ml Hin)) as [i Hi]. eauto.
    - by eapply Hshort. }
  destruct (vectorize_levels_Ok
              (fun lvl => NN_vectorize_entry word2id (lvl_labels (pl_get lvl_dict lvl)))
              lvl_dict lvl_order Hord) as (x & y & Hvec & Hxy).
  { intros lvl [nl ml] Hin. destruct (Hentry lvl nl ml Hin) as (v & lab & Hv & _). eauto. }
  unfold NN_vectorize. rewrite Hvec. simpl. eexists. split; [done|].
  simpl. intros lvl j nl ml Hj.
  destruct (Hxy lvl) as (rs & Hx & _ & Hall).
  destruct (Forall2_lookup_l _ _ _ _ _ Hall Hj) as ([v lab] & Hrs & Hbody).
  destruct (Hentry lvl nl ml) as (v' & lab' & Hv' & Hvlen & Hcells).
  { by eapply list_elem_of_lookup_2. }
  rewrite Hbody in Hv'. injection Hv' as <- <-.
  exists v. split; [|split; [done|]].
  - rewrite Hx, list_lookup_fmap, Hrs. done.
  - intros i Hi. rewrite <- Hlen in Hi.
    destruct (lookup_lt_is_Some_2 id2word i Hi) as [w Hw]. eauto.
Qed.

(** ** Sequence mode *)

Lemma np_set_Some (cast : Z -> Z) (v : list Z) (i : nat) (x : Z) :
  (i < length v)%nat -> np_set cast v i x = Ok (<[i := cast x]> v).
Proof.
  intros H. unfold np_set.
  by destruct (lookup_lt_is_Some_2 v i H) as [c ->].
Qed.

(** the loop that writes the ids of the first [count] tokens *)
Lemma fill_ids_spec (cast : Z -> Z) (word2id : gmap string nat) (nl : list string)
    (count : nat) (nvec : list Z) :
  (count <= length nl)%nat -> (count <= length nvec)%nat ->
  exists v,
    fill_ids cast word2id nvec nl count = Ok v
    /\ length v = length nvec
    /\ (forall i w, (i < count)%nat -> nl !! i = Some w ->
          v !! i = Some (cast (Z.of_nat (py_get word2id w UNK_ID))))
    /\ (forall i, (count <= i)%nat -> v !! i = nvec !! i).
Proof.
  unfold fill_ids. induction count as [|count IH]; intros Hnl Hvec.
  - exists nvec. split; [done|]. split; [done|]. split; [|done].
    intros i w Hi. lia.
  - destruct IH as (v & Hv & Hlen & Hlow & Hhigh); [lia|lia|].
    destruct (lookup_lt_is_Some_2 nl count) as [w Hw]; [lia|].
    exists (<[count := cast (Z.of_nat (py_get word2id w UNK_ID))]> v).
    split; [|split; [|split]].
    + rewrite seq_S, foldM_app, Hv. simpl. unfold py_index. rewrite Hw. simpl.
      rewrite np_set_Some by lia. done.
    + by rewrite length_insert.
    + intros i w' Hi Hw'. destruct (decide (i = count)) as [->|Hne].
      * rewrite list_lookup_insert_eq by lia. congruence.
      * rewrite list_lookup_insert_ne by done. apply Hlow; [lia|done].
    + intros i Hi. rewrite list_lookup_insert_ne by lia. apply Hhigh. lia.
Qed.

Lemma py_dict_elem_of (l : list (string * nat)) (k : string) (v : nat) :
  py_dict l !! k = Some v -> (k, v) ∈ l.
Proof.
  rewrite py_dict_list_to_map. intros H.
  apply elem_of_list_to_map_2 in H. by rewrite elem_of_reverse in H.
Qed.

(** every token of the set gets an id, and ids are positions of [id2word];
    this needs no assumption on reserved words *)
Lemma number_vocabulary_known (set_list : gset string -> list string)
    (vocab : gset string) (w : string) :
  (forall s, set_list s ≡ₚ elements s) ->
  w ∈ vocab ->
  exists k, (number_vocabulary set_list vocab).1 !! w = Some k
            /\ (k < 2 + size vocab)%nat
            /\ (number_vocabulary set_list vocab).2 !! k = Some w.
Proof.
  intros Hset Hw. unfold number_vocabulary. cbn [fst snd].
  destruct (proj2 (py_dict_is_Some
    (imap (fun i w => (w, i)) ([PAD; UNK] ++ set_list vocab)) w)) as [k Hk].
  { rewrite word_index_keys. do 2 right. by rewrite Hset, elem_of_elements. }
  exists k. split; [done|].
  apply py_dict_elem_of, elem_of_lookup_imap in Hk as (j & x & [= -> ->] & Hx).
  split; [|done].
  apply lookup_lt_Some in Hx. simpl in Hx. rewrite Hset in Hx.
  change (length (elements vocab)) with (size vocab) in Hx. lia.
Qed.

Lemma running_max_spec (mx : Z) (lens : list Z) :
  mx <= running_max mx lens
  /\ (forall n, n ∈ lens -> n <= running_max mx lens)
  /\ (running_max mx lens = mx \/ running_max mx lens ∈ lens).
Proof.
  unfold running_max. revert mx.
  induction lens as [|n lens IH]; intros mx; simpl.
  - split; [lia|]. split; [|by left]. intros n H. by apply elem_of_nil in H.
  - destruct (IH (if mx <? n then n else mx)) as (Hge & Hall & Hatt).
    destruct (Z.ltb_spec mx n).
    + split; [lia|]. split.
      * intros k Hk. apply elem_of_cons in Hk as [->|Hk]; [done | by apply Hall].
      * right. destruct Hatt as [->|Hatt]; [left | by right].
    + split; [lia|]. split.
      * intros k Hk. apply elem_of_cons in Hk as [->|Hk]; [lia | by apply Hall].
      * destruct Hatt as [Hatt|Hatt]; [by left | right; by right].
Qed.

Lemma RNN_scan_entries (lvl : level) (pc : corpus)
    (vocab : gset string) (mx : Z) (lens : per_level (list Z)) :
  let st := foldl (fun '(vocab, max_length, lengths) entry =>
            let n := entry.1 in
            let max_length :=
              if max_length <? py_len n then py_len n else max_length in
            let lengths :=
              pl_set lengths lvl (pl_get lengths lvl ++ [py_len n]) in
            (add_words vocab n, max_length, lengths)) (vocab, mx, lens) pc in
  st.1.2 = running_max mx (source_lengths pc)
  /\ forall l, pl_get st.2 l
               = pl_get lens l ++ (if decide (l = lvl) then source_lengths pc else []).
Proof.
  revert vocab mx lens. induction pc as [|entry pc IH]; intros vocab mx lens.
  - simpl. split; [done|]. intros l. by destruct (decide (l = lvl)); rewrite app_nil_r.
  - simpl. destruct (IH (add_words vocab entry.1)
                        (if mx <? py_len entry.1 then py_len entry.1 else mx)
                        (pl_set lens lvl (pl_get lens lvl ++ [py_len entry.1])))
      as [Hmx Hlens].
    split; [exact Hmx|]. intros l. rewrite Hlens.
    destruct (decide (l = lvl)) as [->|Hne].
    + by rewrite pl_get_set_eq, <- app_assoc.
    + by rewrite pl_get_set_ne.
Qed.

Lemma RNN_scan_levels (lvl_dict : per_level lvl_entry) (order : list level)
    (vocab : gset string) (mx : Z) (lens : per_level (list Z)) :
  NoDup order ->
  let st := foldl (fun st lvl =>
           foldl (fun '(vocab, max_length, lengths) entry =>
                    let n := entry.1 in
                    let max_length :=
                      if max_length <? py_len n then py_len n else max_length in
                    let lengths :=
                      pl_set lengths lvl (pl_get lengths lvl ++ [py_len n]) in
                    (add_words vocab n, max_length, lengths))
                 st (lvl_pc (pl_get lvl_dict lvl)))
        (vocab, mx, lens) order in
  mx <= st.1.2
  /\ (forall lvl n, lvl ∈ order ->
        n ∈ source_lengths (lvl_pc (pl_get lvl_dict lvl)) -> n <= st.1.2)
  /\ (st.1.2 = mx
      \/ exists lvl, st.1.2 ∈ source_lengths (lvl_pc (pl_get lvl_dict lvl)))
  /\ forall l, pl_get st.2 l
               = pl_get lens l
                 ++ (if decide (l ∈ order)
                     then source_lengths (lvl_pc (pl_get lvl_dict l)) else []).
Proof.
  intros Hnd. revert vocab mx lens.
  induction order as [|lvl order IH]; intros vocab mx lens.
  - cbn [foldl fst snd]. split; [lia|]. split; [|split; [by left|]].
    + intros lvl n H. by apply elem_of_nil in H.
    + intros l. destruct (decide (l ∈ [])) as [H|_]; [by apply elem_of_nil in H|].
      by rewrite app_nil_r.
  - apply NoDup_cons in Hnd as [Hfresh Hnd]. cbn [foldl].
    pose proof (RNN_scan_entries lvl (lvl_pc (pl_get lvl_dict lvl)) vocab mx lens)
      as Hinner. cbv zeta in Hinner.
    match type of Hinner with
    | context [foldl ?F ?s ?pc] => destruct (foldl F s pc) as [[vocab1 mx1] lens1]
    end.
    cbn [fst snd] in Hinner. destruct Hinner as [Hmx1 Hlens1].
    specialize (IH Hnd vocab1 mx1 lens1). cbv zeta in IH |- *.
    destruct IH as (Hge & Hall & Hatt & Hlens).
    destruct (running_max_spec mx (source_lengths (lvl_pc (pl_get lvl_dict lvl))))
      as (Hge1 & Hall1 & Hatt1).
    rewrite <- Hmx1 in Hge1, Hall1, Hatt1.
    split; [lia|]. split; [|split].
    + intros l n Hl Hn. apply elem_of_cons in Hl as [->|Hl].
      * specialize (Hall1 n Hn). lia.
      * by apply (Hall l).
    + destruct Hatt as [Hatt|Hatt]; [|by right]. rewrite Hatt.
      destruct Hatt1 as [->|Hatt1]; [by left | right; eauto].
    + intros l. rewrite Hlens, Hlens1, <- app_assoc. f_equal.
      destruct (decide (l = lvl)) as [->|Hne].
      * rewrite (decide_False (P := lvl ∈ order)) by done.
        rewrite decide_True by left. by rewrite app_nil_r.
      * destruct (decide (l ∈ order)).
        -- rewrite decide_True by by right. done.
        -- rewrite decide_False; [done|]. by apply not_elem_of_cons.
Qed.

Lemma all_source_lengths_elem_of (lvl_dict : per_level lvl_entry) (n : Z) :
  n ∈ all_source_lengths lvl_dict
  <-> exists lvl, n ∈ source_lengths (lvl_pc (pl_get lvl_dict lvl)).
Proof.
  unfold all_source_lengths. rewrite !elem_of_app. split.
  - intros [H|[H|H]]; [by exists L0 | by exists L1 | by exists L2].
  - intros [[] H]; simpl in H; tauto.
Qed.

Lemma source_lengths_nonneg (pc : corpus) (n : Z) : n ∈ source_lengths pc -> 0 <= n.
Proof.
  intros H. apply list_elem_of_fmap in H as (entry & -> & _). unfold py_len. lia.
Qed.

Lemma RNN_scan_corpora_spec (lvl_order : list level) (lvl_dict : per_level lvl_entry) :
  lvl_order ≡ₚ [L0; L1; L2] ->
  is_longest (RNN_scan_corpora lvl_order lvl_dict).1.2 (all_source_lengths lvl_dict)
  /\ forall lvl, pl_get (RNN_scan_corpora lvl_order lvl_dict).2 lvl
                 = source_lengths (lvl_pc (pl_get lvl_dict lvl)).
Proof.
  intros Hord.
  assert (Hnd : NoDup lvl_order).
  { rewrite Hord. repeat (apply NoDup_cons; split; [rewrite ?elem_of_cons, ?elem_of_nil; intuition discriminate|]). apply NoDup_nil_2. }
  assert (Hin : forall lvl, lvl ∈ lvl_order).
  { intros lvl. rewrite Hord. destruct lvl; rewrite !elem_of_cons; auto. }
  pose proof (RNN_scan_levels lvl_dict lvl_order ∅ 0 (PerLevel [] [] []) Hnd)
    as Hscan. cbv zeta in Hscan.
  change (foldl _ _ lvl_order) with (RNN_scan_corpora lvl_order lvl_dict) in Hscan.
  destruct Hscan as (Hge & Hall & Hatt & Hlens).
  split; [split|].
  - intros n Hn. apply all_source_lengths_elem_of in Hn as [lvl Hn].
    by apply (Hall lvl).
  - destruct Hatt as [Hzero|[lvl Hatt]].
    + destruct (all_source_lengths lvl_dict) as [|n lens] eqn:E; [by right|].
      left. assert (Hn : n ∈ all_source_lengths lvl_dict) by (rewrite E; left).
      assert (n <= 0).
      { rewrite <- Hzero. apply all_source_lengths_elem_of in Hn as [lvl Hn].
        by apply (Hall lvl). }
      assert (0 <= n).
      { apply all_source_lengths_elem_of in Hn as [lvl Hn].
        by eapply source_lengths_nonneg. }
      rewrite Hzero. replace 0 with n by lia. rewrite <- E. done.
    + left. apply all_source_lengths_elem_of. eauto.
  - intros lvl. rewrite Hlens. rewrite decide_True by done. by destruct lvl.
Qed.

Lemma np_zeros_nonneg (n : Z) :
  0 <= n -> np_zeros n = Ok (replicate (Z.to_nat n) 0).
Proof. intros H. unfold np_zeros. by destruct (Z.ltb_spec n 0); [lia|]. Qed.

(** the part of a sequence-mode entry after the vector is allocated *)
Lemma sequence_entry_padded (word2id labels : gmap string nat) (width : Z)
    (nl ml : list string) :
  py_len nl <= width ->
  (forall w, w ∈ nl ->
     exists k, word2id !! w = Some k /\ Z.of_nat k < 2 ^ 31) ->
  is_Some (labels !! join_tokens ml) ->
  exists v lab,
    RNN_vectorize_entry word2id labels width (nl, ml) = Ok (v, lab)
    /\ py_len v = width
    /\ padded_ids word2id nl v.
Proof.
  intros Hwidth Hknown [lab Hlab].
  assert (0 <= width) by (unfold py_len in Hwidth; lia).
  destruct (fill_ids_spec int32 word2id nl (length nl)
              (replicate (Z.to_nat width) 0)) as (v & Hv & Hlen & Hlow & Hhigh).
  { done. }
  { rewrite length_replicate. unfold py_len in Hwidth. lia. }
  exists v, lab. split; [|split; [|split]].
  - unfold RNN_vectorize_entry. rewrite np_zeros_nonneg by done. simpl.
    unfold py_getitem. rewrite Hlab. simpl. by rewrite Hv.
  - unfold py_len. rewrite Hlen, length_replicate. lia.
  - intros i w Hw. destruct (Hknown w) as (k & Hk & Hsmall).
    { by eapply list_elem_of_lookup_2. }
    exists k. split; [done|].
    rewrite (Hlow i w); [|by eapply lookup_lt_Some|done].
    unfold py_get. rewrite Hk. by rewrite int32_small by lia.
  - intros i [Hi1 Hi2]. rewrite Hhigh by done.
    apply lookup_replicate_2. by rewrite Hlen, length_replicate in Hi2.
Qed.

Lemma elem_of_source_lengths (pc : corpus) (nl ml : list string) :
  (nl, ml) ∈ pc -> py_len nl ∈ source_lengths pc.
Proof.
  intros H. unfold source_lengths.
  by apply (list_elem_of_fmap_2
              (fun entry : list string * list string => py_len entry.1)) in H.
Qed.

Lemma source_lengths_lookup (pc : corpus) (j : nat) (nl ml : list string) :
  pc !! j = Some (nl, ml) -> source_lengths pc !! j = Some (py_len nl).
Proof.
  intros H. unfold source_lengths. by rewrite list_lookup_fmap, H.
Qed.

(** [RNNDual]: construction succeeds and every entry is padded to the
    greatest source length of the three corpora *)
Lemma RNNDual_vectorize_padded
    (set_list : gset string -> list string) (lvl_order : list level)
    (l0_corpus l1_corpus l2_corpus : corpus)
    (l0_commands l1_commands l2_commands : command_set) (epochs batch_size : Z) :
  let lvl_dict := make_lvl_dict l0_corpus l1_corpus l2_corpus
                                l0_commands l1_commands l2_commands in
  (forall s, set_list s ≡ₚ elements s) ->
  lvl_order ≡ₚ [L0; L1; L2] ->
  targets_known lvl_dict ->
  Z.of_nat (2 + distinct_tokens lvl_dict) <= 2 ^ 31 ->
  exists m,
    RNNDual_init set_list lvl_order l0_corpus l1_corpus l2_corpus
                 l0_commands l1_commands l2_commands epochs batch_size = Ok m
    /\ is_longest (rnn_max_len m) (all_source_lengths lvl_dict)
    /\ forall lvl j nl ml,
         lvl_pc (pl_get lvl_dict lvl) !! j = Some (nl, ml) ->
         exists v,
           pl_get (rnn_train_x m) lvl !! j = Some v
           /\ py_len v = rnn_max_len m
           /\ padded_ids (rnn_word2id m) nl v
           /\ pl_get (rnn_lengths m) lvl !! j = Some (py_len nl).
Proof.
  intros lvl_dict Hset Hord Htargets Hfits.
  unfold RNNDual_init. fold lvl_dict. unfold RNN_build_vocabulary.
  pose proof (RNN_scan_corpora_vocab lvl_order lvl_dict) as Hvocab.
  destruct (RNN_scan_corpora_spec lvl_order lvl_dict Hord) as [Hmax Hlens].
  destruct (RNN_scan_corpora lvl_order lvl_dict) as [[vocab max_len] lengths].
  cbn [fst snd] in Hvocab, Hmax, Hlens. subst vocab.
  pose proof (fun w => number_vocabulary_known set_list
                         (NN_collect_vocab lvl_order lvl_dict) w Hset) as Hknown.
  destruct (number_vocabulary set_list (NN_collect_vocab lvl_order lvl_dict))
    as [word2id id2word].
  cbn [fst snd] in Hknown.
  assert (Hsize : size (NN_collect_vocab lvl_order lvl_dict) = distinct_tokens lvl_dict).
  { apply size_token_set. intros w. by apply NN_collect_vocab_elem_of. }
  assert (Hentry : forall lvl nl ml, (nl, ml) ∈ lvl_pc (pl_get lvl_dict lvl) ->
            exists v lab,
              RNN_vectorize_entry word2id (lvl_labels (pl_get lvl_dict lvl)) max_len
                                  (nl, ml) = Ok (v, lab)
              /\ py_len v = max_len /\ padded_ids word2id nl v).
  { intros lvl nl ml Hin. apply sequence_entry_padded.
    - apply Hmax. apply all_source_lengths_elem_of. exists lvl.
      by eapply elem_of_source_lengths.
    - intros w Hw. destruct (Hknown w) as (k & Hk & Hlt & _).
      { apply NN_collect_vocab_elem_of; [done|].
        by eapply elem_of_all_source_tokens. }
      exists k. split; [done|]. lia.
    - unfold lvl_dict. rewrite make_lvl_dict_labels.
      destruct (make_labels_is_Some _ ml (Htargets lvl nl ml Hin)) as [i Hi]. eauto. }
  destruct (vectorize_levels_Ok
              (fun lvl => RNN_vectorize_entry word2id
                            (lvl_labels (pl_get lvl_dict lvl)) max_len)
              lvl_dict lvl_order Hord) as (x & y & Hvec & Hxy).
  { intros lvl [nl ml] Hin. destruct (Hentry lvl nl ml Hin) as (v & lab & Hv & _). eauto. }
  unfold RNN_vectorize. rewrite Hvec. simpl. eexists. split; [done|].
  simpl. split; [done|]. intros lvl j nl ml Hj.
  destruct (Hxy lvl) as (rs & Hx & _ & Hall).
  destruct (Forall2_lookup_l _ _ _ _ _ Hall Hj) as ([v lab] & Hrs & Hbody).
  destruct (Hentry lvl nl ml) as (v' & lab' & Hv' & Hvlen & Hcells).
  { by eapply list_elem_of_lookup_2. }
  rewrite Hbody in Hv'. injection Hv' as <- <-.
  exists v. split; [|split; [done|split; [done|]]].
  - rewrite Hx, list_lookup_fmap, Hrs. done.
  - rewrite Hlens. by eapply source_lengths_lookup.
Qed.

Lemma foldl_max_spec (x : Z) (l : list Z) :
  x <= foldl Z.max x l
  /\ (forall n, n ∈ l -> n <= foldl Z.max x l)
  /\ (foldl Z.max x l = x \/ foldl Z.max x l ∈ l).
Proof.
  revert x. induction l as [|n l IH]; intros x; simpl.
  - split; [lia|]. split; [|by left]. intros n H. by apply elem_of_nil in H.
  - destruct (IH (Z.max x n)) as (Hge & Hall & Hatt).
    split; [lia|]. split.
    + intros k Hk. apply elem_of_cons in Hk as [->|Hk]; [lia | by apply Hall].
    + destruct Hatt as [Hatt|Hatt]; [|right; by right].
      rewrite Hatt. destruct (Z.max_spec x n) as [[_ ->]|[_ ->]]; [right; left | by left].
Qed.

Lemma py_max_spec (lens : list Z) :
  lens <> [] -> exists mx, py_max lens = Ok mx /\ is_longest mx lens.
Proof.
  destruct lens as [|x l]; [done|]. intros _.
  destruct (foldl_max_spec x l) as (Hge & Hall & Hatt).
  exists (foldl Z.max x l). split; [done|]. split.
  - intros n Hn. apply elem_of_cons in Hn as [->|Hn]; [done | by apply Hall].
  - left. destruct Hatt as [->|Hatt]; [left | by right].
Qed.

Lemma RC_vectorize_entry_width (word2id labels : gmap string nat) (lengths : list Z)
    (entry : list string * list string) :
  RC_vectorize_entry word2id labels lengths entry
  = (width ← py_max lengths; RNN_vectorize_entry word2id labels width entry).
Proof. by destruct entry. Qed.

(** [RNNClassifier]: construction succeeds and every entry is padded to
    the greatest source length of the corpus *)
Lemma RNNClassifier_vectorize_padded
    (set_list : gset string -> list string)
    (parallel_corpus : corpus) (commands : command_set) (epochs batch_size : Z) :
  (forall s, set_list s ≡ₚ elements s) ->
  (forall nl ml, (nl, ml) ∈ parallel_corpus -> ml ∈ commands) ->
  Z.of_nat (2 + length (remove_dups (source_tokens parallel_corpus))) <= 2 ^ 31 ->
  exists m,
    RNNClassifier_init set_list parallel_corpus commands epochs batch_size = Ok m
    /\ forall j nl ml,
         parallel_corpus !! j = Some (nl, ml) ->
         exists v,
           rc_train_x m !! j = Some v
           /\ is_longest (py_len v) (source_lengths parallel_corpus)
           /\ padded_ids (rc_word2id m) nl v
           /\ rc_lengths m !! j = Some (py_len nl).
Proof.
  intros Hset Htargets Hfits. unfold RNNClassifier_init, RC_build_vocabulary.
  set (vocab := foldl (fun vocab entry => add_words vocab entry.1) ∅ parallel_corpus).
  assert (Hvocab : forall w, w ∈ vocab <-> w ∈ source_tokens parallel_corpus).
  { intros w. unfold vocab. rewrite add_corpus_elem_of. split; [|tauto].
    intros [H|H]; [by apply not_elem_of_empty in H | done]. }
  pose proof (fun w => number_vocabulary_known set_list vocab w Hset) as Hknown.
  destruct (number_vocabulary set_list vocab) as [word2id id2word].
  cbn [fst snd] in Hknown.
  pose proof (size_token_set vocab _ Hvocab) as Hsize.
  fold (source_lengths parallel_corpus).
  assert (Hentry : forall nl ml, (nl, ml) ∈ parallel_corpus ->
            exists mx v lab,
              py_max (source_lengths parallel_corpus) = Ok mx
              /\ is_longest mx (source_lengths parallel_corpus)
              /\ RC_vectorize_entry word2id (make_labels commands)
                   (source_lengths parallel_corpus) (nl, ml) = Ok (v, lab)
              /\ py_len v = mx /\ padded_ids word2id nl v).
  { intros nl ml Hin.
    destruct (py_max_spec (source_lengths parallel_corpus)) as (mx & Hmx & Hlong).
    { intros E. apply elem_of_source_lengths in Hin. rewrite E in Hin.
      by apply elem_of_nil in Hin. }
    destruct (sequence_entry_padded word2id (make_labels commands) mx nl ml)
      as (v & lab & Hv & Hlen & Hpad).
    - apply Hlong. by eapply elem_of_source_lengths.
    - intros w Hw. destruct (Hknown w) as (k & Hk & Hlt & _).
      { apply Hvocab. by eapply elem_of_source_tokens. }
      exists k. split; [done|]. lia.
    - destruct (make_labels_is_Some _ ml (Htargets nl ml Hin)) as [i Hi]. eauto.
    - exists mx, v, lab. rewrite RC_vectorize_entry_width, Hmx. done. }
  destruct (vectorize_level_Ok
              (RC_vectorize_entry word2id (make_labels commands)
                                  (source_lengths parallel_corpus))
              parallel_corpus) as (rs & Hvec & Hall).
  { intros [nl ml] Hin.
    destruct (Hentry nl ml Hin) as (mx & v & lab & _ & _ & Hv & _). eauto. }
  unfold RC_vectorize. rewrite Hvec. simpl. eexists. split; [done|].
  simpl. intros j nl ml Hj.
  destruct (Forall2_lookup_l _ _ _ _ _ Hall Hj) as ([v lab] & Hrs & Hbody).
  destruct (Hentry nl ml) as (mx & v' & lab' & Hmx & Hlong & Hv' & Hvlen & Hcells).
  { by eapply list_elem_of_lookup_2. }
  rewrite Hbody in Hv'. injection Hv' as <- <-.
  exists v. split; [|split; [by rewrite Hvlen|split; [done|]]].
  - by rewrite list_lookup_fmap, Hrs.
  - by eapply source_lengths_lookup.
Qed.

(** C5: in sequence mode ([RNNDual] and [RNNClassifier]), when every
    target sequence is a command of its level and the vocabulary fits the
    [int32] cells, construction succeeds and for every corpus entry the
    vectorized input has length equal to the greatest source-sequence
    length of the scope (all three corpora for [RNNDual], the one corpus
    for [RNNClassifier]), slot [i] below the true length holds the id of
    the token at position [i], every later slot holds [PAD_ID] = 0, and the
    true length is recorded separately per example. *)
Theorem sequence_vectorize_padded
    (set_list : gset string -> list string) (lvl_order : list level)
    (epochs batch_size : Z) :
  (forall s, set_list s ≡ₚ elements s) ->
  lvl_order ≡ₚ [L0; L1; L2] ->
  (forall (l0_corpus l1_corpus l2_corpus : corpus)
          (l0_commands l1_commands l2_commands : command_set),
     let lvl_dict := make_lvl_dict l0_corpus l1_corpus l2_corpus
                                   l0_commands l1_commands l2_commands in
     targets_known lvl_dict ->
     Z.of_nat (2 + distinct_tokens lvl_dict) <= 2 ^ 31 ->
     exists m,
       RNNDual_init set_list lvl_order l0_corpus l1_corpus l2_corpus
                    l0_commands l1_commands l2_commands epochs batch_size = Ok m
       /\ is_longest (rnn_max_len m) (all_source_lengths lvl_dict)
       /\ forall lvl j nl ml,
            lvl_pc (pl_get lvl_dict lvl) !! j = Some (nl, ml) ->
            exists v,
              pl_get (rnn_train_x m) lvl !! j = Some v
              /\ py_len v = rnn_max_len m
              /\ padded_ids (rnn_word2id m) nl v
              /\ pl_get (rnn_lengths m) lvl !! j = Some (py_len nl))
  /\ (forall (parallel_corpus : corpus) (commands : command_set),
        (forall nl ml, (nl, ml) ∈ parallel_corpus -> ml ∈ commands) ->
        Z.of_nat (2 + length (remove_dups (source_tokens parallel_corpus))) <= 2 ^ 31 ->
        exists m,
          RNNClassifier_init set_list parallel_corpus commands epochs batch_size = Ok m
          /\ forall j nl ml,
               parallel_corpus !! j = Some (nl, ml) ->
               exists v,
                 rc_train_x m !! j = Some v
                 /\ is_longest (py_len v) (source_lengths parallel_corpus)
                 /\ padded_ids (rc_word2id m) nl v
                 /\ rc_lengths m !! j = Some (py_len nl)).
Proof.
  intros Hset Hord. split.
  - intros. by apply RNNDual_vectorize_padded.
  - intros. by apply RNNClassifier_vectorize_padded.
Qed.

(** ** Ranges, slices and minibatch positions *)

Lemma py_range_ge (start stop step : Z) (l : list Z) (x : Z) :
  0 < step -> py_range start stop step = Ok l -> x ∈ l -> start <= x.
Proof.
  intros Hstep Hr Hx. unfold py_range in Hr.
  destruct (Z.eqb_spec step 0); [lia|]. injection Hr as <-.
  apply list_elem_of_fmap in Hx as (i & -> & _). nia.
Qed.

Lemma py_range_empty (start stop step : Z) :
  0 < step -> stop <= start -> py_range start stop step = Ok [].
Proof.
  intros Hstep Hle. unfold py_range.
  destruct (Z.eqb_spec step 0); [lia|].
  destruct (Z.ltb_spec 0 step); [|lia].
  by destruct (Z.ltb_spec start stop); [lia|].
Qed.

Lemma py_range_epochs (n : Z) :
  0 < n -> exists l, py_range 0 n 1 = Ok (0 :: l).
Proof.
  intros Hn. unfold py_range. simpl.
  destruct (Z.ltb_spec 0 n); [|lia].
  replace ((n - 0 + 1 - 1) `div` 1) with n by (rewrite Z.div_1_r; lia).
  destruct (Z.to_nat n) as [|k] eqn:Ek; [lia|]. simpl. eauto.
Qed.

Lemma py_prefix_len {A : Type} (l : list A) (k : Z) :
  0 <= k -> py_len (py_prefix l k) <= k.
Proof.
  intros Hk. unfold py_prefix, py_slice, py_bound, py_len. simpl.
  destruct (Z.ltb_spec k 0); [lia|].
  rewrite length_take, length_drop. lia.
Qed.

Lemma py_prefix_zero {A : Type} (l : list A) : py_prefix l 0 = [].
Proof.
  unfold py_prefix, py_slice, py_bound, py_len. simpl.
  replace (Z.to_nat (0 `min` Z.of_nat (length l) - 0 `min` Z.of_nat (length l)))
    with 0%nat by lia.
  done.
Qed.

Lemma positions_stop_ge (n bsz : Z) (ps : list (Z * Z)) (start stop : Z) :
  0 < bsz -> positions n bsz = Ok ps -> (start, stop) ∈ ps -> bsz <= stop.
Proof.
  intros Hb Hp Hin. unfold positions in Hp.
  destruct (py_range 0 (n - bsz) bsz) as [starts|] eqn:Es; [|done].
  destruct (py_range bsz n bsz) as [stops|] eqn:Et; [|done].
  simpl in Hp. injection Hp as <-.
  apply elem_of_zip_r in Hin. by eapply py_range_ge.
Qed.

Lemma positions_small (n bsz : Z) :
  0 < bsz -> n <= bsz -> positions n bsz = Ok [].
Proof.
  intros Hb Hn. unfold positions.
  rewrite (py_range_empty 0 (n - bsz) bsz) by lia.
  by rewrite (py_range_empty bsz n bsz) by lia.
Qed.

(** with no example in reach, either the step is zero and [range] raises,
    or no position is produced *)
Lemma positions_zero (bsz : Z) :
  positions 0 bsz = Ok [] \/ positions 0 bsz = Raise ValueError.
Proof.
  unfold positions, py_range.
  destruct (Z.eqb_spec bsz 0); [by right|]. left.
  destruct (Z.ltb_spec 0 bsz).
  - destruct (Z.ltb_spec 0 (0 - bsz)); [lia|]. simpl.
    by destruct (Z.ltb_spec bsz 0); [lia|].
  - destruct (Z.ltb_spec (0 - bsz) 0); [lia|]. simpl.
    by destruct (bsz <? 0); destruct (0 <? bsz).
Qed.

(** ** A small logic for [M] *)

Section Logic.

Context `{E : Engine}.

Lemma bind_run {A B : Type} (m : M A) (f : A -> M B) (s : St Session Loss) :
  (m ≫= f) s
  = match m s with
    | (Ok a, s') => f a s'
    | (Raise e, s') => (Raise e, s')
    end.
Proof. done. Qed.

Lemma bind_lift_Ok {A B : Type} (a : A) (f : A -> M B) (s : St Session Loss) :
  (lift (Ok a) ≫= f) s = f a s.
Proof. done. Qed.

Lemma bind_lift_Raise {A B : Type} (e : exn) (f : A -> M B) (s : St Session Loss) :
  (lift (Raise e) ≫= f) s = (Raise e, s).
Proof. done. Qed.

Lemma spec_ret {A : Type} (Q : event Loss -> Prop) (R : A -> Prop) (a : A) :
  R a -> spec Q R (mret a).
Proof.
  intros Ha s. exists []. simpl. rewrite app_nil_r.
  split; [done|]. split; [done|]. by intros a' [= <-].
Qed.

Lemma spec_raise {A : Type} (Q : event Loss -> Prop) (R : A -> Prop) (e : exn) :
  spec Q R (raise e).
Proof.
  intros s. exists []. simpl. rewrite app_nil_r. by split; [|split].
Qed.

Lemma spec_lift {A : Type} (Q : event Loss -> Prop) (R : A -> Prop) (r : result A) :
  (forall a, r = Ok a -> R a) -> spec Q R (lift r).
Proof.
  intros Hr s. exists []. simpl. rewrite app_nil_r. by split; [|split].
Qed.

Lemma spec_emit (Q : event Loss -> Prop) (R : unit -> Prop) (ev : event Loss) :
  Q ev -> R tt -> spec Q R (emit ev).
Proof.
  intros Hev Ht s. exists [ev]. simpl. split; [done|].
  split; [by constructor|]. by intros [] _.
Qed.

Lemma spec_sess_train (Q : event Loss -> Prop) (op : train_op) (fd : feed) :
  Q (EvTrain op fd) -> spec Q (fun _ => True) (sess_train op fd).
Proof.
  intros Hev s. exists [EvTrain op fd]. unfold sess_train.
  destruct (run_train op fd (session s)) as [r se]. simpl.
  split; [done|]. split; [by constructor | done].
Qed.

Lemma spec_bind {A B : Type} (Q : event Loss -> Prop) (R : A -> Prop)
    (R' : B -> Prop) (m : M A) (f : A -> M B) :
  spec Q R m -> (forall a, R a -> spec Q R' (f a)) -> spec Q R' (m ≫= f).
Proof.
  intros Hm Hf s. rewrite bind_run.
  destruct (Hm s) as (evs & Htr & Hq & Hr).
  destruct (m s) as [[a|e] s1]; simpl in *.
  - destruct (Hf a (Hr a eq_refl) s1) as (evs' & Htr' & Hq' & Hr').
    exists (evs ++ evs'). rewrite Htr', Htr, app_assoc.
    split; [done|]. split; [by apply Forall_app | done].
  - exists evs. by split; [|split].
Qed.

Lemma spec_weaken {A : Type} (Q : event Loss -> Prop) (R R' : A -> Prop) (m : M A) :
  spec Q R m -> (forall a, R a -> R' a) -> spec Q R' m.
Proof.
  intros Hm Hw s. destruct (Hm s) as (evs & Htr & Hq & Hr).
  exists evs. split; [done|]. split; [done|]. intros a Ha. by apply Hw, Hr.
Qed.

Lemma spec_forM {A B : Type} (Q : event Loss -> Prop) (I : A -> Prop)
    (body : A -> B -> M A) (l : list B) (acc : A) :
  I acc ->
  (forall acc x, x ∈ l -> I acc -> spec Q I (body acc x)) ->
  spec Q I (forM body acc l).
Proof.
  revert acc. induction l as [|x l IH]; intros acc Hacc Hbody.
  - by apply spec_ret.
  - cbn [forM]. apply (spec_bind Q I).
    + apply Hbody; [left | done].
    + intros acc' Hacc'. apply IH; [done|].
      intros a y Hy. apply Hbody. by right.
Qed.

Lemma quiet_ret {A : Type} (a : A) : quiet (mret a : M A).
Proof. intros s. split; [done|]. exists []. by rewrite app_nil_r. Qed.

Lemma quiet_raise {A : Type} (e : exn) : quiet (raise e : M A).
Proof. intros s. split; [done|]. exists []. by rewrite app_nil_r. Qed.

Lemma quiet_lift {A : Type} (r : result A) : quiet (lift r).
Proof. intros s. split; [done|]. exists []. by rewrite app_nil_r. Qed.

Lemma quiet_emit (ev : event Loss) : is_train ev = false -> quiet (emit ev).
Proof. intros Hev s. split; [done|]. exists [ev]. split; [done | by constructor]. Qed.

Lemma quiet_bind {A B : Type} (m : M A) (f : A -> M B) :
  quiet m -> (forall a, quiet (f a)) -> quiet (m ≫= f).
Proof.
  intros Hm Hf s. rewrite bind_run.
  destruct (Hm s) as (Hse & evs & Htr & Hq).
  destruct (m s) as [[a|e] s1]; simpl in *.
  - destruct (Hf a s1) as (Hse' & evs' & Htr' & Hq').
    split; [congruence|]. exists (evs ++ evs').
    rewrite Htr', Htr, app_assoc. split; [done | by apply Forall_app].
  - split; [done|]. by exists evs.
Qed.

Lemma quiet_forM {A B : Type} (body : A -> B -> M A) (l : list B) (acc : A) :
  (forall acc x, x ∈ l -> quiet (body acc x)) -> quiet (forM body acc l).
Proof.
  revert acc. induction l as [|x l IH]; intros acc Hbody.
  - apply quiet_ret.
  - cbn [forM]. apply quiet_bind; [apply Hbody; left|].
    intros a. apply IH. intros a' y Hy. apply Hbody. by right.
Qed.

End Logic.

(** ** Optimizer steps of a level that has at most one batch of examples *)

Lemma steps_of_none {Loss : Type} (op : train_op) (evs : list (event Loss)) :
  Forall (not_step_of op) evs -> steps_of op evs = 0%nat.
Proof.
  unfold steps_of, not_step_of. induction 1 as [|ev evs Hev _ IH]; [done|].
  rewrite filter_cons_False; [done|]. by rewrite Hev.
Qed.

Lemma train_op_of_inj (l k : level) : train_op_of l = train_op_of k -> l = k.
Proof. by destruct l, k. Qed.

Section Steps.

Context `{E : Engine}.

Lemma print_average_spec (Q : event Loss -> Prop) (e : Z) (curr_loss : Loss)
    (batches : Z) :
  Q (EvPrintEpoch e) -> (forall avg, Q (EvPrintLoss avg)) ->
  spec Q (fun _ => True) (print_average e curr_loss batches).
Proof.
  intros He HQ. unfold print_average.
  apply (spec_bind _ (fun _ => True)); [by apply spec_emit|]. intros _ _.
  destruct (batches =? 0).
  - apply spec_raise.
  - by apply spec_emit.
Qed.

Lemma NN_fit_level_no_step (m : NNDual) (k l : level) (start stop : Z) :
  py_len (pl_get (nn_train_x m) k) <= stop ->
  spec (not_step_of (train_op_of k)) (fun _ => True) (NN_fit_level m l start stop).
Proof.
  intros Hk. unfold NN_fit_level.
  destruct (Z.ltb_spec stop (py_len (pl_get (nn_train_x m) l))); [|by apply spec_ret].
  apply (spec_bind _ (fun _ => True)); [by apply spec_lift|]. intros lvl_y _.
  apply spec_sess_train. unfold not_step_of. simpl.
  apply bool_decide_eq_false. intros Heq. apply train_op_of_inj in Heq. subst l. lia.
Qed.

Lemma NN_fit_position_no_step (m : NNDual) (k : level) (e : Z)
    (acc : Loss * Z) (pos : Z * Z) :
  py_len (pl_get (nn_train_x m) k) <= pos.2 ->
  spec (not_step_of (train_op_of k)) (fun _ => True) (NN_fit_position m e acc pos).
Proof.
  intros Hk. destruct acc as [curr_loss batches], pos as [start stop].
  unfold NN_fit_position.
  apply (spec_bind _ (fun _ => True)); [by apply NN_fit_level_no_step|]. intros l0 _.
  apply (spec_bind _ (fun _ => True)); [by apply NN_fit_level_no_step|]. intros l1 _.
  apply (spec_bind _ (fun _ => True)); [by apply NN_fit_level_no_step|]. intros l2 _.
  apply (spec_bind _ (fun _ => True)); [by apply spec_emit|]. intros _ _.
  by apply spec_ret.
Qed.

Lemma NN_fit_no_step (m : NNDual) (k : level) (chunk_size : Z) :
  0 < nn_bsz m ->
  py_len (pl_get (nn_train_x m) k) <= nn_bsz m ->
  spec (not_step_of (train_op_of k)) (fun _ => True) (NN_fit m chunk_size).
Proof.
  intros Hb Hk. unfold NN_fit.
  apply (spec_bind _ (fun _ => True)); [by apply spec_lift|]. intros es _.
  apply spec_forM; [done|]. intros [] e _ _. unfold NN_fit_epoch.
  apply (spec_bind _ (fun ps => forall start stop, (start, stop) ∈ ps -> nn_bsz m <= stop)).
  { apply spec_lift. intros ps Hps start stop Hin. by eapply positions_stop_ge. }
  intros ps Hps.
  apply (spec_bind _ (fun _ => True)).
  - apply spec_forM; [done|]. intros acc [start stop] Hin _.
    apply NN_fit_position_no_step. specialize (Hps start stop Hin). simpl. lia.
  - intros [curr_loss batches] _. by apply print_average_spec.
Qed.

Lemma RNN_fit_level_no_step (m : RNNDual) (z : list Z) (k l : level)
    (start stop : Z) (prev : Loss) :
  py_len (pl_get (rnn_train_x m) k) <= stop ->
  spec (not_step_of (train_op_of k)) (fun _ => True)
       (RNN_fit_level m z l start stop prev).
Proof.
  intros Hk. unfold RNN_fit_level.
  destruct (Z.ltb_spec stop (py_len (pl_get (rnn_train_x m) l))); [|by apply spec_ret].
  apply spec_sess_train. unfold not_step_of. simpl.
  apply bool_decide_eq_false. intros Heq. apply train_op_of_inj in Heq. subst l. lia.
Qed.

Lemma RNN_fit_position_no_step (m : RNNDual) (z : list Z) (k : level) (e : Z)
    (acc : Loss * Z * (Loss * Loss * Loss)) (pos : Z * Z) :
  py_len (pl_get (rnn_train_x m) k) <= pos.2 ->
  spec (not_step_of (train_op_of k)) (fun _ => True)
       (RNN_fit_position m z e acc pos).
Proof.
  intros Hk. destruct acc as [[curr_loss batches] [[l0 l1] l2]], pos as [start stop].
  unfold RNN_fit_position.
  apply (spec_bind _ (fun _ => True)); [by apply RNN_fit_level_no_step|]. intros l0' _.
  apply (spec_bind _ (fun _ => True)); [by apply RNN_fit_level_no_step|]. intros l1' _.
  apply (spec_bind _ (fun _ => True)); [by apply RNN_fit_level_no_step|]. intros l2' _.
  apply (spec_bind _ (fun _ => True)); [by apply spec_emit|]. intros _ _.
  by apply spec_ret.
Qed.

Lemma RNN_fit_no_step (m : RNNDual) (k : level) (chunk_size : Z) :
  0 < rnn_bsz m ->
  py_len (pl_get (rnn_train_x m) k) <= rnn_bsz m ->
  spec (not_step_of (train_op_of k)) (fun _ => True) (RNN_fit m chunk_size).
Proof.
  intros Hb Hk. unfold RNN_fit.
  apply (spec_bind _ (fun _ => True)); [by apply spec_lift|]. intros z _.
  apply (spec_bind _ (fun _ => True)); [by apply spec_lift|]. intros es _.
  apply (spec_bind _ (fun _ => True)); [|intros; by apply spec_ret].
  apply spec_forM; [done|]. intros losses e _ _. unfold RNN_fit_epoch.
  apply (spec_bind _ (fun ps => forall start stop, (start, stop) ∈ ps -> rnn_bsz m <= stop)).
  { apply spec_lift. intros ps Hps start stop Hin. by eapply positions_stop_ge. }
  intros ps Hps.
  apply (spec_bind _ (fun _ => True)).
  - apply spec_forM; [done|]. intros acc [start stop] Hin _.
    apply RNN_fit_position_no_step. specialize (Hps start stop Hin). simpl. lia.
  - intros [[curr_loss batches] losses'] _.
    apply (spec_bind _ (fun _ => True)); [by apply print_average_spec|].
    intros; by apply spec_ret.
Qed.

(** C7: with [batch_size] = 16 and a level that holds exactly 16 training
    examples, a call to [fit] (whatever [chunk_size] is, so also when it
    is at least 16) runs no optimizer step for that level, in [NNDual]
    and in [RNNDual]: the events the call appends to the trace hold no
    step of the level's training operation. *)
Theorem fit_sixteen_examples_no_step (chunk_size : Z) (k : level) :
  (forall (m : NNDual) (s : St Session Loss),
     nn_bsz m = 16 -> py_len (pl_get (nn_train_x m) k) = 16 ->
     exists evs,
       trace (NN_fit m chunk_size s).2 = trace s ++ evs
       /\ steps_of (train_op_of k) evs = 0%nat)
  /\ (forall (m : RNNDual) (s : St Session Loss),
        rnn_bsz m = 16 -> py_len (pl_get (rnn_train_x m) k) = 16 ->
        exists evs,
          trace (RNN_fit m chunk_size s).2 = trace s ++ evs
          /\ steps_of (train_op_of k) evs = 0%nat).
Proof.
  split.
  - intros m s Hb Hk.
    destruct (NN_fit_no_step m k chunk_size ltac:(lia) ltac:(lia) s)
      as (evs & Htr & Hq & _).
    exists evs. split; [done | by apply steps_of_none].
  - intros m s Hb Hk.
    destruct (RNN_fit_no_step m k chunk_size ltac:(lia) ltac:(lia) s)
      as (evs & Htr & Hq & _).
    exists evs. split; [done | by apply steps_of_none].
Qed.

End Steps.

(** ** Calls to [fit] that visit no minibatch position *)

Section NoPosition.

Context `{E : Engine}.

Lemma steps_app_quiet (tr evs : list (event Loss)) :
  Forall (fun ev => is_train ev = false) evs -> steps (tr ++ evs) = steps tr.
Proof.
  intros Hq. unfold steps. rewrite filter_app, length_app.
  replace (filter (fun ev => is_train ev = true) evs) with (@nil (event Loss)).
  { simpl. lia. }
  induction Hq as [|ev evs Hev _ IH]; [done|].
  rewrite filter_cons_False; [done|]. by rewrite Hev.
Qed.

Lemma quiet_nothing_trained {A : Type} (m : M A) (s : St Session Loss) :
  quiet m -> session (m s).2 = session s /\ nothing_trained s (m s).2.
Proof.
  intros H. destruct (H s) as (Hse & evs & Htr & Hq).
  split; [done|]. split.
  - rewrite Htr. by apply steps_app_quiet.
  - by rewrite Hse.
Qed.

(** the average of an epoch that visited no position: the text of the
    line is written, then the division raises *)
Lemma print_average_zero (e : Z) (curr_loss : Loss) (s : St Session Loss) :
  print_average e curr_loss 0 s
  = (Raise ZeroDivisionError, MkSt (session s) (trace s ++ [EvPrintEpoch e])).
Proof. done. Qed.

Lemma quiet_print_average (e : Z) (curr_loss : Loss) (batches : Z) :
  quiet (print_average e curr_loss batches).
Proof.
  unfold print_average. apply quiet_bind; [by apply quiet_emit|]. intros _.
  destruct (batches =? 0); [apply quiet_raise | by apply quiet_emit].
Qed.

Lemma NN_fit_epoch_no_position (m : NNDual) (chunk_size e : Z) (s : St Session Loss) :
  NN_positions m chunk_size = Ok [] ->
  NN_fit_epoch m chunk_size e s
  = (Raise ZeroDivisionError, MkSt (session s) (trace s ++ [EvPrintEpoch e])).
Proof. intros H. unfold NN_fit_epoch. by rewrite H. Qed.

Lemma RNN_fit_epoch_no_position (m : RNNDual) (chunk_size : Z) (z : list Z)
    (losses : Loss * Loss * Loss) (e : Z) (s : St Session Loss) :
  RNN_positions m chunk_size = Ok [] ->
  RNN_fit_epoch m chunk_size z losses e s
  = (Raise ZeroDivisionError, MkSt (session s) (trace s ++ [EvPrintEpoch e])).
Proof. intros H. unfold RNN_fit_epoch. by rewrite H. Qed.

Lemma RC_fit_epoch_no_position (m : RNNClassifier) (chunk_size e : Z)
    (s : St Session Loss) :
  RC_positions m chunk_size = Ok [] ->
  RC_fit_epoch m chunk_size e s
  = (Raise ZeroDivisionError, MkSt (session s) (trace s ++ [EvPrintEpoch e])).
Proof. intros H. unfold RC_fit_epoch. by rewrite H. Qed.

Lemma NN_fit_no_position (m : NNDual) (chunk_size : Z) (s : St Session Loss) :
  0 < nn_epochs m -> NN_positions m chunk_size = Ok [] ->
  NN_fit m chunk_size s
  = (Raise ZeroDivisionError, MkSt (session s) (trace s ++ [EvPrintEpoch 0])).
Proof.
  intros He Hp. unfold NN_fit.
  destruct (py_range_epochs (nn_epochs m) He) as [es ->].
  rewrite bind_lift_Ok. cbn [forM]. rewrite bind_run.
  by rewrite NN_fit_epoch_no_position.
Qed.

Lemma RNN_fit_no_position (m : RNNDual) (chunk_size : Z) (s : St Session Loss) :
  0 < rnn_epochs m -> 0 <= rnn_bsz m -> RNN_positions m chunk_size = Ok [] ->
  RNN_fit m chunk_size s
  = (Raise ZeroDivisionError, MkSt (session s) (trace s ++ [EvPrintEpoch 0])).
Proof.
  intros He Hb Hp. unfold RNN_fit.
  rewrite np_zeros_nonneg by done. rewrite bind_lift_Ok.
  destruct (py_range_epochs (rnn_epochs m) He) as [es ->].
  rewrite bind_lift_Ok. rewrite bind_run. cbn [forM]. rewrite bind_run.
  by rewrite RNN_fit_epoch_no_position.
Qed.

Lemma RC_fit_no_position (m : RNNClassifier) (chunk_size : Z) (s : St Session Loss) :
  0 < rc_epochs m -> RC_positions m chunk_size = Ok [] ->
  RC_fit m chunk_size s
  = (Raise ZeroDivisionError, MkSt (session s) (trace s ++ [EvPrintEpoch 0])).
Proof.
  intros He Hp. unfold RC_fit.
  destruct (py_range_epochs (rc_epochs m) He) as [es ->].
  rewrite bind_lift_Ok. cbn [forM]. rewrite bind_run.
  by rewrite RC_fit_epoch_no_position.
Qed.

Lemma NN_positions_small (m : NNDual) (chunk_size : Z) :
  0 < nn_bsz m -> 0 <= chunk_size <= nn_bsz m -> NN_positions m chunk_size = Ok [].
Proof.
  intros Hb Hc. unfold NN_positions. apply positions_small; [done|].
  pose proof (py_prefix_len (pl_get (nn_train_x m) L0) chunk_size). lia.
Qed.

Lemma RC_positions_small (m : RNNClassifier) (chunk_size : Z) :
  0 < rc_bsz m -> 0 <= chunk_size <= rc_bsz m -> RC_positions m chunk_size = Ok [].
Proof.
  intros Hb Hc. unfold RC_positions. apply positions_small; [done|].
  pose proof (py_prefix_len (rc_train_x m) chunk_size). lia.
Qed.

(** *** [chunk_size] = 0 *)

(** an epoch whose positions are none, or whose [range] raises *)
Lemma quiet_epoch {A : Type} (ps : result (list (Z * Z)))
    (k : list (Z * Z) -> M A) :
  ps = Ok [] \/ ps = Raise ValueError -> quiet (k []) -> quiet (lift ps ≫= k).
Proof.
  intros [->| ->] Hk s.
  - rewrite bind_lift_Ok. apply Hk.
  - rewrite bind_lift_Raise. apply (quiet_raise ValueError s).
Qed.

Lemma NN_fit_chunk_zero (m : NNDual) : quiet (NN_fit m 0).
Proof.
  unfold NN_fit. apply quiet_bind; [apply quiet_lift|]. intros es.
  apply quiet_forM. intros [] e _. unfold NN_fit_epoch.
  apply quiet_epoch.
  - unfold NN_positions. rewrite py_prefix_zero. apply positions_zero.
  - apply quiet_bind; [apply quiet_ret|]. intros [curr_loss batches].
    apply quiet_print_average.
Qed.

Lemma RNN_fit_chunk_zero (m : RNNDual) : quiet (RNN_fit m 0).
Proof.
  unfold RNN_fit. apply quiet_bind; [apply quiet_lift|]. intros z.
  apply quiet_bind; [apply quiet_lift|]. intros es.
  apply quiet_bind; [|intros; apply quiet_ret].
  apply quiet_forM. intros losses e _. unfold RNN_fit_epoch.
  apply quiet_epoch.
  - apply positions_zero.
  - apply quiet_bind; [apply quiet_ret|]. intros [[curr_loss batches] losses'].
    apply quiet_bind; [apply quiet_print_average | intros; apply quiet_ret].
Qed.

Lemma RC_fit_chunk_zero (m : RNNClassifier) : quiet (RC_fit m 0).
Proof.
  unfold RC_fit. apply quiet_bind; [apply quiet_lift|]. intros es.
  apply quiet_forM. intros [] e _. unfold RC_fit_epoch.
  apply quiet_epoch.
  - unfold RC_positions. rewrite py_prefix_zero. apply positions_zero.
  - apply quiet_bind; [apply quiet_ret|]. intros [curr_loss batches].
    apply quiet_print_average.
Qed.

(** C8: for every model of the three variants and every state of the
    session, [fit] with [chunk_size] = 0 performs no training step and
    leaves every model parameter at the value it had before the call; the
    call never reaches [session.run], so the whole session is left as it
    was. *)
Theorem fit_chunk_zero_trains_nothing (s : St Session Loss) :
  (forall m : NNDual,
     session (NN_fit m 0 s).2 = session s /\ nothing_trained s (NN_fit m 0 s).2)
  /\ (forall m : RNNDual,
        session (RNN_fit m 0 s).2 = session s /\ nothing_trained s (RNN_fit m 0 s).2)
  /\ (forall m : RNNClassifier,
        session (RC_fit m 0 s).2 = session s /\ nothing_trained s (RC_fit m 0 s).2).
Proof.
  split; [|split]; intros m.
  - apply quiet_nothing_trained, NN_fit_chunk_zero.
  - apply quiet_nothing_trained, RNN_fit_chunk_zero.
  - apply quiet_nothing_trained, RC_fit_chunk_zero.
Qed.

(** C10, as amended: in every variant, a call to [fit] that runs at least
    one epoch and visits no minibatch position performs no optimizer
    step (the session is returned as it was, the trace gains the text of
    the first line only) and raises [ZeroDivisionError] at the average of
    the first epoch; this is the case whenever [batch_size] is positive
    and [chunk_size] lies between 0 and [batch_size]. *)
Theorem fit_no_position_divides_by_zero (chunk_size : Z) (s : St Session Loss) :
  let failed := (Raise ZeroDivisionError,
                 MkSt (session s) (trace s ++ [EvPrintEpoch 0])) in
  (forall m : NNDual,
     (0 < nn_epochs m -> NN_positions m chunk_size = Ok [] ->
      NN_fit m chunk_size s = failed)
     /\ (0 < nn_bsz m -> 0 <= chunk_size <= nn_bsz m ->
         NN_positions m chunk_size = Ok []))
  /\ (forall m : RNNDual,
        (0 < rnn_epochs m -> 0 <= rnn_bsz m -> RNN_positions m chunk_size = Ok [] ->
         RNN_fit m chunk_size s = failed)
        /\ (0 < rnn_bsz m -> 0 <= chunk_size <= rnn_bsz m ->
            RNN_positions m chunk_size = Ok []))
  /\ (forall m : RNNClassifier,
        (0 < rc_epochs m -> RC_positions m chunk_size = Ok [] ->
         RC_fit m chunk_size s = failed)
        /\ (0 < rc_bsz m -> 0 <= chunk_size <= rc_bsz m ->
            RC_positions m chunk_size = Ok [])).
Proof.
  intros failed. split; [|split]; intros m; split.
  - apply NN_fit_no_position.
  - apply NN_positions_small.
  - apply RNN_fit_no_position.
  - intros Hb Hc. apply positions_small; lia.
  - apply RC_fit_no_position.
  - apply RC_positions_small.
Qed.

End NoPosition.

(** ** The loss a level that has run out of data adds to the total *)

Section RunOut.

Context `{E : Engine}.

Lemma NN_fit_level_exhausted (m : NNDual) (k : level) (start stop : Z)
    (s : St Session Loss) :
  py_len (pl_get (nn_train_x m) k) <= stop ->
  NN_fit_level m k start stop s = (Ok loss_zero, s).
Proof.
  intros H. unfold NN_fit_level.
  by destruct (Z.ltb_spec stop (py_len (pl_get (nn_train_x m) k))); [lia|].
Qed.

Lemma NN_fit_level_zero (m : NNDual) (Q : event Loss -> Prop) (l : level)
    (start stop : Z) :
  (forall op fd, Q (EvTrain op fd)) ->
  spec Q (fun a => py_len (pl_get (nn_train_x m) l) <= stop -> a = loss_zero)
       (NN_fit_level m l start stop).
Proof.
  intros HQ. unfold NN_fit_level.
  destruct (Z.ltb_spec stop (py_len (pl_get (nn_train_x m) l))); [|by apply spec_ret].
  apply (spec_bind _ (fun _ => True)); [by apply spec_lift|]. intros lvl_y _.
  eapply spec_weaken; [by apply spec_sess_train|]. intros a _ Hle. lia.
Qed.

(** in [NNDual.fit], at every position and in every epoch, a level that
    has run out of data adds exactly zero *)
Lemma NN_fit_exhausted_adds_zero (m : NNDual) (chunk_size : Z) :
  spec (exhausted_adds_zero (fun k => py_len (pl_get (nn_train_x m) k)))
       (fun _ => True) (NN_fit m chunk_size).
Proof.
  unfold NN_fit.
  apply (spec_bind _ (fun _ => True)); [by apply spec_lift|]. intros es _.
  apply spec_forM; [done|]. intros [] e _ _. unfold NN_fit_epoch.
  apply (spec_bind _ (fun _ => True)); [by apply spec_lift|]. intros ps _.
  apply (spec_bind _ (fun _ => True)).
  - apply spec_forM; [done|]. intros [curr_loss batches] [start stop] _ _.
    unfold NN_fit_position.
    eapply spec_bind; [by apply NN_fit_level_zero|]. intros l0 H0.
    eapply spec_bind; [by apply NN_fit_level_zero|]. intros l1 H1.
    eapply spec_bind; [by apply NN_fit_level_zero|]. intros l2 H2.
    apply (spec_bind _ (fun _ => True)); [|intros; by apply spec_ret].
    apply spec_emit; [|done]. intros k Hk. destruct k; simpl; auto.
  - intros [curr_loss batches] _. by apply print_average_spec.
Qed.

(** in [RNNDual.fit], a level that has run out of data keeps the loss of
    its last step and adds it again *)
Lemma RNN_fit_level_exhausted (m : RNNDual) (z : list Z) (k : level)
    (start stop : Z) (prev : Loss) (s : St Session Loss) :
  py_len (pl_get (rnn_train_x m) k) <= stop ->
  RNN_fit_level m z k start stop prev s = (Ok prev, s).
Proof.
  intros H. unfold RNN_fit_level.
  by destruct (Z.ltb_spec stop (py_len (pl_get (rnn_train_x m) k))); [lia|].
Qed.

End RunOut.

(** C1 fails in [RNNDual.fit]: with 48 examples for L0, 20 for L1, a batch
    size of 16 and [chunk_size] = 48, the position with end index 32 lies
    beyond the data of L1, yet the summand of L1 recorded there is 2, the
    loss of the step L1 took at the position before, and not zero.  On
    the same input [NNDual.fit] adds 0 for L1. *)
Theorem RNN_fit_adds_stale_loss :
  exists (m : RNNDual) (m' : NNDual),
    RNNDual_init elements std_order (sample_corpus 48) (sample_corpus 20) (sample_corpus 5)
                 sample_commands sample_commands sample_commands 1 16 = Ok m
    /\ NNDual_init elements std_order (sample_corpus 48) (sample_corpus 20) (sample_corpus 5)
                   sample_commands sample_commands sample_commands 1 16 = Ok m'
    /\ py_len (pl_get (rnn_train_x m) L1) = 20
    /\ EvAccum 0 16 32 3 2 0
         ∈ trace (@RNN_fit toy_engine m 48 (MkSt 0%nat [])).2
    /\ EvAccum 0 16 32 3 0 0
         ∈ trace (@NN_fit toy_engine m' 48 (MkSt 0%nat [])).2.
Proof.
  eexists. eexists.
  split; [vm_compute; reflexivity|].
  split; [vm_compute; reflexivity|].
  split; [vm_compute; reflexivity|].
  split.
  - apply (list_elem_of_lookup_2 _ 4). vm_compute. reflexivity.
  - apply (list_elem_of_lookup_2 _ 4). vm_compute. reflexivity.
Qed.

(** ** Two-stage scoring *)

Section Scoring.

Context `{E : Engine}.
Hypothesis prob_leb_total : forall x y, prob_leb x y = true \/ prob_leb y x = true.
Hypothesis prob_leb_trans :
  forall x y z, prob_leb x y = true -> prob_leb y z = true -> prob_leb x z = true.

Lemma argmax_from_spec (l pre : list Prob) (best_i : nat) (best : Prob) :
  pre !! best_i = Some best ->
  (forall j y, pre !! j = Some y -> prob_leb y best = true) ->
  (forall j y, (j < best_i)%nat -> pre !! j = Some y -> prob_leb best y = false) ->
  is_first_max (pre ++ l) (argmax_from best_i best (length pre) l).
Proof using prob_leb_total prob_leb_trans.
  revert pre best_i best.
  induction l as [|x l IH]; intros pre best_i best Hbest Hall Hfirst.
  - rewrite app_nil_r. by exists best.
  - cbn [argmax_from]. rewrite cons_middle, app_assoc.
    replace (S (length pre)) with (length (pre ++ [x]))
      by (rewrite length_app; simpl; lia).
    assert (Hlt : (best_i < length pre)%nat) by by eapply lookup_lt_Some.
    destruct (prob_leb x best) eqn:Hx.
    + apply IH.
      * by rewrite lookup_app_l.
      * intros j y Hy. apply lookup_app_Some in Hy as [Hy|[_ Hy]]; [by eapply Hall|].
        apply list_lookup_singleton_Some in Hy as [_ <-]. done.
      * intros j y Hj Hy. rewrite lookup_app_l in Hy by lia. by eapply Hfirst.
    + assert (Hbx : prob_leb best x = true).
      { destruct (prob_leb_total best x) as [H|H]; [done | congruence]. }
      apply IH.
      * by rewrite list_lookup_middle.
      * intros j y Hy. apply lookup_app_Some in Hy as [Hy|[_ Hy]].
        -- eapply prob_leb_trans; [by eapply Hall | done].
        -- apply list_lookup_singleton_Some in Hy as [_ <-].
           by destruct (prob_leb_total x x).
      * intros j y Hj Hy. rewrite lookup_app_l in Hy by done.
        destruct (prob_leb x y) eqn:Hxy; [|done].
        rewrite (prob_leb_trans x y best Hxy) in Hx; [done | by eapply Hall].
Qed.

Lemma np_argmax_spec (row : list Prob) :
  row <> [] -> exists i, np_argmax row = Ok i /\ is_first_max row i.
Proof using prob_leb_total prob_leb_trans.
  destruct row as [|x l]; [done|]. intros _. eexists. split; [done|].
  apply (argmax_from_spec l [x] 0%nat x); [done| |].
  - intros j y Hy. apply list_lookup_singleton_Some in Hy as [_ <-].
    by destruct (prob_leb_total x x).
  - intros j y Hj. lia.
Qed.

Lemma argmax_one_row (row : list Prob) :
  row <> [] ->
  exists i, (am ← np_argmax_axis1 [row]; unpack1 am) = Ok i /\ is_first_max row i.
Proof using prob_leb_total prob_leb_trans.
  intros Hrow. destruct (np_argmax_spec row Hrow) as (i & Hi & Hmax).
  exists i. split; [|done]. cbn [np_argmax_axis1]. by rewrite Hi.
Qed.

Lemma py_index_Some {A : Type} (l : list A) (i : nat) (x : A) :
  l !! i = Some x -> py_index l i = Ok x.
Proof using Type. intros H. unfold py_index. by rewrite H. Qed.

Lemma is_first_max_lookup (row : list Prob) (i : nat) :
  is_first_max row i -> exists x, row !! i = Some x.
Proof using Type. intros (x & Hx & _). eauto. Qed.

Lemma score_level_run (commands : command_set) (t : probs_tensor) (fd : feed)
    (lvl_row y_row : list Prob) (pred_level : nat) (q : Prob)
    (s : St Session Loss) (s2 : Session) :
  run_probs t fd (session s) = (Ok [y_row], s2) ->
  y_row <> [] ->
  lvl_row !! pred_level = Some q ->
  exists pred_command p,
    is_first_max y_row pred_command
    /\ y_row !! pred_command = Some p
    /\ forall command,
         commands !! pred_command = Some command ->
         score_level commands t fd [lvl_row] pred_level s
         = (Ok (command, p, pred_level, q), MkSt s2 (trace s)).
Proof using prob_leb_total prob_leb_trans.
  intros Hrun Hrow Hq.
  destruct (argmax_one_row y_row Hrow) as (pc & Hpc & Hmax).
  destruct (is_first_max_lookup _ _ Hmax) as [p Hp].
  exists pc, p. split; [done|]. split; [done|]. intros command Hc.
  unfold score_level. rewrite bind_run. unfold sess_probs at 1. rewrite Hrun.
  rewrite Hpc, bind_lift_Ok.
  rewrite (py_index_Some commands pc command Hc), bind_lift_Ok.
  rewrite (py_index_Some [y_row] 0 y_row eq_refl), bind_lift_Ok.
  rewrite (py_index_Some y_row pc p Hp), bind_lift_Ok.
  rewrite (py_index_Some [lvl_row] 0 lvl_row eq_refl), bind_lift_Ok.
  rewrite (py_index_Some lvl_row pred_level q Hq), bind_lift_Ok. done.
Qed.

Lemma score_dual_two_stage (lvl_dict : per_level lvl_entry) (fd : feed)
    (s : St Session Loss) :
  two_stage lvl_dict fd s (score_dual lvl_dict fd s).
Proof using prob_leb_total prob_leb_trans.
  intros lvl_row s1 Hrun Hrow.
  destruct (argmax_one_row lvl_row Hrow) as (pl & Hpl & Hmax).
  destruct (is_first_max_lookup _ _ Hmax) as [q Hq].
  exists pl, q. split; [done|]. split; [done|].
  assert (Hstart : score_dual lvl_dict fd s
    = match pl with
      | 0%nat => score_level (lvl_commands (at_L0 lvl_dict)) l0_probs fd [lvl_row] pl
      | 1%nat => score_level (lvl_commands (at_L1 lvl_dict)) l1_probs fd [lvl_row] pl
      | 2%nat => score_level (lvl_commands (at_L2 lvl_dict)) l2_probs fd [lvl_row] pl
      | _ => raise UnicodeError
      end (MkSt s1 (trace s))).
  { unfold score_dual. rewrite bind_run. unfold sess_probs at 1. rewrite Hrun.
    by rewrite Hpl, bind_lift_Ok. }
  split.
  - intros Hbig. rewrite Hstart.
    destruct pl as [|[|[|pl]]]; [lia|lia|lia|done].
  - intros l Hl y_row s2 Hrun2 Hrow2. rewrite Hstart.
    destruct l; simpl in Hl.
    + replace pl with 0%nat in * by lia.
      apply (score_level_run _ l0_probs fd lvl_row y_row 0 q (MkSt s1 (trace s)) s2);
        done.
    + replace pl with 1%nat in * by lia.
      apply (score_level_run _ l1_probs fd lvl_row y_row 1 q (MkSt s1 (trace s)) s2);
        done.
    + replace pl with 2%nat in * by lia.
      apply (score_level_run _ l2_probs fd lvl_row y_row 2 q (MkSt s1 (trace s)) s2);
        done.
Qed.

(** C4: for every tokenized input whose vector is built, once the
    level-selector answers one non-empty row, [score] takes the first
    position of its greatest entry as the predicted level; for a level
    in 0, 1, 2 it runs that level's head only, takes the first position
    of the greatest entry of its row as the command id and returns the
    tuple (command tokens at that id, probability at that id, predicted
    level, level-selector probability at that level); for a predicted
    level above 2 it raises an error.  Holds for [NNDual.score] and
    [RNNDual.score]. *)
Theorem score_two_stage (nl_command : list string) (seq : list Z)
    (s : St Session Loss) :
  (forall m : NNDual,
     NN_input m nl_command = Ok seq ->
     two_stage (nn_lvl_dict m) (score_feed seq None) s (NN_score m nl_command s))
  /\ (forall m : RNNDual,
        RNN_input m nl_command = Ok seq ->
        two_stage (rnn_lvl_dict m) (score_feed seq (Some [py_len nl_command])) s
                  (RNN_score m nl_command s)).
Proof using prob_leb_total prob_leb_trans.
  split; intros m Hseq.
  - unfold NN_score. rewrite Hseq, bind_lift_Ok. apply score_dual_two_stage.
  - unfold RNN_score. rewrite Hseq, bind_lift_Ok. apply score_dual_two_stage.
Qed.

End Scoring.

(** the input vector of [score] is always built on a model whose ids lie
    inside the vocabulary: an unknown word counts for [UNK_ID] *)
Lemma histogram_loop_Ok (idx : string -> nat) (nl : list string) (nvec : list Z) :
  (forall w, (idx w < length nvec)%nat) ->
  exists v, foldM (fun nvec w => np_incr nvec (idx w)) nvec nl = Ok v
            /\ length v = length nvec.
Proof.
  intros Hidx. revert nvec Hidx.
  induction nl as [|w nl IH]; intros nvec Hidx; [by exists nvec|].
  destruct (lookup_lt_is_Some_2 nvec (idx w) (Hidx w)) as [c Hc].
  destruct (IH (<[idx w := int32 (c + 1)]> nvec)) as (v & Hv & Hlen).
  { intros w'. rewrite length_insert. apply Hidx. }
  exists v. split.
  - cbn [foldM]. rewrite (np_incr_Some nvec (idx w) c) by done. exact Hv.
  - by rewrite Hlen, length_insert.
Qed.

Lemma NN_input_Ok (m : NNDual) (nl_command : list string) :
  (UNK_ID < size (nn_word2id m))%nat ->
  (forall w k, nn_word2id m !! w = Some k -> (k < size (nn_word2id m))%nat) ->
  exists seq, NN_input m nl_command = Ok seq.
Proof.
  intros Hunk Hids. unfold NN_input. rewrite np_zeros_of_nat. simpl.
  destruct (histogram_loop_Ok (fun w => py_get (nn_word2id m) w UNK_ID) nl_command
              (replicate (size (nn_word2id m)) 0)) as (v & Hv & _); [|eauto].
  intros w. rewrite length_replicate. unfold py_get.
  destruct (nn_word2id m !! w) as [k|] eqn:Hk; [by eapply Hids | done].
Qed.

Lemma RNN_input_Ok (m : RNNDual) (nl_command : list string) :
  0 <= rnn_max_len m -> exists seq, RNN_input m nl_command = Ok seq.
Proof.
  intros Hmax. unfold RNN_input. rewrite np_zeros_nonneg by done. simpl.
  destruct (fill_ids_spec int32 (rnn_word2id m) nl_command
              (Z.to_nat (Z.min (py_len nl_command) (rnn_max_len m)))
              (replicate (Z.to_nat (rnn_max_len m)) 0)) as (seq & Hseq & _).
  - unfold py_len. lia.
  - rewrite length_replicate. lia.
  - eauto.
Qed.

(** ** Scoring is a query *)

Section Query.

Context `{E : Engine}.
(** a forward pass writes no variable *)
Hypothesis probs_frame :
  forall t fd se, params_of (run_probs t fd se).2 = params_of se.
(** with dropout switched off ([keep_prob] = 1.0) the fetched
    probabilities are a function of the feed and of the variables *)
Hypothesis probs_deterministic :
  forall t fd se se',
    fd_keep_prob fd = 1%Q -> params_of se = params_of se' ->
    (run_probs t fd se).1 = (run_probs t fd se').1.

Lemma pure_ret {A : Type} (a : A) : pure_query (mret a : M A).
Proof using Type. by intros s s' H. Qed.

Lemma pure_raise {A : Type} (e : exn) : pure_query (raise e : M A).
Proof using Type. by intros s s' H. Qed.

Lemma pure_lift {A : Type} (r : result A) : pure_query (lift r).
Proof using Type. by intros s s' H. Qed.

Lemma pure_bind {A B : Type} (m : M A) (f : A -> M B) :
  pure_query m -> (forall a, pure_query (f a)) -> pure_query (m ≫= f).
Proof using Type.
  intros Hm Hf s s' Hs. rewrite !bind_run.
  destruct (Hm s s' Hs) as (Hr & Hp & Ht).
  destruct (Hm s' s (eq_sym Hs)) as (_ & Hp' & _).
  destruct (m s) as [r s1], (m s') as [r' s1']. simpl in *. subst r'.
  destruct r as [a|e]; [|done].
  destruct (Hf a s1 s1') as (Hr2 & Hp2 & Ht2); [congruence|].
  split; [done|]. split; congruence.
Qed.

Lemma pure_sess_probs (t : probs_tensor) (fd : feed) :
  fd_keep_prob fd = 1%Q -> pure_query (sess_probs t fd).
Proof using probs_frame probs_deterministic.
  intros Hkp s s' Hs. unfold sess_probs.
  pose proof (probs_deterministic t fd (session s) (session s') Hkp Hs) as Hd.
  pose proof (probs_frame t fd (session s)) as Hf.
  destruct (run_probs t fd (session s)) as [r se].
  destruct (run_probs t fd (session s')) as [r' se']. by simpl in *.
Qed.

Lemma pure_score_level (commands : command_set) (t : probs_tensor) (fd : feed)
    (lvl : list (list Prob)) (pred_level : nat) :
  fd_keep_prob fd = 1%Q -> pure_query (score_level commands t fd lvl pred_level).
Proof using probs_frame probs_deterministic.
  intros Hkp. unfold score_level.
  apply pure_bind; [by apply pure_sess_probs|]. intros y.
  repeat (apply pure_bind; [apply pure_lift|]; intros ?).
  apply pure_ret.
Qed.

Lemma pure_score_dual (lvl_dict : per_level lvl_entry) (fd : feed) :
  fd_keep_prob fd = 1%Q -> pure_query (score_dual lvl_dict fd).
Proof using probs_frame probs_deterministic.
  intros Hkp. unfold score_dual.
  apply pure_bind; [by apply pure_sess_probs|]. intros lvl.
  apply pure_bind; [apply pure_lift|]. intros pred_level.
  destruct pred_level as [|[|[|n]]];
    [by apply pure_score_level.. | apply pure_raise].
Qed.

Lemma pure_NN_score (m : NNDual) (nl_command : list string) :
  pure_query (NN_score m nl_command).
Proof using probs_frame probs_deterministic.
  unfold NN_score. apply pure_bind; [apply pure_lift|]. intros seq.
  by apply pure_score_dual.
Qed.

Lemma pure_RNN_score (m : RNNDual) (nl_command : list string) :
  pure_query (RNN_score m nl_command).
Proof using probs_frame probs_deterministic.
  unfold RNN_score. apply pure_bind; [apply pure_lift|]. intros seq.
  by apply pure_score_dual.
Qed.

(** C9: two calls of [NNDual.score] in a row on the same input return
    the same output (value or exception), and neither changes a model
    parameter.  The engine is assumed to write no variable in a forward
    pass and to compute, with dropout off, probabilities that depend on
    the feed and the variables only. *)
Theorem score_twice_same_output (m : NNDual) (nl_command : list string)
    (s : St Session Loss) :
  let first := NN_score m nl_command s in
  let second := NN_score m nl_command first.2 in
  first.1 = second.1
  /\ params_of (session first.2) = params_of (session s)
  /\ params_of (session second.2) = params_of (session s).
Proof using probs_frame probs_deterministic.
  intros first second.
  destruct (pure_NN_score m nl_command s s eq_refl) as (_ & Hp & _).
  destruct (pure_NN_score m nl_command s first.2) as (Hr & _ & _).
  { symmetry. exact Hp. }
  destruct (pure_NN_score m nl_command first.2 first.2 eq_refl) as (_ & Hp2 & _).
  split; [exact Hr|]. split; [exact Hp|]. exact (eq_trans Hp2 Hp).
Qed.

End Query.

(** ** Inputs longer than the fitted maximum length *)

Lemma foldM_ext {A B : Type} (f g : A -> B -> result A) (acc : A) (l : list B) :
  (forall a x, x ∈ l -> f a x = g a x) -> foldM f acc l = foldM g acc l.
Proof.
  revert acc. induction l as [|x l IH]; intros acc H; [done|].
  simpl. rewrite H by left. destruct (g acc x); [|done].
  simpl. apply IH. intros a' y Hy. apply H. by right.
Qed.

(** the loop reads the first [count] tokens only *)
Lemma fill_ids_take (cast : Z -> Z) (word2id : gmap string nat) (nvec : list Z)
    (nl : list string) (count k : nat) :
  (count <= k)%nat ->
  fill_ids cast word2id nvec (take k nl) count = fill_ids cast word2id nvec nl count.
Proof.
  intros Hk. unfold fill_ids. apply foldM_ext. intros a i Hi.
  apply elem_of_seq in Hi. unfold py_index.
  by rewrite lookup_take_lt by lia.
Qed.

Lemma py_len_take_long {A : Type} (l : list A) (n : Z) :
  0 <= n < py_len l -> py_len (take (Z.to_nat n) l) = n.
Proof. unfold py_len. intros H. rewrite length_take. lia. Qed.

Lemma RNN_input_truncated (m : RNNDual) (nl_command : list string) :
  0 <= rnn_max_len m < py_len nl_command ->
  exists seq,
    RNN_input m nl_command = Ok seq
    /\ RNN_input m (take (Z.to_nat (rnn_max_len m)) nl_command) = Ok seq
    /\ py_len seq = rnn_max_len m.
Proof.
  intros Hlong. unfold RNN_input.
  rewrite py_len_take_long by done.
  rewrite np_zeros_nonneg by lia. simpl.
  rewrite Z.min_id, Z.min_r by lia.
  rewrite fill_ids_take by done.
  destruct (fill_ids_spec int32 (rnn_word2id m) nl_command
              (Z.to_nat (rnn_max_len m))
              (replicate (Z.to_nat (rnn_max_len m)) 0)) as (seq & Hseq & Hlen & _).
  { unfold py_len in Hlong. lia. }
  { by rewrite length_replicate. }
  exists seq. split; [done|]. split; [done|].
  unfold py_len. rewrite Hlen, length_replicate. lia.
Qed.

Lemma RC_input_truncated (m : RNNClassifier) (nl_command : list string) (mx : Z) :
  py_max (rc_lengths m) = Ok mx ->
  0 <= mx < py_len nl_command ->
  exists seq,
    RC_input m nl_command = Ok seq
    /\ RC_input m (take (Z.to_nat mx) nl_command) = Ok seq
    /\ py_len seq = mx.
Proof.
  intros Hmx Hlong. unfold RC_input. rewrite Hmx. simpl.
  rewrite py_len_take_long by done.
  rewrite np_zeros_nonneg by lia. simpl.
  assert (Hw : py_len (replicate (Z.to_nat mx) 0) = mx).
  { unfold py_len. rewrite length_replicate. lia. }
  rewrite Hw, Z.min_id, Z.min_r by lia.
  rewrite fill_ids_take by done.
  destruct (fill_ids_spec float64 (rc_word2id m) nl_command (Z.to_nat mx)
              (replicate (Z.to_nat mx) 0)) as (seq & Hseq & Hlen & _).
  { unfold py_len in Hlong. lia. }
  { by rewrite length_replicate. }
  exists seq. split; [done|]. split; [done|].
  unfold py_len. rewrite Hlen, length_replicate. lia.
Qed.

Section Truncation.

Context `{E : Engine}.
(** the recurrent encoder unrolls over the time dimension of [X] only: a
    fed sequence length beyond the width of the row acts as the width *)
Hypothesis length_clamped :
  forall t seq n se,
    py_len seq <= n ->
    run_probs t (score_feed seq (Some [n])) se
    = run_probs t (score_feed seq (Some [py_len seq])) se.

Lemma bind_ext {A B : Type} (m m' : M A) (f f' : A -> M B) (s : St Session Loss) :
  m s = m' s -> (forall a s1, f a s1 = f' a s1) -> (m ≫= f) s = (m' ≫= f') s.
Proof using Type.
  intros Hm Hf. rewrite !bind_run, Hm. by destruct (m' s) as [[a|e] s1].
Qed.

Lemma sess_probs_ext (t : probs_tensor) (fd fd' : feed) (s : St Session Loss) :
  (forall t se, run_probs t fd se = run_probs t fd' se) ->
  sess_probs t fd s = sess_probs t fd' s.
Proof using Type. intros H. unfold sess_probs. by rewrite H. Qed.

Lemma score_dual_feed_ext (lvl_dict : per_level lvl_entry) (fd fd' : feed)
    (s : St Session Loss) :
  (forall t se, run_probs t fd se = run_probs t fd' se) ->
  score_dual lvl_dict fd s = score_dual lvl_dict fd' s.
Proof using Type.
  intros H. unfold score_dual.
  apply bind_ext; [by apply sess_probs_ext|]. intros lvl s1.
  apply bind_ext; [done|]. intros pred_level s2.
  destruct pred_level as [|[|[|n]]]; [| | |done];
    (unfold score_level; apply bind_ext; [by apply sess_probs_ext | done]).
Qed.

Lemma clamped_feeds (seq : list Z) (n n' : Z) (t : probs_tensor) (se : Session) :
  py_len seq <= n -> py_len seq <= n' ->
  run_probs t (score_feed seq (Some [n])) se
  = run_probs t (score_feed seq (Some [n'])) se.
Proof using length_clamped.
  intros Hn Hn'. by rewrite (length_clamped t seq n), (length_clamped t seq n').
Qed.

(** C6: in the sequence-mode variants, for an input longer than the
    fitted maximum length, building the input vector does not fail, gives
    the vector of the input cut to that length, and [score] returns from
    every state what it returns on the cut input.  The engine is assumed
    to treat a fed sequence length beyond the width of the row as that
    width. *)
Theorem score_truncates_long_input (nl_command : list string) (s : St Session Loss) :
  (forall m : RNNDual,
     0 <= rnn_max_len m < py_len nl_command ->
     let cut := take (Z.to_nat (rnn_max_len m)) nl_command in
     (exists seq, RNN_input m nl_command = Ok seq /\ RNN_input m cut = Ok seq)
     /\ RNN_score m nl_command s = RNN_score m cut s)
  /\ (forall (m : RNNClassifier) (mx : Z),
        py_max (rc_lengths m) = Ok mx ->
        0 <= mx < py_len nl_command ->
        let cut := take (Z.to_nat mx) nl_command in
        (exists seq, RC_input m nl_command = Ok seq /\ RC_input m cut = Ok seq)
        /\ RC_score m nl_command s = RC_score m cut s).
Proof using length_clamped.
  split.
  - intros m Hlong cut.
    destruct (RNN_input_truncated m nl_command Hlong) as (seq & H1 & H2 & Hlen).
    split; [eauto|]. unfold RNN_score. fold cut in H2. rewrite H1, H2, !bind_lift_Ok.
    apply score_dual_feed_ext. intros t se. apply clamped_feeds.
    + lia.
    + unfold cut. rewrite py_len_take_long by done. lia.
  - intros m mx Hmx Hlong cut.
    destruct (RC_input_truncated m nl_command mx Hmx Hlong) as (seq & H1 & H2 & Hlen).
    split; [eauto|]. unfold RC_score. fold cut in H2. rewrite H1, H2, !bind_lift_Ok.
    cbv zeta. apply bind_ext; [|done].
    apply sess_probs_ext. intros t se. apply clamped_feeds.
    + lia.
    + unfold cut. rewrite py_len_take_long by done. lia.
Qed.

End Truncation.

(** * Further properties of the code *)

(** ** Dictionaries built from an enumeration *)

(** in [{f(x): i for (i, x) in enumerate(l)}] a key maps to the last
    position that produces it *)
Lemma py_dict_enumerate_lookup {A : Type} (f : A -> string) (l : list A)
    (k : string) (i : nat) :
  py_dict (imap (fun i x => (f x, i)) l) !! k = Some i
  <-> (exists x, l !! i = Some x /\ f x = k)
      /\ (forall j y, (i < j)%nat -> l !! j = Some y -> f y <> k).
Proof.
  revert i. induction l as [|x l IH] using rev_ind; intros i.
  - simpl. unfold py_dict. simpl. rewrite lookup_empty. split; [done|].
    by intros [(y & Hy & _) _].
  - rewrite imap_app. simpl. rewrite Nat.add_0_r, py_dict_snoc.
    destruct (decide (f x = k)) as [Hk|Hk].
    + rewrite Hk, lookup_insert_eq. split.
      * intros [= <-]. split.
        -- exists x. by rewrite list_lookup_middle.
        -- intros j y Hj Hy. apply lookup_lt_Some in Hy.
           rewrite length_app in Hy. simpl in Hy. lia.
      * intros [(y & Hy & Hfy) Hlast]. f_equal.
        assert (Hi : (i < length (l ++ [x]))%nat) by by eapply lookup_lt_Some.
        rewrite length_app in Hi. simpl in Hi.
        destruct (decide (i = length l)) as [->|Hne]; [done|]. exfalso.
        apply (Hlast (length l) x); [lia| |done]. by rewrite list_lookup_middle.
    + rewrite lookup_insert_ne by done. rewrite IH. split.
      * intros [(y & Hy & Hfy) Hlast]. split.
        -- exists y. split; [|done]. by apply lookup_app_l_Some.
        -- intros j z Hj Hz. apply lookup_app_Some in Hz as [Hz|[_ Hz]].
           ++ by eapply Hlast.
           ++ apply list_lookup_singleton_Some in Hz as [_ <-]. done.
      * intros [(y & Hy & Hfy) Hlast].
        apply lookup_app_Some in Hy as [Hy|[_ Hy]].
        -- split; [eauto|]. intros j z Hj Hz. apply (Hlast j z Hj).
           by apply lookup_app_l_Some.
        -- apply list_lookup_singleton_Some in Hy as [_ <-]. done.
Qed.

(** X1: the label dictionary [{" ".join(x): i for (i, x) in
    enumerate(commands)}] maps a string to the last position of a command
    that joins to it; when the joined commands are pairwise distinct,
    every command is mapped to its own position. *)
Theorem make_labels_last_position (commands : command_set) :
  (forall k i,
     make_labels commands !! k = Some i
     <-> (exists c, commands !! i = Some c /\ join_tokens c = k)
         /\ (forall j c', (i < j)%nat -> commands !! j = Some c' ->
                          join_tokens c' <> k))
  /\ (NoDup (join_tokens <$> commands) ->
      forall i c, commands !! i = Some c ->
                  make_labels commands !! join_tokens c = Some i).
Proof.
  split.
  - intros k i. apply py_dict_enumerate_lookup.
  - intros Hnd i c Hc. apply py_dict_enumerate_lookup. split; [eauto|].
    intros j c' Hj Hc' Heq.
    assert (i = j); [|lia].
    eapply (NoDup_lookup _ i j (join_tokens c) Hnd).
    + by rewrite list_lookup_fmap, Hc.
    + rewrite list_lookup_fmap, Hc'. simpl. by rewrite Heq.
Qed.

(** ** Vocabularies, with or without reserved words in the corpus *)

Lemma number_vocabulary_sound (set_list : gset string -> list string)
    (vocab : gset string) (tokens : list string) :
  (forall s, set_list s ≡ₚ elements s) ->
  (forall w, w ∈ vocab <-> w ∈ tokens) ->
  vocabulary_sound tokens (number_vocabulary set_list vocab).1
                          (number_vocabulary set_list vocab).2.
Proof.
  intros Hset Hv. unfold number_vocabulary, vocabulary_sound. cbn [fst snd].
  split; [|split; [|split; [|split]]].
  - intros w k Hk. apply py_dict_elem_of, elem_of_lookup_imap in Hk.
    by destruct Hk as (j & x & [= -> ->] & Hx).
  - intros w. rewrite py_dict_is_Some, word_index_keys.
    change ([PAD; UNK] ++ set_list vocab) with (PAD :: UNK :: set_list vocab).
    rewrite !elem_of_cons, Hset, elem_of_elements, Hv. done.
  - done.
  - done.
  - simpl. rewrite Hset. change (length (elements vocab)) with (size vocab).
    by rewrite (size_token_set vocab tokens).
Qed.

(** X2: the vocabulary of each of the three models, whatever the corpus
    holds: decoding an id gives back the word ([id2word[word2id[w]] = w]),
    exactly the reserved words and the source tokens have an id, and
    [id2word] starts with [PAD], [UNK] and has 2 plus the number of
    distinct source tokens entries. *)
Theorem build_vocabulary_sound
    (set_list : gset string -> list string) (lvl_order : list level) :
  (forall s, set_list s ≡ₚ elements s) ->
  lvl_order ≡ₚ [L0; L1; L2] ->
  (forall lvl_dict,
     vocabulary_sound (all_source_tokens lvl_dict)
       (NN_build_vocabulary set_list lvl_order lvl_dict).1
       (NN_build_vocabulary set_list lvl_order lvl_dict).2
     /\ vocabulary_sound (all_source_tokens lvl_dict)
          (RNN_build_vocabulary set_list lvl_order lvl_dict).1.1.1
          (RNN_build_vocabulary set_list lvl_order lvl_dict).1.1.2)
  /\ (forall pc : corpus,
        vocabulary_sound (source_tokens pc)
          (RC_build_vocabulary set_list pc).1 (RC_build_vocabulary set_list pc).2).
Proof.
  intros Hset Hord. split.
  - intros lvl_dict.
    assert (Hnn : vocabulary_sound (all_source_tokens lvl_dict)
      (NN_build_vocabulary set_list lvl_order lvl_dict).1
      (NN_build_vocabulary set_list lvl_order lvl_dict).2).
    { unfold NN_build_vocabulary. apply number_vocabulary_sound; [done|].
      intros w. by apply NN_collect_vocab_elem_of. }
    split; [done|]. unfold RNN_build_vocabulary.
    pose proof (RNN_scan_corpora_vocab lvl_order lvl_dict) as Hv.
    destruct (RNN_scan_corpora lvl_order lvl_dict) as [[vocab mx] lens].
    simpl in Hv. subst vocab. unfold NN_build_vocabulary in Hnn.
    by destruct (number_vocabulary set_list (NN_collect_vocab lvl_order lvl_dict)).
  - intros pc. unfold RC_build_vocabulary. apply number_vocabulary_sound; [done|].
    intros w. rewrite add_corpus_elem_of. split; [|tauto].
    intros [H|H]; [by apply not_elem_of_empty in H | done].
Qed.

(** X3: the vocabulary of [RNNClassifier] over a corpus without reserved
    words has 2 plus the number of distinct source tokens entries, [PAD]
    at 0, [UNK] at 1, and [word2id] and [id2word] are inverse to each
    other. *)
Theorem RC_build_vocabulary_bijection
    (set_list : gset string -> list string) (pc : corpus) :
  (forall s, set_list s ≡ₚ elements s) ->
  PAD ∉ source_tokens pc ->
  UNK ∉ source_tokens pc ->
  vocabulary_ok (source_tokens pc)
    (RC_build_vocabulary set_list pc).1 (RC_build_vocabulary set_list pc).2.
Proof.
  intros Hset Hpad Hunk. unfold RC_build_vocabulary.
  apply number_vocabulary_ok; try done.
  intros w. rewrite add_corpus_elem_of. split; [|tauto].
  intros [H|H]; [by apply not_elem_of_empty in H | done].
Qed.

(** ** When construction succeeds and how it fails *)

Lemma foldM_Ok_inv {A B : Type} (f : A -> B -> result A) (acc a : A) (l : list B) :
  foldM f acc l = Ok a -> forall x, x ∈ l -> exists a1 a2, f a1 x = Ok a2.
Proof.
  revert acc. induction l as [|y l IH]; intros acc H x Hx.
  - by apply elem_of_nil in Hx.
  - simpl in H. destruct (f acc y) as [acc'|e] eqn:Hy; [|done]. simpl in H.
    apply elem_of_cons in Hx as [->|Hx]; [eauto | by eapply IH].
Qed.

Lemma foldM_Raise_inv {A B : Type} (f : A -> B -> result A) (acc : A) (l : list B)
    (e : exn) :
  foldM f acc l = Raise e -> exists x a, x ∈ l /\ f a x = Raise e.
Proof.
  revert acc. induction l as [|y l IH]; intros acc H; [done|].
  simpl in H. destruct (f acc y) as [acc'|e'] eqn:Hy; simpl in H.
  - destruct (IH acc' H) as (x & a & Hx & Hf). exists x, a. split; [by right|done].
  - injection H as ->. exists y, acc. split; [left|done].
Qed.

Lemma vectorize_level_Ok_inv
    (body : list string * list string -> result (list Z * nat)) (pc : corpus)
    (r : list (list Z) * list nat) :
  vectorize_level body pc = Ok r ->
  forall entry, entry ∈ pc -> exists r', body entry = Ok r'.
Proof.
  intros H entry Hin. unfold vectorize_level in H.
  destruct (foldM_Ok_inv _ _ _ _ H entry Hin) as ([xl yl] & a2 & Hf).
  destruct (body entry) as [r'|e]; [eauto | done].
Qed.

Lemma vectorize_level_Raise_inv
    (body : list string * list string -> result (list Z * nat)) (pc : corpus)
    (e : exn) :
  vectorize_level body pc = Raise e ->
  exists entry, entry ∈ pc /\ body entry = Raise e.
Proof.
  intros H. unfold vectorize_level in H.
  destruct (foldM_Raise_inv _ _ _ _ H) as (entry & [xl yl] & Hin & Hf).
  exists entry. split; [done|].
  destruct (body entry) as [[nvec mlab]|e']; [done | by injection Hf as ->].
Qed.

(** the outcome of vectorizing the three levels: on success the rows and
    labels of each level are the results of the body on its entries, in
    order; a failure is the exception of the body on some entry *)
Lemma vectorize_levels_outcome
    (body : level -> list string * list string -> result (list Z * nat))
    (lvl_dict : per_level lvl_entry) (lvl_order : list level) :
  lvl_order ≡ₚ [L0; L1; L2] ->
  match vectorize_levels lvl_order body lvl_dict with
  | Ok (x, y) =>
      forall lvl, exists rs : list (list Z * nat),
        pl_get x lvl = rs.*1
        /\ pl_get y lvl = np_int32_array rs.*2
        /\ Forall2 (fun entry r => body lvl entry = Ok r)
                   (lvl_pc (pl_get lvl_dict lvl)) rs
  | Raise e =>
      exists lvl entry,
        entry ∈ lvl_pc (pl_get lvl_dict lvl) /\ body lvl entry = Raise e
  end.
Proof.
  intros Hord.
  destruct (vectorize_levels lvl_order body lvl_dict) as [[x y]|e] eqn:Hv.
  - assert (Hall : forall lvl entry, entry ∈ lvl_pc (pl_get lvl_dict lvl) ->
                     exists r, body lvl entry = Ok r).
    { intros lvl entry Hin. unfold vectorize_levels in Hv.
      match type of Hv with
      | (foldM ?F ?acc lvl_order ≫= _) = _ =>
          destruct (foldM F acc lvl_order) as [[x' y']|e'] eqn:Hf; [|done]
      end.
      destruct (foldM_Ok_inv _ _ _ _ Hf lvl) as ([x1 y1] & a2 & Hstep).
      { rewrite Hord. destruct lvl; rewrite !elem_of_cons; auto. }
      destruct (vectorize_level (body lvl) (lvl_pc (pl_get lvl_dict lvl)))
        as [r|e'] eqn:Hl; [|done].
      by eapply vectorize_level_Ok_inv. }
    destruct (vectorize_levels_Ok body lvl_dict lvl_order Hord Hall)
      as (x' & y' & Hv' & Hxy).
    rewrite Hv in Hv'. by injection Hv' as <- <-.
  - unfold vectorize_levels in Hv.
    match type of Hv with
    | (foldM ?F ?acc lvl_order ≫= _) = _ =>
        destruct (foldM F acc lvl_order) as [[x' y']|e'] eqn:Hf; [done|]
    end.
    simpl in Hv. injection Hv as ->.
    destruct (foldM_Raise_inv _ _ _ _ Hf) as (lvl & [x1 y1] & _ & Hstep).
    destruct (vectorize_level (body lvl) (lvl_pc (pl_get lvl_dict lvl)))
      as [[xl yl]|e'] eqn:Hl; [done|].
    simpl in Hstep. injection Hstep as ->.
    destruct (vectorize_level_Raise_inv _ _ _ Hl) as (entry & Hin & Hbody).
    eauto.
Qed.

Lemma np_incr_None (v : list Z) (i : nat) :
  v !! i = None -> np_incr v i = Raise IndexError.
Proof. intros H. unfold np_incr. by rewrite H. Qed.

(** the histogram loop either fills a vector of the same length, all
    slots being in range, or raises [IndexError] at a slot out of range *)
Lemma histogram_loop_outcome (idx : string -> nat) (nl : list string)
    (nvec : list Z) :
  match foldM (fun nvec w => np_incr nvec (idx w)) nvec nl with
  | Ok v => length v = length nvec
            /\ forall w, w ∈ nl -> (idx w < length nvec)%nat
  | Raise e => e = IndexError
               /\ exists w, w ∈ nl /\ (length nvec <= idx w)%nat
  end.
Proof.
  revert nvec. induction nl as [|w nl IH]; intros nvec.
  - simpl. split; [done|]. intros w H. by apply elem_of_nil in H.
  - cbn [foldM]. destruct (nvec !! idx w) as [c|] eqn:Hc.
    + rewrite (np_incr_Some nvec (idx w) c Hc). cbn [mbind result_bind].
      specialize (IH (<[idx w := int32 (c + 1)]> nvec)).
      rewrite length_insert in IH.
      match type of IH with
      | match ?t with _ => _ end => destruct t as [v|e]
      end.
      * destruct IH as [Hlen Hall]. split; [done|].
        intros w' Hw'. apply elem_of_cons in Hw' as [->|Hw'];
          [by eapply lookup_lt_Some | by apply Hall].
      * destruct IH as [-> (w' & Hw' & Hout)]. split; [done|].
        exists w'. split; [by right | done].
    + rewrite (np_incr_None nvec (idx w) Hc). cbn [mbind result_bind].
      split; [done|]. exists w. split; [left|]. by apply lookup_ge_None.
Qed.

(** one entry in bag-of-words mode: a missing label raises [KeyError], a
    word whose id lies outside the vector raises [IndexError] *)
Lemma NN_vectorize_entry_outcome (word2id labels : gmap string nat)
    (nl ml : list string) :
  match NN_vectorize_entry word2id labels (nl, ml) with
  | Ok (v, lab) =>
      labels !! join_tokens ml = Some lab
      /\ length v = size word2id
      /\ forall w, w ∈ nl -> (py_get word2id w UNK_ID < size word2id)%nat
  | Raise e =>
      (e = KeyError /\ labels !! join_tokens ml = None)
      \/ (e = IndexError
          /\ exists w, w ∈ nl /\ (size word2id <= py_get word2id w UNK_ID)%nat)
  end.
Proof.
  unfold NN_vectorize_entry. rewrite np_zeros_of_nat. simpl.
  unfold py_getitem. destruct (labels !! join_tokens ml) as [lab|]; simpl.
  - pose proof (histogram_loop_outcome (fun w => py_get word2id w UNK_ID) nl
                  (replicate (size word2id) 0)) as H.
    rewrite length_replicate in H.
    destruct (foldM _ _ nl) as [v|e]; simpl.
    + by destruct H.
    + right. by destruct H.
  - by left.
Qed.

(** one entry in sequence mode, in a vector wide enough: only a missing
    label can fail *)
Lemma RNN_vectorize_entry_outcome (word2id labels : gmap string nat) (width : Z)
    (nl ml : list string) :
  py_len nl <= width ->
  match RNN_vectorize_entry word2id labels width (nl, ml) with
  | Ok (v, lab) => labels !! join_tokens ml = Some lab /\ py_len v = width
  | Raise e => e = KeyError /\ labels !! join_tokens ml = None
  end.
Proof.
  intros Hwidth. assert (0 <= width) by (unfold py_len in Hwidth; lia).
  unfold RNN_vectorize_entry. rewrite np_zeros_nonneg by done. simpl.
  unfold py_getitem. destruct (labels !! join_tokens ml) as [lab|]; simpl; [|done].
  destruct (fill_ids_spec int32 word2id nl (length nl)
              (replicate (Z.to_nat width) 0)) as (v & Hv & Hlen & _).
  { done. }
  { rewrite length_replicate. unfold py_len in Hwidth. lia. }
  rewrite Hv. simpl. split; [done|].
  unfold py_len. rewrite Hlen, length_replicate. lia.
Qed.

Lemma make_labels_Some (commands : command_set) (k : string) :
  is_Some (make_labels commands !! k) <-> k ∈ join_tokens <$> commands.
Proof. unfold make_labels. by rewrite py_dict_is_Some, enumerate_keys. Qed.

Lemma make_labels_label_of (commands : command_set) (ml : list string) (lab : nat) :
  make_labels commands !! join_tokens ml = Some lab ->
  label_of commands ml (int32 (Z.of_nat lab)).
Proof.
  intros H. apply py_dict_enumerate_lookup in H as [(c & Hc & Hj) _].
  by exists lab, c.
Qed.

Lemma remove_dups_length_le {A : Type} `{EqDecision A} (l : list A) :
  (length (remove_dups l) <= length l)%nat.
Proof.
  induction l as [|x l IH]; [done|]. simpl.
  destruct (decide_rel elem_of x l); simpl; lia.
Qed.

Lemma remove_dups_length_lt {A : Type} `{EqDecision A} (l : list A) :
  ~ NoDup l -> (length (remove_dups l) < length l)%nat.
Proof.
  induction l as [|x l IH]; intros Hnd.
  - destruct Hnd. constructor.
  - simpl. destruct (decide_rel elem_of x l) as [Hin|Hin].
    + pose proof (remove_dups_length_le l). lia.
    + simpl. apply Nat.succ_lt_mono in IH; [done|].
      intros Hl. apply Hnd. by constructor.
Qed.

(** with a reserved word among the tokens, the id of the last word of
    [id2word] is not below the size of [word2id] *)
Lemma reserved_word_out_of_range (set_list : gset string -> list string)
    (vocab : gset string) :
  (forall s, set_list s ≡ₚ elements s) ->
  PAD ∈ vocab \/ UNK ∈ vocab ->
  exists t, t ∈ vocab
    /\ (size (number_vocabulary set_list vocab).1
        <= py_get (number_vocabulary set_list vocab).1 t UNK_ID)%nat.
Proof.
  intros Hset Hres. unfold number_vocabulary. cbn [fst snd].
  assert (Hin : forall w, w ∈ set_list vocab <-> w ∈ vocab).
  { intros w. by rewrite Hset, elem_of_elements. }
  destruct (set_list vocab) as [|t sl _] using rev_ind.
  { destruct Hres as [H|H]; apply Hin in H; by apply elem_of_nil in H. }
  exists t. split.
  { apply Hin. rewrite elem_of_app. right. left. }
  set (id2word := [PAD; UNK] ++ sl ++ [t]).
  assert (Hlast : py_dict (imap (fun i w => (w, i)) id2word) !! t
                  = Some (length id2word - 1)%nat).
  { apply (py_dict_enumerate_lookup (fun w : string => w) id2word). split.
    - exists t. split; [|done]. unfold id2word. rewrite app_assoc.
      replace (length (([PAD; UNK] ++ sl) ++ [t]) - 1)%nat
        with (length ([PAD; UNK] ++ sl)).
      + by rewrite list_lookup_middle.
      + rewrite !length_app. simpl. lia.
    - intros j y Hj Hy. apply lookup_lt_Some in Hy. lia. }
  unfold py_get. rewrite Hlast.
  rewrite py_dict_size, word_index_keys.
  assert (Hdup : ~ NoDup id2word).
  { unfold id2word. simpl. intros Hnd.
    apply NoDup_cons in Hnd as [Hpad Hnd]. apply NoDup_cons in Hnd as [Hunk _].
    destruct Hres as [H|H]; apply Hin in H.
    - apply Hpad. by right.
    - by apply Hunk. }
  pose proof (remove_dups_length_lt id2word Hdup). lia.
Qed.

(** the two ways the construction of [NNDual] can go *)
Lemma NNDual_init_cases
    (set_list : gset string -> list string) (lvl_order : list level)
    (l0_corpus l1_corpus l2_corpus : corpus)
    (l0_commands l1_commands l2_commands : command_set) (epochs batch_size : Z) :
  let lvl_dict := make_lvl_dict l0_corpus l1_corpus l2_corpus
                                l0_commands l1_commands l2_commands in
  (forall s, set_list s ≡ₚ elements s) ->
  lvl_order ≡ₚ [L0; L1; L2] ->
  match NNDual_init set_list lvl_order l0_corpus l1_corpus l2_corpus
                    l0_commands l1_commands l2_commands epochs batch_size with
  | Ok m =>
      (PAD ∉ all_source_tokens lvl_dict)
      /\ (UNK ∉ all_source_tokens lvl_dict)
      /\ targets_joined_known lvl_dict
  | Raise e =>
      (e = KeyError /\ ~ targets_joined_known lvl_dict)
      \/ (e = IndexError
          /\ (PAD ∈ all_source_tokens lvl_dict \/ UNK ∈ all_source_tokens lvl_dict))
  end.
Proof.
  intros lvl_dict Hset Hord. unfold NNDual_init. fold lvl_dict.
  unfold NN_build_vocabulary.
  pose proof (reserved_word_out_of_range set_list
                (NN_collect_vocab lvl_order lvl_dict) Hset) as Hres.
  pose proof (fun Hpad Hunk =>
    number_vocabulary_ok set_list Hset
      (NN_collect_vocab lvl_order lvl_dict) (all_source_tokens lvl_dict)
      (fun w => NN_collect_vocab_elem_of lvl_order Hord lvl_dict w) Hpad Hunk) as Hok.
  destruct (number_vocabulary set_list (NN_collect_vocab lvl_order lvl_dict))
    as [word2id id2word].
  cbn [fst snd] in Hres, Hok.
  pose proof (vectorize_levels_outcome
    (fun lvl => NN_vectorize_entry word2id (lvl_labels (pl_get lvl_dict lvl)))
    lvl_dict lvl_order Hord) as Hout.
  unfold NN_vectorize.
  destruct (vectorize_levels lvl_order _ lvl_dict) as [[x y]|e]; simpl.
  - assert (Hentry : forall lvl nl ml, (nl, ml) ∈ lvl_pc (pl_get lvl_dict lvl) ->
              is_Some (lvl_labels (pl_get lvl_dict lvl) !! join_tokens ml)
              /\ forall w, w ∈ nl -> (py_get word2id w UNK_ID < size word2id)%nat).
    { intros lvl nl ml Hin. destruct (Hout lvl) as (rs & _ & _ & Hall).
      apply list_elem_of_lookup_1 in Hin as [j Hj].
      destruct (Forall2_lookup_l _ _ _ _ _ Hall Hj) as ([v lab] & _ & Hbody).
      pose proof (NN_vectorize_entry_outcome word2id
                    (lvl_labels (pl_get lvl_dict lvl)) nl ml) as Hcase.
      rewrite Hbody in Hcase. destruct Hcase as (Hlab & _ & Hidx). eauto. }
    assert (Hnores : ~ (PAD ∈ NN_collect_vocab lvl_order lvl_dict
                        \/ UNK ∈ NN_collect_vocab lvl_order lvl_dict)).
    { intros Hr. destruct (Hres Hr) as (t & Ht & Hbig).
      apply NN_collect_vocab_elem_of in Ht; [|done].
      apply all_source_tokens_elem_of in Ht as [lvl Ht].
      unfold source_tokens in Ht. apply list_elem_of_join in Ht as (nl & Htnl & Hnl).
      apply list_elem_of_fmap in Hnl as ([nl' ml] & -> & Hin).
      destruct (Hentry lvl nl' ml Hin) as [_ Hidx].
      specialize (Hidx t Htnl). lia. }
    split; [|split].
    + intros H. apply Hnores. left. by apply NN_collect_vocab_elem_of.
    + intros H. apply Hnores. right. by apply NN_collect_vocab_elem_of.
    + intros lvl nl ml Hin. destruct (Hentry lvl nl ml Hin) as [Hlab _].
      unfold lvl_dict in Hlab. rewrite make_lvl_dict_labels in Hlab.
      by apply make_labels_Some.
  - destruct Hout as (lvl & [nl ml] & Hin & Hbody).
    pose proof (NN_vectorize_entry_outcome word2id
                  (lvl_labels (pl_get lvl_dict lvl)) nl ml) as Hcase.
    rewrite Hbody in Hcase. destruct Hcase as [[-> Hnone]|[-> (w & Hw & Hbig)]].
    + left. split; [done|]. intros Hknown.
      specialize (Hknown lvl nl ml Hin). apply make_labels_Some in Hknown.
      unfold lvl_dict in Hnone, Hknown. rewrite make_lvl_dict_labels in Hnone.
      rewrite Hnone in Hknown. by destruct Hknown.
    + right. split; [done|].
      destruct (decide (PAD ∈ all_source_tokens lvl_dict)) as [|Hpad]; [by left|].
      destruct (decide (UNK ∈ all_source_tokens lvl_dict)) as [|Hunk]; [by right|].
      exfalso. destruct (Hok Hpad Hunk) as (_ & Hlen & _ & _ & Hknown & Hbij).
      destruct (Hknown w) as [k Hk]; [by eapply elem_of_all_source_tokens|].
      unfold py_get in Hbig. rewrite Hk in Hbig.
      apply Hbij, lookup_lt_Some in Hk. lia.
Qed.

(** X4: the outcome of the data preparation in the constructor of
    [NNDual] (vocabulary and training arrays, before the graph is built),
    for every enumeration order: it succeeds exactly when no source
    sequence holds a reserved word and every target joins to a command of
    its level; [KeyError] is raised only for a target without command,
    [IndexError] only with a reserved word among the source tokens, and
    nothing else is raised. *)
Theorem NNDual_init_outcome
    (set_list : gset string -> list string) (lvl_order : list level)
    (l0_corpus l1_corpus l2_corpus : corpus)
    (l0_commands l1_commands l2_commands : command_set) (epochs batch_size : Z) :
  let lvl_dict := make_lvl_dict l0_corpus l1_corpus l2_corpus
                                l0_commands l1_commands l2_commands in
  (forall s, set_list s ≡ₚ elements s) ->
  lvl_order ≡ₚ [L0; L1; L2] ->
  match NNDual_init set_list lvl_order l0_corpus l1_corpus l2_corpus
                    l0_commands l1_commands l2_commands epochs batch_size with
  | Ok m =>
      (PAD ∉ all_source_tokens lvl_dict)
      /\ (UNK ∉ all_source_tokens lvl_dict)
      /\ targets_joined_known lvl_dict
  | Raise e =>
      (e = KeyError /\ ~ targets_joined_known lvl_dict)
      \/ (e = IndexError
          /\ (PAD ∈ all_source_tokens lvl_dict \/ UNK ∈ all_source_tokens lvl_dict))
  end.
Proof. apply NNDual_init_cases. Qed.

(** X5: the outcome of the data preparation in the constructor of
    [RNNDual], for every enumeration order: it succeeds exactly when
    every target joins to a command of its level (reserved words in the
    corpus do not stop it), and the only exception it raises is
    [KeyError]. *)
Theorem RNNDual_init_outcome
    (set_list : gset string -> list string) (lvl_order : list level)
    (l0_corpus l1_corpus l2_corpus : corpus)
    (l0_commands l1_commands l2_commands : command_set) (epochs batch_size : Z) :
  let lvl_dict := make_lvl_dict l0_corpus l1_corpus l2_corpus
                                l0_commands l1_commands l2_commands in
  lvl_order ≡ₚ [L0; L1; L2] ->
  match RNNDual_init set_list lvl_order l0_corpus l1_corpus l2_corpus
                     l0_commands l1_commands l2_commands epochs batch_size with
  | Ok m => targets_joined_known lvl_dict
  | Raise e => e = KeyError /\ ~ targets_joined_known lvl_dict
  end.
Proof.
  intros lvl_dict Hord. unfold RNNDual_init. fold lvl_dict.
  unfold RNN_build_vocabulary.
  destruct (RNN_scan_corpora_spec lvl_order lvl_dict Hord) as [[Hmax _] _].
  destruct (RNN_scan_corpora lvl_order lvl_dict) as [[vocab max_len] lengths].
  cbn [fst snd] in Hmax.
  destruct (number_vocabulary set_list vocab) as [word2id id2word].
  pose proof (vectorize_levels_outcome
    (fun lvl => RNN_vectorize_entry word2id (lvl_labels (pl_get lvl_dict lvl)) max_len)
    lvl_dict lvl_order Hord) as Hout.
  assert (Hcase : forall lvl nl ml, (nl, ml) ∈ lvl_pc (pl_get lvl_dict lvl) ->
    match RNN_vectorize_entry word2id (lvl_labels (pl_get lvl_dict lvl)) max_len
            (nl, ml) with
    | Ok (v, lab) => make_labels (lvl_commands (pl_get lvl_dict lvl))
                       !! join_tokens ml = Some lab /\ py_len v = max_len
    | Raise e => e = KeyError
                 /\ make_labels (lvl_commands (pl_get lvl_dict lvl))
                      !! join_tokens ml = None
    end).
  { intros lvl nl ml Hin.
    pose proof (make_lvl_dict_labels l0_corpus l1_corpus l2_corpus
                  l0_commands l1_commands l2_commands lvl) as Hlab.
    cbv zeta in Hlab. fold lvl_dict in Hlab. rewrite <- Hlab.
    apply RNN_vectorize_entry_outcome. apply Hmax.
    apply all_source_lengths_elem_of. exists lvl. by eapply elem_of_source_lengths. }
  unfold RNN_vectorize.
  destruct (vectorize_levels lvl_order _ lvl_dict) as [[x y]|e]; simpl.
  - intros lvl nl ml Hin. destruct (Hout lvl) as (rs & _ & _ & Hall).
    pose proof Hin as Hin'. apply list_elem_of_lookup_1 in Hin' as [j Hj].
    destruct (Forall2_lookup_l _ _ _ _ _ Hall Hj) as ([v lab] & _ & Hbody).
    specialize (Hcase lvl nl ml Hin). rewrite Hbody in Hcase.
    apply make_labels_Some. destruct Hcase as [Hlab _]. eauto.
  - destruct Hout as (lvl & [nl ml] & Hin & Hbody).
    specialize (Hcase lvl nl ml Hin). rewrite Hbody in Hcase.
    destruct Hcase as [-> Hnone]. split; [done|]. intros Hknown.
    specialize (Hknown lvl nl ml Hin). apply make_labels_Some in Hknown.
    rewrite Hnone in Hknown. by destruct Hknown.
Qed.

(** X6: the outcome of the data preparation in the constructor of
    [RNNClassifier]: it succeeds exactly when every target joins to a
    command, and the only exception it raises is [KeyError] (on an empty
    corpus [max] is never reached). *)
Theorem RNNClassifier_init_outcome
    (set_list : gset string -> list string)
    (parallel_corpus : corpus) (commands : command_set) (epochs batch_size : Z) :
  let known := forall nl ml, (nl, ml) ∈ parallel_corpus ->
                 join_tokens ml ∈ join_tokens <$> commands in
  match RNNClassifier_init set_list parallel_corpus commands epochs batch_size with
  | Ok m => known
  | Raise e => e = KeyError /\ ~ known
  end.
Proof.
  intros known. unfold RNNClassifier_init.
  destruct (RC_build_vocabulary set_list parallel_corpus) as [word2id id2word].
  fold (source_lengths parallel_corpus).
  assert (Hcase : forall nl ml, (nl, ml) ∈ parallel_corpus ->
    match RC_vectorize_entry word2id (make_labels commands)
            (source_lengths parallel_corpus) (nl, ml) with
    | Ok (v, lab) => make_labels commands !! join_tokens ml = Some lab
    | Raise e => e = KeyError /\ make_labels commands !! join_tokens ml = None
    end).
  { intros nl ml Hin.
    destruct (py_max_spec (source_lengths parallel_corpus)) as (mx & Hmx & Hlong & _).
    { intros E. apply elem_of_source_lengths in Hin. rewrite E in Hin.
      by apply elem_of_nil in Hin. }
    rewrite RC_vectorize_entry_width, Hmx. cbn [mbind result_bind].
    pose proof (RNN_vectorize_entry_outcome word2id (make_labels commands) mx nl ml)
      as H.
    destruct (RNN_vectorize_entry word2id (make_labels commands) mx (nl, ml))
      as [[v lab]|e].
    - apply H. apply Hlong. by eapply elem_of_source_lengths.
    - apply H. apply Hlong. by eapply elem_of_source_lengths. }
  unfold RC_vectorize.
  destruct (vectorize_level _ parallel_corpus) as [[x y]|e] eqn:Hv; simpl.
  - intros nl ml Hin.
    destruct (vectorize_level_Ok_inv _ _ _ Hv (nl, ml) Hin) as [[v lab] Hbody].
    specialize (Hcase nl ml Hin). rewrite Hbody in Hcase.
    apply make_labels_Some. eauto.
  - destruct (vectorize_level_Raise_inv _ _ _ Hv) as ([nl ml] & Hin & Hbody).
    specialize (Hcase nl ml Hin). rewrite Hbody in Hcase.
    destruct Hcase as [-> Hnone]. split; [done|]. intros Hknown.
    specialize (Hknown nl ml Hin). apply make_labels_Some in Hknown.
    rewrite Hnone in Hknown. by destruct Hknown.
Qed.

(** ** The training arrays of a constructed model *)

Lemma parallel_arrays_of_rows (commands : command_set) (pc : corpus)
    (P : list Z -> Prop) (body : list string * list string -> result (list Z * nat))
    (rs : list (list Z * nat)) :
  Forall2 (fun entry r => body entry = Ok r) pc rs ->
  (forall nl ml v lab, (nl, ml) ∈ pc -> body (nl, ml) = Ok (v, lab) ->
     make_labels commands !! join_tokens ml = Some lab /\ P v) ->
  parallel_arrays commands pc P rs.*1 (np_int32_array rs.*2).
Proof.
  intros Hall Hbody. pose proof (Forall2_length _ _ _ Hall) as Hlen.
  unfold parallel_arrays, np_int32_array. rewrite !length_fmap.
  split; [done|]. split; [done|]. split.
  - apply Forall_lookup. intros j v Hj. rewrite list_lookup_fmap in Hj.
    destruct (rs !! j) as [[v' lab]|] eqn:Hr; [|done]. injection Hj as <-.
    destruct (Forall2_lookup_r _ _ _ _ _ Hall Hr) as ([nl ml] & Hpc & Hb).
    apply (Hbody nl ml v' lab); [by eapply list_elem_of_lookup_2 | done].
  - intros j nl ml Hj.
    destruct (Forall2_lookup_l _ _ _ _ _ Hall Hj) as ([v lab] & Hr & Hb).
    exists (int32 (Z.of_nat lab)). split.
    + by rewrite !list_lookup_fmap, Hr.
    + apply make_labels_label_of.
      apply (Hbody nl ml v lab); [by eapply list_elem_of_lookup_2 | done].
Qed.

(** X7: the training arrays of every model whose data was prepared.  For
    each level (for the one corpus of [RNNClassifier]) there is one input
    row and one label per corpus entry, in corpus order; every row has
    the width of the model (the vocabulary size in bag-of-words mode, the
    greatest source length in sequence mode); the label of an entry is
    the [int32] position of a command that joins to the same string as
    its target; and in sequence mode the recorded lengths are the lengths
    of the source sequences. *)
Theorem train_arrays_parallel
    (set_list : gset string -> list string) (lvl_order : list level)
    (epochs batch_size : Z) :
  lvl_order ≡ₚ [L0; L1; L2] ->
  (forall (l0_corpus l1_corpus l2_corpus : corpus)
          (l0_commands l1_commands l2_commands : command_set) (m : NNDual),
     NNDual_init set_list lvl_order l0_corpus l1_corpus l2_corpus
                 l0_commands l1_commands l2_commands epochs batch_size = Ok m ->
     forall lvl,
       parallel_arrays (lvl_commands (pl_get (nn_lvl_dict m) lvl))
                       (lvl_pc (pl_get (nn_lvl_dict m) lvl))
                       (fun v => length v = size (nn_word2id m))
                       (pl_get (nn_train_x m) lvl) (pl_get (nn_train_y m) lvl))
  /\ (forall (l0_corpus l1_corpus l2_corpus : corpus)
             (l0_commands l1_commands l2_commands : command_set) (m : RNNDual),
        RNNDual_init set_list lvl_order l0_corpus l1_corpus l2_corpus
                     l0_commands l1_commands l2_commands epochs batch_size = Ok m ->
        forall lvl,
          parallel_arrays (lvl_commands (pl_get (rnn_lvl_dict m) lvl))
                          (lvl_pc (pl_get (rnn_lvl_dict m) lvl))
                          (fun v => py_len v = rnn_max_len m)
                          (pl_get (rnn_train_x m) lvl) (pl_get (rnn_train_y m) lvl)
          /\ pl_get (rnn_lengths m) lvl
             = source_lengths (lvl_pc (pl_get (rnn_lvl_dict m) lvl)))
  /\ (forall (parallel_corpus : corpus) (commands : command_set) (m : RNNClassifier),
        RNNClassifier_init set_list parallel_corpus commands epochs batch_size = Ok m ->
        parallel_arrays (rc_commands m) (rc_pc m)
                        (fun v => py_max (rc_lengths m) = Ok (py_len v))
                        (rc_train_x m) (rc_train_y m)
        /\ rc_lengths m = source_lengths (rc_pc m)).
Proof.
  intros Hord. split; [|split].
  - intros l0_corpus l1_corpus l2_corpus l0_commands l1_commands l2_commands m Hm lvl.
    unfold NNDual_init in Hm.
    set (lvl_dict := make_lvl_dict l0_corpus l1_corpus l2_corpus
                                   l0_commands l1_commands l2_commands) in *.
    destruct (NN_build_vocabulary set_list lvl_order lvl_dict) as [word2id id2word].
    unfold NN_vectorize in Hm.
    pose proof (vectorize_levels_outcome
      (fun lvl => NN_vectorize_entry word2id (lvl_labels (pl_get lvl_dict lvl)))
      lvl_dict lvl_order Hord) as Hout.
    destruct (vectorize_levels lvl_order _ lvl_dict) as [[x y]|e]; [|done].
    simpl in Hm. injection Hm as <-. simpl.
    destruct (Hout lvl) as (rs & -> & -> & Hall).
    eapply parallel_arrays_of_rows; [exact Hall|].
    intros nl ml v lab _ Hb.
    pose proof (NN_vectorize_entry_outcome word2id
                  (lvl_labels (pl_get lvl_dict lvl)) nl ml) as H.
    rewrite Hb in H. destruct H as (Hlab & Hlen & _). split; [|done].
    pose proof (make_lvl_dict_labels l0_corpus l1_corpus l2_corpus
                  l0_commands l1_commands l2_commands lvl) as Hl.
    cbv zeta in Hl. fold lvl_dict in Hl. by rewrite <- Hl.
  - intros l0_corpus l1_corpus l2_corpus l0_commands l1_commands l2_commands m Hm lvl.
    unfold RNNDual_init in Hm.
    set (lvl_dict := make_lvl_dict l0_corpus l1_corpus l2_corpus
                                   l0_commands l1_commands l2_commands) in *.
    unfold RNN_build_vocabulary in Hm.
    destruct (RNN_scan_corpora_spec lvl_order lvl_dict Hord) as [[Hmax _] Hlens].
    destruct (RNN_scan_corpora lvl_order lvl_dict) as [[vocab max_len] lengths].
    cbn [fst snd] in Hmax, Hlens.
    destruct (number_vocabulary set_list vocab) as [word2id id2word].
    unfold RNN_vectorize in Hm.
    pose proof (vectorize_levels_outcome
      (fun lvl => RNN_vectorize_entry word2id (lvl_labels (pl_get lvl_dict lvl)) max_len)
      lvl_dict lvl_order Hord) as Hout.
    destruct (vectorize_levels lvl_order _ lvl_dict) as [[x y]|e]; [|done].
    simpl in Hm. injection Hm as <-. simpl. split; [|apply Hlens].
    destruct (Hout lvl) as (rs & -> & -> & Hall).
    eapply parallel_arrays_of_rows; [exact Hall|].
    intros nl ml v lab Hin Hb.
    pose proof (RNN_vectorize_entry_outcome word2id
                  (lvl_labels (pl_get lvl_dict lvl)) max_len nl ml) as H.
    rewrite Hb in H.
    pose proof (make_lvl_dict_labels l0_corpus l1_corpus l2_corpus
                  l0_commands l1_commands l2_commands lvl) as Hl.
    cbv zeta in Hl. fold lvl_dict in Hl. rewrite <- Hl. apply H.
    apply Hmax. apply all_source_lengths_elem_of. exists lvl.
    by eapply elem_of_source_lengths.
  - intros parallel_corpus commands m Hm. unfold RNNClassifier_init in Hm.
    destruct (RC_build_vocabulary set_list parallel_corpus) as [word2id id2word].
    fold (source_lengths parallel_corpus) in Hm. unfold RC_vectorize in Hm.
    destruct (vectorize_level _ parallel_corpus) as [[x y]|e] eqn:Hv; [|done].
    simpl in Hm. injection Hm as <-. simpl. split; [|done].
    destruct (vectorize_level_Ok _ parallel_corpus
                (vectorize_level_Ok_inv _ _ _ Hv)) as (rs & Hv' & Hall).
    rewrite Hv in Hv'. injection Hv' as -> ->.
    eapply parallel_arrays_of_rows; [exact Hall|].
    intros nl ml v lab Hin Hb.
    destruct (py_max_spec (source_lengths parallel_corpus)) as (mx & Hmx & Hlong & _).
    { intros E. apply elem_of_source_lengths in Hin. rewrite E in Hin.
      by apply elem_of_nil in Hin. }
    rewrite RC_vectorize_entry_width, Hmx in Hb. cbn [mbind result_bind] in Hb.
    pose proof (RNN_vectorize_entry_outcome word2id (make_labels commands) mx nl ml)
      as H.
    rewrite Hb in H. destruct H as [Hlab Hlen].
    { apply Hlong. by eapply elem_of_source_lengths. }
    split; [done|]. by rewrite Hlen.
Qed.

(** ** The minibatch positions of [fit] *)

Lemma zip_fmap_same {A B C : Type} (f : A -> B) (g : A -> C) (l : list A) :
  zip (f <$> l) (g <$> l) = (fun a => (f a, g a)) <$> l.
Proof. induction l as [|a l IH]; [done|]. csimpl. by f_equal. Qed.

(** for a positive batch size the positions are the windows
    [(i * bsz, (i + 1) * bsz)] whose end lies below [n] *)
Lemma positions_closed (n bsz : Z) :
  0 < bsz ->
  positions n bsz
  = Ok ((fun i : nat => (Z.of_nat i * bsz, (Z.of_nat i + 1) * bsz))
          <$> seq 0 (Z.to_nat ((n - 1) `div` bsz))).
Proof.
  intros Hb. unfold positions, py_range.
  destruct (Z.eqb_spec bsz 0); [lia|].
  destruct (Z.ltb_spec 0 bsz); [|lia]. cbn [mbind result_bind].
  assert (Hcount : (if 0 <? n - bsz then (n - bsz - 0 + bsz - 1) `div` bsz else 0)
                   = (if bsz <? n then (n - bsz + bsz - 1) `div` bsz else 0)).
  { destruct (Z.ltb_spec 0 (n - bsz)), (Z.ltb_spec bsz n); try lia.
    f_equal. lia. }
  rewrite Hcount.
  assert (Hk : Z.to_nat (if bsz <? n then (n - bsz + bsz - 1) `div` bsz else 0)
               = Z.to_nat ((n - 1) `div` bsz)).
  { destruct (Z.ltb_spec bsz n).
    - do 2 f_equal. lia.
    - assert ((n - 1) `div` bsz < 1) by (apply Z.div_lt_upper_bound; lia). lia. }
  rewrite Hk. unfold py_zip. rewrite zip_fmap_same. f_equal.
  apply list_fmap_ext. intros _ i _. f_equal; lia.
Qed.

Lemma positions_elem_of (n bsz : Z) (ps : list (Z * Z)) (start stop : Z) :
  0 < bsz -> positions n bsz = Ok ps -> (start, stop) ∈ ps ->
  exists i : nat, start = Z.of_nat i * bsz /\ stop = (Z.of_nat i + 1) * bsz
                  /\ stop < n.
Proof.
  intros Hb Hp Hin. rewrite positions_closed in Hp by done. injection Hp as <-.
  apply list_elem_of_fmap in Hin as (i & [= -> ->] & Hi).
  apply elem_of_seq in Hi. exists i. split; [done|]. split; [done|].
  pose proof (Z.mul_div_le (n - 1) bsz Hb). nia.
Qed.

(** X8: for a positive batch size, the minibatch positions of [fit] over
    [n] rows are the consecutive windows of [batch_size] rows, taken from
    the first row on, whose end index lies strictly below [n]; there are
    [(n - 1) / batch_size] of them (none when [n] is not positive), so the
    last row is never inside a window. *)
Theorem positions_windows (n bsz : Z) :
  0 < bsz ->
  exists ps,
    positions n bsz = Ok ps
    /\ Z.of_nat (length ps) = Z.max 0 ((n - 1) `div` bsz)
    /\ forall (i : nat) start stop,
         ps !! i = Some (start, stop) ->
         start = Z.of_nat i * bsz /\ stop = start + bsz /\ stop <= n - 1.
Proof.
  intros Hb. eexists. split; [by apply positions_closed|].
  split.
  - rewrite length_fmap, length_seq. lia.
  - intros i start stop Hi. rewrite list_lookup_fmap in Hi.
    destruct (seq 0 (Z.to_nat ((n - 1) `div` bsz)) !! i) as [j|] eqn:Hj; [|done].
    apply lookup_seq in Hj as [-> Hlt]. simpl in Hi. injection Hi as <- <-.
    split; [done|]. split; [lia|].
    pose proof (Z.mul_div_le (n - 1) bsz Hb). nia.
Qed.

Lemma py_slice_window {A : Type} (l : list A) (bsz : Z) (i : nat) :
  0 < bsz ->
  py_slice l (Z.of_nat i * bsz) ((Z.of_nat i + 1) * bsz) = window bsz i l.
Proof.
  intros Hb. unfold py_slice, py_bound, window, py_len.
  destruct (Z.ltb_spec (Z.of_nat i * bsz) 0); [nia|].
  destruct (Z.ltb_spec ((Z.of_nat i + 1) * bsz) 0); [nia|].
  assert (Hi : (i * Z.to_nat bsz)%nat = Z.to_nat (Z.of_nat i * bsz)).
  { rewrite Z2Nat.inj_mul by lia. by rewrite Nat2Z.id. }
  rewrite Hi.
  destruct (Z.le_gt_cases (Z.of_nat i * bsz) (Z.of_nat (length l))) as [Hin|Hout].
  - rewrite (Z.min_l (Z.of_nat i * bsz)) by done.
    destruct (Z.le_gt_cases ((Z.of_nat i + 1) * bsz) (Z.of_nat (length l)))
      as [Hfull|Hpart].
    + rewrite Z.min_l by done. f_equal. lia.
    + rewrite Z.min_r by lia.
      rewrite !take_ge; [done | |]; rewrite length_drop; lia.
  - rewrite !Z.min_r by lia. rewrite Z.sub_diag. simpl.
    rewrite (drop_ge l (Z.to_nat (Z.of_nat i * bsz))) by lia.
    by rewrite take_nil.
Qed.

Lemma py_prefix_len_le {A : Type} (l : list A) (k : Z) :
  py_len (py_prefix l k) <= py_len l.
Proof.
  unfold py_prefix, py_slice, py_len. rewrite length_take, length_drop. lia.
Qed.

(** ** What [fit] feeds to the optimizer *)

Section Feeds.

Context `{E : Engine}.

Lemma NN_fit_level_window (m : NNDual) (lvl : level) (i : nat) :
  0 < nn_bsz m ->
  spec (NN_step m) (fun _ => True)
       (NN_fit_level m lvl (Z.of_nat i * nn_bsz m) ((Z.of_nat i + 1) * nn_bsz m)).
Proof.
  intros Hb. unfold NN_fit_level.
  destruct (Z.ltb_spec ((Z.of_nat i + 1) * nn_bsz m)
                       (py_len (pl_get (nn_train_x m) lvl))); [|by apply spec_ret].
  apply (spec_bind _ (fun lvl_y => lvl_y = replicate (Z.to_nat (nn_bsz m)) 0)).
  { apply spec_lift. intros a Ha. rewrite np_zeros_nonneg in Ha by lia.
    by injection Ha as <-. }
  intros lvl_y ->. apply spec_sess_train. exists lvl, i.
  split; [done|]. split; [done|].
  unfold NN_feed, batch_feed. rewrite !py_slice_window by done.
  by rewrite fmap_replicate.
Qed.

Lemma NN_fit_windows (m : NNDual) (chunk_size : Z) :
  0 < nn_bsz m -> spec (NN_step m) (fun _ => True) (NN_fit m chunk_size).
Proof.
  intros Hb. unfold NN_fit.
  apply (spec_bind _ (fun _ => True)); [by apply spec_lift|]. intros es _.
  apply spec_forM; [done|]. intros [] e _ _. unfold NN_fit_epoch.
  apply (spec_bind _ (fun ps => forall start stop, (start, stop) ∈ ps ->
           exists i : nat, start = Z.of_nat i * nn_bsz m
                           /\ stop = (Z.of_nat i + 1) * nn_bsz m)).
  { apply spec_lift. intros ps Hps start stop Hin.
    destruct (positions_elem_of _ _ _ _ _ Hb Hps Hin) as (i & ? & ? & _). eauto. }
  intros ps Hps. apply (spec_bind _ (fun _ => True)).
  - apply spec_forM; [done|]. intros [curr_loss batches] [start stop] Hin _.
    destruct (Hps start stop Hin) as (i & -> & ->). unfold NN_fit_position.
    apply (spec_bind _ (fun _ => True)); [by apply NN_fit_level_window|]. intros l0 _.
    apply (spec_bind _ (fun _ => True)); [by apply NN_fit_level_window|]. intros l1 _.
    apply (spec_bind _ (fun _ => True)); [by apply NN_fit_level_window|]. intros l2 _.
    apply (spec_bind _ (fun _ => True)); [by apply spec_emit|]. intros _ _.
    by apply spec_ret.
  - intros [curr_loss batches] _. by apply print_average_spec.
Qed.

Lemma RNN_fit_level_window (m : RNNDual) (lvl : level) (i : nat) (prev : Loss) :
  0 < rnn_bsz m ->
  spec (RNN_step m) (fun _ => True)
       (RNN_fit_level m (replicate (Z.to_nat (rnn_bsz m)) 0) lvl
          (Z.of_nat i * rnn_bsz m) ((Z.of_nat i + 1) * rnn_bsz m) prev).
Proof.
  intros Hb. unfold RNN_fit_level.
  destruct (Z.ltb_spec ((Z.of_nat i + 1) * rnn_bsz m)
                       (py_len (pl_get (rnn_train_x m) lvl))); [|by apply spec_ret].
  apply spec_sess_train. exists lvl, i.
  split; [done|]. split; [done|].
  unfold RNN_feed, batch_feed. rewrite !py_slice_window by done.
  by rewrite fmap_replicate.
Qed.

Lemma RNN_fit_windows (m : RNNDual) (chunk_size : Z) :
  0 < rnn_bsz m -> spec (RNN_step m) (fun _ => True) (RNN_fit m chunk_size).
Proof.
  intros Hb. unfold RNN_fit.
  apply (spec_bind _ (fun z => z = replicate (Z.to_nat (rnn_bsz m)) 0)).
  { apply spec_lift. intros a Ha. rewrite np_zeros_nonneg in Ha by lia.
    by injection Ha as <-. }
  intros z ->.
  apply (spec_bind _ (fun _ => True)); [by apply spec_lift|]. intros es _.
  apply (spec_bind _ (fun _ => True)); [|intros; by apply spec_ret].
  apply spec_forM; [done|]. intros losses e _ _. unfold RNN_fit_epoch.
  apply (spec_bind _ (fun ps => forall start stop, (start, stop) ∈ ps ->
           exists i : nat, start = Z.of_nat i * rnn_bsz m
                           /\ stop = (Z.of_nat i + 1) * rnn_bsz m)).
  { apply spec_lift. intros ps Hps start stop Hin.
    destruct (positions_elem_of _ _ _ _ _ Hb Hps Hin) as (i & ? & ? & _). eauto. }
  intros ps Hps. apply (spec_bind _ (fun _ => True)).
  - apply spec_forM; [done|].
    intros [[curr_loss batches] [[l0 l1] l2]] [start stop] Hin _.
    destruct (Hps start stop Hin) as (i & -> & ->). unfold RNN_fit_position.
    apply (spec_bind _ (fun _ => True)); [by apply RNN_fit_level_window|]. intros l0' _.
    apply (spec_bind _ (fun _ => True)); [by apply RNN_fit_level_window|]. intros l1' _.
    apply (spec_bind _ (fun _ => True)); [by apply RNN_fit_level_window|]. intros l2' _.
    apply (spec_bind _ (fun _ => True)); [by apply spec_emit|]. intros _ _.
    by apply spec_ret.
  - intros [[curr_loss batches] losses'] _.
    apply (spec_bind _ (fun _ => True)); [by apply print_average_spec|].
    intros; by apply spec_ret.
Qed.

Lemma RC_fit_windows (m : RNNClassifier) (chunk_size : Z) :
  0 < rc_bsz m -> spec (RC_step m) (fun _ => True) (RC_fit m chunk_size).
Proof.
  intros Hb. unfold RC_fit.
  apply (spec_bind _ (fun _ => True)); [by apply spec_lift|]. intros es _.
  apply spec_forM; [done|]. intros [] e _ _. unfold RC_fit_epoch.
  apply (spec_bind _ (fun ps => forall start stop, (start, stop) ∈ ps ->
           exists i : nat, start = Z.of_nat i * rc_bsz m
                           /\ stop = (Z.of_nat i + 1) * rc_bsz m
                           /\ stop < py_len (rc_train_x m))).
  { apply spec_lift. intros ps Hps start stop Hin.
    destruct (positions_elem_of _ _ _ _ _ Hb Hps Hin) as (i & ? & ? & Hlt).
    exists i. split; [done|]. split; [done|].
    pose proof (py_prefix_len_le (rc_train_x m) chunk_size). lia. }
  intros ps Hps. apply (spec_bind _ (fun _ => True)).
  - apply spec_forM; [done|]. intros [curr_loss batches] [start stop] Hin _.
    destruct (Hps start stop Hin) as (i & -> & -> & Hlt). unfold RC_fit_position.
    apply (spec_bind _ (fun _ => True)); [|intros; by apply spec_ret].
    apply spec_sess_train. exists i. split; [done|]. split; [done|].
    unfold RC_feed, batch_feed. by rewrite !py_slice_window by done.
  - intros [curr_loss batches] _. by apply print_average_spec.
Qed.

(** X9: what [fit] feeds to the optimizer, for a positive batch size and
    every [chunk_size], in the three variants.  Every optimizer step the
    call records is the step of one level (the single step of
    [RNNClassifier]) on a window of [batch_size] consecutive rows of that
    level's training arrays that starts at a multiple of [batch_size] and
    ends before the level's last row: the same window of the inputs, of
    the labels and (in sequence mode) of the lengths, with dropout
    [keep_prob] 0.5 and, in the dual models, a level target that holds
    the index of the level [batch_size] times. *)
Theorem fit_feeds_windows (chunk_size : Z) (s : St Session Loss) :
  (forall m : NNDual,
     0 < nn_bsz m ->
     exists evs, trace (NN_fit m chunk_size s).2 = trace s ++ evs
                 /\ Forall (NN_step m) evs)
  /\ (forall m : RNNDual,
        0 < rnn_bsz m ->
        exists evs, trace (RNN_fit m chunk_size s).2 = trace s ++ evs
                    /\ Forall (RNN_step m) evs)
  /\ (forall m : RNNClassifier,
        0 < rc_bsz m ->
        exists evs, trace (RC_fit m chunk_size s).2 = trace s ++ evs
                    /\ Forall (RC_step m) evs).
Proof.
  split; [|split]; intros m Hb.
  - destruct (NN_fit_windows m chunk_size Hb s) as (evs & Htr & Hq & _). eauto.
  - destruct (RNN_fit_windows m chunk_size Hb s) as (evs & Htr & Hq & _). eauto.
  - destruct (RC_fit_windows m chunk_size Hb s) as (evs & Htr & Hq & _). eauto.
Qed.

End Feeds.

(** ** The loss of a level that has run out of data, in general *)

Section Carried.

Context `{E : Engine}.
Variable len : level -> Z.

Lemma last_accum_app (prev : per_level Loss) (evs1 evs2 : list (event Loss)) :
  last_accum prev (evs1 ++ evs2) = last_accum (last_accum prev evs1) evs2.
Proof.
  revert prev. induction evs1 as [|ev evs1 IH]; intros prev; [done|].
  destruct ev; simpl; apply IH.
Qed.

Lemma carries_app (prev : per_level Loss) (evs1 evs2 : list (event Loss)) :
  carries len prev evs1 -> carries len (last_accum prev evs1) evs2 ->
  carries len prev (evs1 ++ evs2).
Proof.
  revert prev. induction evs1 as [|ev evs1 IH]; intros prev H1 H2; [done|].
  destruct ev; simpl in *; try by apply IH.
  destruct H1 as [Hk H1]. split; [done | by apply IH].
Qed.

Lemma carries_not_accum (prev : per_level Loss) (evs : list (event Loss)) :
  Forall not_accum evs -> carries len prev evs /\ last_accum prev evs = prev.
Proof.
  induction 1 as [|ev evs Hev _ IH]; [done|]. by destruct ev.
Qed.

Lemma tracked_of_spec {A : Type} (prev : per_level Loss) (R : A -> Prop) (m : M A) :
  spec not_accum R m -> tracked len prev (fun a p => R a /\ p = prev) m.
Proof.
  intros Hm s. destruct (Hm s) as (evs & Htr & Hq & Hr).
  destruct (carries_not_accum prev evs Hq) as [Hc Hl].
  exists evs. split; [done|]. split; [done|]. intros a Ha. split; [by apply Hr | done].
Qed.

Lemma tracked_bind {A B : Type} (prev : per_level Loss)
    (R : A -> per_level Loss -> Prop) (R' : B -> per_level Loss -> Prop)
    (m : M A) (f : A -> M B) :
  tracked len prev R m -> (forall a p, R a p -> tracked len p R' (f a)) ->
  tracked len prev R' (m ≫= f).
Proof.
  intros Hm Hf s. rewrite bind_run.
  destruct (Hm s) as (evs & Htr & Hc & Hr).
  destruct (m s) as [[a|e] s1]; simpl in *.
  - destruct (Hf a _ (Hr a eq_refl) s1) as (evs' & Htr' & Hc' & Hr').
    exists (evs ++ evs'). rewrite Htr', Htr, app_assoc.
    split; [done|]. split; [by apply carries_app|].
    intros b Hb. rewrite last_accum_app. by apply Hr'.
  - exists evs. by split; [|split].
Qed.

Lemma tracked_ret {A : Type} (prev : per_level Loss)
    (R : A -> per_level Loss -> Prop) (a : A) :
  R a prev -> tracked len prev R (mret a).
Proof.
  intros Ha s. exists []. simpl. rewrite app_nil_r.
  split; [done|]. split; [done|]. by intros a' [= <-].
Qed.

Lemma tracked_lift {A : Type} (prev : per_level Loss) (r : result A) :
  tracked len prev (fun _ p => p = prev) (lift r).
Proof.
  intros s. exists []. simpl. rewrite app_nil_r. by split; [|split].
Qed.

Lemma tracked_forM {A B : Type} (I : A -> per_level Loss -> Prop)
    (body : A -> B -> M A) (l : list B) (acc : A) (prev : per_level Loss) :
  I acc prev ->
  (forall acc p x, x ∈ l -> I acc p -> tracked len p I (body acc x)) ->
  tracked len prev I (forM body acc l).
Proof.
  revert acc prev. induction l as [|x l IH]; intros acc prev Hacc Hbody.
  - by apply tracked_ret.
  - cbn [forM]. apply (tracked_bind _ I).
    + apply Hbody; [left | done].
    + intros acc' p Hacc'. apply IH; [done|].
      intros a p' y Hy. apply Hbody. by right.
Qed.

Lemma tracked_accum (e start stop : Z) (prev : per_level Loss) (l0 l1 l2 : Loss) :
  (forall k, len k <= stop -> pl_get (PerLevel l0 l1 l2) k = pl_get prev k) ->
  tracked len prev (fun _ p => p = PerLevel l0 l1 l2)
          (emit (EvAccum e start stop l0 l1 l2)).
Proof.
  intros Hk s. exists [EvAccum e start stop l0 l1 l2]. simpl.
  split; [done|]. split; [by split | done].
Qed.

Lemma print_average_no_accum (e : Z) (curr_loss : Loss) (batches : Z) :
  spec not_accum (fun _ => True) (print_average e curr_loss batches).
Proof. by apply print_average_spec. Qed.

Lemma RNN_fit_level_keeps (m : RNNDual) (z : list Z) (k : level) (start stop : Z)
    (prev : Loss) :
  spec not_accum
       (fun a => py_len (pl_get (rnn_train_x m) k) <= stop -> a = prev)
       (RNN_fit_level m z k start stop prev).
Proof.
  unfold RNN_fit_level.
  destruct (Z.ltb_spec stop (py_len (pl_get (rnn_train_x m) k)));
    [|by apply spec_ret].
  eapply spec_weaken; [by apply spec_sess_train|]. intros a _ Hle. lia.
Qed.

End Carried.

Section CarriedFit.

Context `{E : Engine}.

Lemma RNN_fit_tracked (m : RNNDual) (chunk_size : Z) :
  tracked (fun k => py_len (pl_get (rnn_train_x m) k))
          (PerLevel loss_zero loss_zero loss_zero) (fun _ _ => True)
          (RNN_fit m chunk_size).
Proof.
  set (len := fun k => py_len (pl_get (rnn_train_x m) k)).
  set (I3 := fun (losses : Loss * Loss * Loss) (p : per_level Loss) =>
               p = PerLevel losses.1.1 losses.1.2 losses.2).
  unfold RNN_fit.
  apply (tracked_bind len _ (fun _ p => p = PerLevel loss_zero loss_zero loss_zero));
    [apply tracked_lift|].
  intros z p ->.
  apply (tracked_bind len _ (fun _ p => p = PerLevel loss_zero loss_zero loss_zero));
    [apply tracked_lift|].
  intros es p ->.
  apply (tracked_bind len _ I3); [|intros; by apply tracked_ret].
  apply tracked_forM; [done|]. intros losses p e _ ->. unfold RNN_fit_epoch.
  apply (tracked_bind len _ (fun _ p => p = PerLevel losses.1.1 losses.1.2 losses.2));
    [apply tracked_lift|].
  intros ps p ->.
  apply (tracked_bind len _
           (fun (acc : Loss * Z * (Loss * Loss * Loss)) p => I3 acc.2 p)).
  - apply tracked_forM; [done|].
    intros [[curr_loss batches] [[p0 p1] p2]] p [start stop] _ ->.
    unfold RNN_fit_position. cbn [fst snd].
    eapply tracked_bind.
    { apply tracked_of_spec. apply (RNN_fit_level_keeps m z L0 start stop p0). }
    intros l0 p [H0 ->]. eapply tracked_bind.
    { apply tracked_of_spec. apply (RNN_fit_level_keeps m z L1 start stop p1). }
    intros l1 p [H1 ->]. eapply tracked_bind.
    { apply tracked_of_spec. apply (RNN_fit_level_keeps m z L2 start stop p2). }
    intros l2 p [H2 ->]. eapply tracked_bind.
    { apply (tracked_accum len e start stop _ l0 l1 l2).
      intros k Hk. destruct k; simpl; auto. }
    intros _ p ->. by apply tracked_ret.
  - intros [[curr_loss batches] losses'] p Hp. cbn [snd] in Hp.
    eapply tracked_bind.
    { apply tracked_of_spec. apply print_average_no_accum. }
    intros _ p' [_ ->]. by apply tracked_ret.
Qed.

(** X10: in [NNDual.fit], for every model, [chunk_size] and state, at
    every position of every epoch a level whose example count is not
    above the end index of the position adds exactly zero to the running
    loss. *)
Theorem NN_fit_exhausted_level_adds_zero (m : NNDual) (chunk_size : Z)
    (s : St Session Loss) :
  exists evs,
    trace (NN_fit m chunk_size s).2 = trace s ++ evs
    /\ Forall (exhausted_adds_zero (fun k => py_len (pl_get (nn_train_x m) k))) evs.
Proof.
  destruct (NN_fit_exhausted_adds_zero m chunk_size s) as (evs & Htr & Hq & _).
  eauto.
Qed.

(** X11: in [RNNDual.fit], for every model, [chunk_size] and state, at
    every position a level whose example count is not above the end
    index of the position adds again what it added at the position
    visited before, also across epochs, and zero only when the call has
    visited no position before: the loss variables are set once, before
    the loop over the epochs. *)
Theorem RNN_fit_carries_last_loss (m : RNNDual) (chunk_size : Z)
    (s : St Session Loss) :
  exists evs,
    trace (RNN_fit m chunk_size s).2 = trace s ++ evs
    /\ carries (fun k => py_len (pl_get (rnn_train_x m) k))
               (PerLevel loss_zero loss_zero loss_zero) evs.
Proof.
  destruct (RNN_fit_tracked m chunk_size s) as (evs & Htr & Hc & _). eauto.
Qed.

End CarriedFit.

(** ** Degenerate parameters of [fit] *)

Lemma positions_zero_step (n : Z) : positions n 0 = Raise ValueError.
Proof. done. Qed.

Section Degenerate.

Context `{E : Engine}.

(** X12: [fit] with degenerate parameters.  With [epochs] not positive
    the call returns at once and leaves the state as it is; only
    [RNNDual.fit] first allocates [np.zeros([batch_size])] and so raises
    [ValueError] for a negative batch size, whatever the number of
    epochs.  With a batch size of 0 and at least one epoch, the three
    variants raise [ValueError] from [range] before anything is run or
    printed. *)
Theorem fit_degenerate_parameters (chunk_size : Z) (s : St Session Loss) :
  (forall m : NNDual,
     (nn_epochs m <= 0 -> NN_fit m chunk_size s = (Ok tt, s))
     /\ (0 < nn_epochs m -> nn_bsz m = 0 ->
         NN_fit m chunk_size s = (Raise ValueError, s)))
  /\ (forall m : RNNDual,
        (rnn_bsz m < 0 -> RNN_fit m chunk_size s = (Raise ValueError, s))
        /\ (rnn_epochs m <= 0 -> 0 <= rnn_bsz m ->
            RNN_fit m chunk_size s = (Ok tt, s))
        /\ (0 < rnn_epochs m -> rnn_bsz m = 0 ->
            RNN_fit m chunk_size s = (Raise ValueError, s)))
  /\ (forall m : RNNClassifier,
        (rc_epochs m <= 0 -> RC_fit m chunk_size s = (Ok tt, s))
        /\ (0 < rc_epochs m -> rc_bsz m = 0 ->
            RC_fit m chunk_size s = (Raise ValueError, s))).
Proof.
  split; [|split]; intros m.
  - split.
    + intros He. unfold NN_fit. by rewrite (py_range_empty 0 (nn_epochs m) 1) by lia.
    + intros He Hb. unfold NN_fit.
      destruct (py_range_epochs (nn_epochs m) He) as [l ->].
      rewrite bind_lift_Ok. cbn [forM]. rewrite bind_run.
      unfold NN_fit_epoch at 1, NN_positions. by rewrite Hb, positions_zero_step.
  - split; [|split].
    + intros Hb. unfold RNN_fit, np_zeros.
      by destruct (Z.ltb_spec (rnn_bsz m) 0); [|lia].
    + intros He Hb. unfold RNN_fit. rewrite np_zeros_nonneg by done.
      rewrite bind_lift_Ok.
      by rewrite (py_range_empty 0 (rnn_epochs m) 1) by lia.
    + intros He Hb. unfold RNN_fit. rewrite np_zeros_nonneg by lia.
      rewrite bind_lift_Ok.
      destruct (py_range_epochs (rnn_epochs m) He) as [l ->].
      rewrite bind_lift_Ok. rewrite bind_run. cbn [forM]. rewrite bind_run.
      unfold RNN_fit_epoch at 1, RNN_positions. by rewrite Hb, positions_zero_step.
  - split.
    + intros He. unfold RC_fit. by rewrite (py_range_empty 0 (rc_epochs m) 1) by lia.
    + intros He Hb. unfold RC_fit.
      destruct (py_range_epochs (rc_epochs m) He) as [l ->].
      rewrite bind_lift_Ok. cbn [forM]. rewrite bind_run.
      unfold RC_fit_epoch at 1, RC_positions. by rewrite Hb, positions_zero_step.
Qed.

End Degenerate.

(** ** The input vector of [score] *)

(** a constructed [NNDual] holds a vocabulary that is a bijection *)
Lemma NNDual_init_vocabulary
    (set_list : gset string -> list string) (lvl_order : list level)
    (l0_corpus l1_corpus l2_corpus : corpus)
    (l0_commands l1_commands l2_commands : command_set) (epochs batch_size : Z)
    (m : NNDual) :
  (forall s, set_list s ≡ₚ elements s) -> lvl_order ≡ₚ [L0; L1; L2] ->
  NNDual_init set_list lvl_order l0_corpus l1_corpus l2_corpus
              l0_commands l1_commands l2_commands epochs batch_size = Ok m ->
  vocabulary_ok (all_source_tokens (nn_lvl_dict m)) (nn_word2id m) (nn_id2word m).
Proof.
  intros Hset Hord Hm.
  pose proof (NNDual_init_cases set_list lvl_order l0_corpus l1_corpus l2_corpus
                l0_commands l1_commands l2_commands epochs batch_size Hset Hord)
    as Hcases.
  cbv zeta in Hcases. rewrite Hm in Hcases. destruct Hcases as (Hpad & Hunk & _).
  destruct (dual_vocabulary_ok set_list lvl_order _ Hset Hord Hpad Hunk) as [Hok _].
  unfold NNDual_init in Hm.
  destruct (NN_build_vocabulary set_list lvl_order _) as [word2id id2word].
  destruct (NN_vectorize lvl_order _ word2id) as [[x y]|e]; [|done].
  simpl in Hm. by injection Hm as <-.
Qed.

(** X13: the input vector of [NNDual.score], on a constructed model and
    for an input of fewer than 2^31 tokens.  The vector is built, has one
    cell per vocabulary entry, the cell of a word with an id other than
    [UNK_ID] holds the number of occurrences of that word in the input,
    and the cell [UNK_ID] counts the words of the input that have no id
    (together with the reserved word [<<UNK>>] itself). *)
Theorem NN_score_input_histogram
    (set_list : gset string -> list string) (lvl_order : list level)
    (l0_corpus l1_corpus l2_corpus : corpus)
    (l0_commands l1_commands l2_commands : command_set) (epochs batch_size : Z)
    (m : NNDual) (nl_command : list string) :
  (forall s, set_list s ≡ₚ elements s) -> lvl_order ≡ₚ [L0; L1; L2] ->
  NNDual_init set_list lvl_order l0_corpus l1_corpus l2_corpus
              l0_commands l1_commands l2_commands epochs batch_size = Ok m ->
  Z.of_nat (length nl_command) < 2 ^ 31 ->
  exists seq,
    NN_input m nl_command = Ok seq
    /\ length seq = size (nn_word2id m)
    /\ (forall w k, nn_word2id m !! w = Some k -> k <> UNK_ID ->
          seq !! k = Some (Z.of_nat (occurrences w nl_command)))
    /\ seq !! UNK_ID = Some (Z.of_nat (unknown_words (nn_word2id m) nl_command)).
Proof.
  intros Hset Hord Hm Hshort.
  destruct (NNDual_init_vocabulary _ _ _ _ _ _ _ _ _ _ m Hset Hord Hm)
    as (Hsize & Hlen & _ & Hunk & _ & Hbij).
  assert (Hid : forall w k, nn_word2id m !! w = Some k ->
                  (k < size (nn_word2id m))%nat).
  { intros w k Hk. rewrite <- Hlen. apply (lookup_lt_Some _ _ w). by apply Hbij. }
  assert (Hunk_lt : (UNK_ID < size (nn_word2id m))%nat) by by eapply Hid.
  destruct (histogram_loop (fun w => py_get (nn_word2id m) w UNK_ID) nl_command
              (replicate (size (nn_word2id m)) 0)) as (seq & Hseq & Hseqlen & Hcells).
  { intros w _. rewrite length_replicate. unfold py_get.
    destruct (nn_word2id m !! w) as [k|] eqn:Hk; [by eapply Hid | done]. }
  { intros i c Hc. apply lookup_replicate in Hc as [-> _]. lia. }
  exists seq. split; [|split; [|split]].
  - unfold NN_input. rewrite np_zeros_of_nat. exact Hseq.
  - by rewrite Hseqlen, length_replicate.
  - intros w k Hk Hne. rewrite (Hcells k 0).
    + rewrite Z.add_0_l. do 2 f_equal. unfold occurrences.
      apply filter_length_ext. intros x _. unfold py_get. split.
      * destruct (nn_word2id m !! x) as [k'|] eqn:Hx; [|done].
        intros ->. apply Hbij in Hx, Hk. congruence.
      * intros ->. by rewrite Hk.
    + apply lookup_replicate_2. by eapply Hid.
  - rewrite (Hcells UNK_ID 0).
    + rewrite Z.add_0_l. do 2 f_equal. unfold unknown_words.
      apply filter_length_ext. intros x _. unfold py_get. split.
      * destruct (nn_word2id m !! x) as [k'|] eqn:Hx; [|by right].
        intros ->. left. apply Hbij in Hx, Hunk. congruence.
      * intros [->|Hx]; [by rewrite Hunk | by rewrite Hx].
    + by apply lookup_replicate_2.
Qed.

Lemma py_get_default (word2id : gmap string nat) (w : string) (d : nat) :
  py_get word2id w d = default d (word2id !! w).
Proof. unfold py_get. by destruct (word2id !! w). Qed.

Lemma fill_ids_score_row (cast : Z -> Z) (word2id : gmap string nat) (width : Z)
    (nl : list string) :
  0 <= width ->
  exists seq,
    fill_ids cast word2id (replicate (Z.to_nat width) 0) nl
             (Z.to_nat (Z.min (py_len nl) width)) = Ok seq
    /\ score_row cast word2id width nl seq.
Proof.
  intros Hw.
  destruct (fill_ids_spec cast word2id nl (Z.to_nat (Z.min (py_len nl) width))
              (replicate (Z.to_nat width) 0)) as (seq & Hseq & Hlen & Hlow & Hhigh).
  { unfold py_len. lia. }
  { rewrite length_replicate. lia. }
  rewrite length_replicate in Hlen.
  exists seq. split; [done|]. split; [|split].
  - unfold py_len. lia.
  - intros i w Hi Hnl. rewrite <- py_get_default. apply Hlow; [|done].
    apply lookup_lt_Some in Hnl. unfold py_len. lia.
  - intros i [Hi1 Hi2]. rewrite Hhigh by (unfold py_len in *; lia).
    apply lookup_replicate_2. lia.
Qed.

Section ScoreInput.

Context `{E : Engine}.

(** X14: the input row of [score] in sequence mode.  On every [RNNDual]
    with a non-negative maximum length the row is built, has that width,
    holds in slot [i] the [int32] id of the [i]-th word of the input,
    [UNK_ID] for a word without an id, and [PAD_ID] from the end of the
    input on; a longer input is cut at the width.  [RNNClassifier] does
    the same in a [float64] row whose width is the greatest recorded
    length, and raises [ValueError], leaving the state as it is, when no
    length is recorded (a model over an empty corpus). *)
Theorem sequence_score_input_row (nl_command : list string) :
  (forall m : RNNDual,
     0 <= rnn_max_len m ->
     exists seq, RNN_input m nl_command = Ok seq
                 /\ score_row int32 (rnn_word2id m) (rnn_max_len m) nl_command seq)
  /\ (forall (m : RNNClassifier) (mx : Z),
        py_max (rc_lengths m) = Ok mx -> 0 <= mx ->
        exists seq, RC_input m nl_command = Ok seq
                    /\ score_row float64 (rc_word2id m) mx nl_command seq)
  /\ (forall (m : RNNClassifier) (s : St Session Loss),
        rc_lengths m = [] ->
        RC_score m nl_command s = (Raise ValueError, s)).
Proof.
  split; [|split].
  - intros m Hmax. unfold RNN_input. rewrite np_zeros_nonneg by done.
    cbn [mbind result_bind]. by apply fill_ids_score_row.
  - intros m mx Hmx Hpos. unfold RC_input. rewrite Hmx. cbn [mbind result_bind].
    rewrite np_zeros_nonneg by done. cbn [mbind result_bind].
    replace (py_len (replicate (Z.to_nat mx) 0)) with mx
      by (unfold py_len; rewrite length_replicate; lia).
    by apply fill_ids_score_row.
  - intros m s Hnil. unfold RC_score, RC_input. by rewrite Hnil.
Qed.

End ScoreInput.

(** ** What [score] returns *)

Section ScoreResult.

Context `{E : Engine}.

Lemma spec_sess_probs (Q : event Loss -> Prop) (t : probs_tensor) (fd : feed) :
  spec Q (fun _ => True) (sess_probs t fd).
Proof.
  intros s. exists []. unfold sess_probs.
  destruct (run_probs t fd (session s)) as [r se]. simpl.
  rewrite app_nil_r. by split; [|split].
Qed.

Lemma spec_py_index (Q : event Loss -> Prop) {A : Type} (l : list A) (i : nat) :
  spec Q (fun x => x ∈ l) (lift (py_index l i)).
Proof.
  apply spec_lift. intros a Ha. unfold py_index in Ha.
  destruct (l !! i) as [x|] eqn:Hx; [|done]. injection Ha as <-.
  by eapply list_elem_of_lookup_2.
Qed.

Lemma score_level_result (commands : command_set) (t : probs_tensor) (fd : feed)
    (lvl : list (list Prob)) (pred_level : nat) :
  spec (fun _ => False)
       (fun out => out.1.2 = pred_level /\ out.1.1.1 ∈ commands)
       (score_level commands t fd lvl pred_level).
Proof.
  unfold score_level.
  apply (spec_bind _ (fun _ => True)); [apply spec_sess_probs|]. intros y _.
  apply (spec_bind _ (fun _ => True)); [by apply spec_lift|]. intros pc _.
  apply (spec_bind _ (fun c => c ∈ commands)); [apply spec_py_index|].
  intros command Hc.
  apply (spec_bind _ (fun _ => True)); [by apply spec_lift|]. intros y0 _.
  apply (spec_bind _ (fun _ => True)); [by apply spec_lift|]. intros p _.
  apply (spec_bind _ (fun _ => True)); [by apply spec_lift|]. intros lvl0 _.
  apply (spec_bind _ (fun _ => True)); [by apply spec_lift|]. intros q _.
  by apply spec_ret.
Qed.

Lemma score_dual_result (lvl_dict : per_level lvl_entry) (fd : feed) :
  spec (fun _ => False)
       (fun out => exists l, Z.of_nat out.1.2 = level_index l
                             /\ out.1.1.1 ∈ lvl_commands (pl_get lvl_dict l))
       (score_dual lvl_dict fd).
Proof.
  unfold score_dual.
  apply (spec_bind _ (fun _ => True)); [apply spec_sess_probs|]. intros lvl _.
  apply (spec_bind _ (fun _ => True)); [by apply spec_lift|]. intros pred_level _.
  destruct pred_level as [|[|[|n]]]; [| | |apply spec_raise];
    (eapply spec_weaken; [apply score_level_result|]);
    intros out [Hl Hc]; [exists L0 | exists L1 | exists L2]; by rewrite Hl.
Qed.

Lemma spec_silent {A : Type} (R : A -> Prop) (m : M A) (s : St Session Loss) :
  spec (fun _ => False) R m ->
  trace (m s).2 = trace s /\ forall a, (m s).1 = Ok a -> R a.
Proof.
  intros Hm. destruct (Hm s) as (evs & Htr & Hq & Hr).
  destruct evs as [|ev evs]; [|by apply Forall_cons in Hq as [[] _]].
  rewrite app_nil_r in Htr. done.
Qed.

(** X15: what [score] can return.  In the two dual models a returned
    tuple holds a level that is 0, 1 or 2 and the tokens of a command of
    the command set of that very level; [RNNClassifier.score] returns a
    command of its command set.  Whatever the session answers and
    however the call ends, it records no optimizer step: the trace is
    left as it was. *)
Theorem score_returns_command_of_level (nl_command : list string)
    (s : St Session Loss) :
  (forall m : NNDual,
     trace (NN_score m nl_command s).2 = trace s
     /\ forall command p lvl q,
          (NN_score m nl_command s).1 = Ok (command, p, lvl, q) ->
          exists l, Z.of_nat lvl = level_index l
                    /\ command ∈ lvl_commands (pl_get (nn_lvl_dict m) l))
  /\ (forall m : RNNDual,
        trace (RNN_score m nl_command s).2 = trace s
        /\ forall command p lvl q,
             (RNN_score m nl_command s).1 = Ok (command, p, lvl, q) ->
             exists l, Z.of_nat lvl = level_index l
                       /\ command ∈ lvl_commands (pl_get (rnn_lvl_dict m) l))
  /\ (forall m : RNNClassifier,
        trace (RC_score m nl_command s).2 = trace s
        /\ forall command p,
             (RC_score m nl_command s).1 = Ok (command, p) ->
             command ∈ rc_commands m).
Proof.
  split; [|split]; intros m.
  - destruct (spec_silent
      (fun out => exists l, Z.of_nat out.1.2 = level_index l
                            /\ out.1.1.1 ∈ lvl_commands (pl_get (nn_lvl_dict m) l))
      (NN_score m nl_command) s) as [Htr Hr].
    { unfold NN_score. apply (spec_bind _ (fun _ => True)); [by apply spec_lift|].
      intros seq _. apply score_dual_result. }
    split; [done|]. intros command p lvl q Hout. exact (Hr _ Hout).
  - destruct (spec_silent
      (fun out => exists l, Z.of_nat out.1.2 = level_index l
                            /\ out.1.1.1 ∈ lvl_commands (pl_get (rnn_lvl_dict m) l))
      (RNN_score m nl_command) s) as [Htr Hr].
    { unfold RNN_score. apply (spec_bind _ (fun _ => True)); [by apply spec_lift|].
      intros seq _. apply score_dual_result. }
    split; [done|]. intros command p lvl q Hout. exact (Hr _ Hout).
  - destruct (spec_silent (fun out => out.1 ∈ rc_commands m)
                (RC_score m nl_command) s) as [Htr Hr].
    { unfold RC_score. apply (spec_bind _ (fun _ => True)); [by apply spec_lift|].
      intros seq _.
      apply (spec_bind _ (fun _ => True)); [apply spec_sess_probs|]. intros y _.
      apply (spec_bind _ (fun _ => True)); [by apply spec_lift|]. intros pc _.
      apply (spec_bind _ (fun c => c ∈ rc_commands m)); [apply spec_py_index|].
      intros command Hc.
      apply (spec_bind _ (fun _ => True)); [by apply spec_lift|]. intros y0 _.
      apply (spec_bind _ (fun _ => True)); [by apply spec_lift|]. intros p _.
      by apply spec_ret. }
    split; [done|]. intros command p Hout. exact (Hr _ Hout).
Qed.

End ScoreResult.

(** ** Scoring in sequence mode is a query *)

Section SequenceQuery.

Context `{E : Engine}.
(** a forward pass writes no variable *)
Hypothesis probs_frame :
  forall t fd se, params_of (run_probs t fd se).2 = params_of se.
(** with dropout switched off the fetched probabilities are a function of
    the feed and of the variables *)
Hypothesis probs_deterministic :
  forall t fd se se',
    fd_keep_prob fd = 1%Q -> params_of se = params_of se' ->
    (run_probs t fd se).1 = (run_probs t fd se').1.

Lemma pure_RC_score (m : RNNClassifier) (nl_command : list string) :
  pure_query (RC_score m nl_command).
Proof using probs_frame probs_deterministic.
  unfold RC_score. apply pure_bind; [apply pure_lift|]. intros seq.
  apply pure_bind; [by apply pure_sess_probs|]. intros y.
  repeat (apply pure_bind; [apply pure_lift|]; intros ?).
  apply pure_ret.
Qed.

Lemma pure_query_twice {A : Type} (m : M A) (s : St Session Loss) :
  pure_query m ->
  (m s).1 = (m (m s).2).1
  /\ params_of (session (m s).2) = params_of (session s)
  /\ params_of (session (m (m s).2).2) = params_of (session s)
  /\ trace (m (m s).2).2 = trace s.
Proof using Type.
  intros Hm.
  destruct (Hm s s eq_refl) as (_ & Hp & Ht).
  destruct (Hm s (m s).2) as (Hr & _ & _); [by symmetry|].
  destruct (Hm (m s).2 (m s).2 eq_refl) as (_ & Hp2 & Ht2).
  split; [done|]. split; [done|]. split; congruence.
Qed.

(** X16: in sequence mode too, two calls of [score] in a row on the same
    input return the same output (value or exception), neither changes a
    model parameter and neither records anything, for [RNNDual] and for
    [RNNClassifier]; the engine is assumed to write no variable in a
    forward pass and to compute, with dropout off, probabilities that
    depend on the feed and the variables only. *)
Theorem sequence_score_twice_same_output (nl_command : list string)
    (s : St Session Loss) :
  (forall m : RNNDual,
     let first := RNN_score m nl_command s in
     let second := RNN_score m nl_command first.2 in
     first.1 = second.1
     /\ params_of (session first.2) = params_of (session s)
     /\ params_of (session second.2) = params_of (session s)
     /\ trace second.2 = trace s)
  /\ (forall m : RNNClassifier,
        let first := RC_score m nl_command s in
        let second := RC_score m nl_command first.2 in
        first.1 = second.1
        /\ params_of (session first.2) = params_of (session s)
        /\ params_of (session second.2) = params_of (session s)
        /\ trace second.2 = trace s).
Proof using probs_frame probs_deterministic.
  split; intros m first second.
  - apply pure_query_twice. by apply pure_RNN_score.
  - apply pure_query_twice. apply pure_RC_score.
Qed.

End SequenceQuery.

(** ** The single-model classifier picks the first best command *)

Lemma py_index_None {A : Type} (l : list A) (i : nat) :
  l !! i = None -> py_index l i = Raise IndexError.
Proof. intros H. unfold py_index. by rewrite H. Qed.

Section SingleScoring.

Context `{E : Engine}.
Hypothesis prob_leb_total : forall x y, prob_leb x y = true \/ prob_leb y x = true.
Hypothesis prob_leb_trans :
  forall x y z, prob_leb x y = true -> prob_leb y z = true -> prob_leb x z = true.

(** X17: [RNNClassifier.score], once the input row [seq] is built and
    the session answers one non-empty row of probabilities: the command
    id is the first position of the greatest entry of the row; the call
    returns the command at that position with the probability at that
    position, and raises [IndexError] when the command set has no such
    position.  The state afterwards is the session the engine returned
    and the trace as it was. *)
Theorem RC_score_first_maximum (m : RNNClassifier) (nl_command : list string)
    (seq : list Z) (y_row : list Prob) (s : St Session Loss) (s1 : Session) :
  RC_input m nl_command = Ok seq ->
  run_probs rc_probs (score_feed seq (Some [py_len nl_command])) (session s)
  = (Ok [y_row], s1) ->
  y_row <> [] ->
  exists pred_command p,
    is_first_max y_row pred_command
    /\ y_row !! pred_command = Some p
    /\ RC_score m nl_command s
       = (match rc_commands m !! pred_command with
          | Some command => Ok (command, p)
          | None => Raise IndexError
          end, MkSt s1 (trace s)).
Proof using prob_leb_total prob_leb_trans.
  intros Hseq Hrun Hrow.
  destruct (argmax_one_row prob_leb_total prob_leb_trans y_row Hrow)
    as (pc & Hpc & Hmax).
  destruct (is_first_max_lookup _ _ Hmax) as [p Hp].
  exists pc, p. split; [done|]. split; [done|].
  unfold RC_score. rewrite Hseq, bind_lift_Ok. rewrite bind_run.
  unfold sess_probs at 1. rewrite Hrun. rewrite Hpc, bind_lift_Ok.
  destruct (rc_commands m !! pc) as [command|] eqn:Hc.
  - rewrite (py_index_Some (rc_commands m) pc command Hc), bind_lift_Ok.
    rewrite (py_index_Some [y_row] 0 y_row eq_refl), bind_lift_Ok.
    by rewrite (py_index_Some y_row pc p Hp), bind_lift_Ok.
  - by rewrite (py_index_None (rc_commands m) pc Hc), bind_lift_Raise.
Qed.

End SingleScoring.

(** ** The averages [fit] prints *)

Lemma py_range_count (n : Z) :
  py_range 0 n 1 = Ok (Z.of_nat <$> seq 0 (Z.to_nat n)).
Proof.
  unfold py_range. simpl. f_equal.
  assert (Hn : Z.to_nat (if 0 <? n then (n - 0 + 1 - 1) `div` 1 else 0) = Z.to_nat n).
  { destruct (Z.ltb_spec 0 n); [|lia]. rewrite Z.div_1_r. lia. }
  rewrite Hn. apply list_fmap_ext. intros _ i _. lia.
Qed.

Section Averages.

Context `{E : Engine}.

Lemma epoch_total_app (c : Loss) (evs1 evs2 : list (event Loss)) :
  epoch_total c (evs1 ++ evs2) = epoch_total (epoch_total c evs1) evs2.
Proof. unfold epoch_total. apply foldl_app. Qed.

Lemma accum_count_app (evs1 evs2 : list (event Loss)) :
  accum_count (evs1 ++ evs2) = accum_count evs1 + accum_count evs2.
Proof. unfold accum_count. rewrite filter_app, length_app. lia. Qed.

Lemma accum_count_nonneg (evs : list (event Loss)) : 0 <= accum_count evs.
Proof. unfold accum_count. lia. Qed.

Lemma logged_bind {A B : Type} (c : Loss) (b : Z)
    (R : A -> Loss -> Z -> Prop) (R' : B -> Loss -> Z -> Prop)
    (m : M A) (f : A -> M B) :
  logged c b R m -> (forall a c' b', R a c' b' -> logged c' b' R' (f a)) ->
  logged c b R' (m ≫= f).
Proof.
  intros Hm Hf s. rewrite bind_run.
  destruct (Hm s) as (evs & Htr & Hq & Hr).
  destruct (m s) as [[a|e] s1]; simpl in *.
  - destruct (Hf a _ _ (Hr a eq_refl) s1) as (evs' & Htr' & Hq' & Hr').
    exists (evs ++ evs'). rewrite Htr', Htr, app_assoc.
    split; [done|]. split; [by apply Forall_app|].
    intros x Hx. rewrite epoch_total_app, accum_count_app, Z.add_assoc.
    by apply Hr'.
  - exists evs. by split; [|split].
Qed.

Lemma logged_ret {A : Type} (c : Loss) (b : Z) (R : A -> Loss -> Z -> Prop) (a : A) :
  R a c b -> logged c b R (mret a).
Proof.
  intros Ha s. exists []. simpl. rewrite app_nil_r.
  split; [done|]. split; [done|]. intros a' [= <-].
  unfold accum_count. simpl. by rewrite Z.add_0_r.
Qed.

Lemma logged_forM {A B : Type} (I : A -> Loss -> Z -> Prop)
    (body : A -> B -> M A) (l : list B) (acc : A) (c : Loss) (b : Z) :
  I acc c b ->
  (forall acc c b x, x ∈ l -> I acc c b -> logged c b I (body acc x)) ->
  logged c b I (forM body acc l).
Proof.
  revert acc c b. induction l as [|x l IH]; intros acc c b Hacc Hbody.
  - by apply logged_ret.
  - cbn [forM]. apply (logged_bind _ _ I).
    + apply Hbody; [left | done].
    + intros acc' c' b' Hacc'. apply IH; [done|].
      intros a c2 b2 y Hy. apply Hbody. by right.
Qed.

(** a computation that only takes optimizer steps moves neither the
    running loss nor the number of positions *)
Lemma logged_of_spec {A : Type} (c : Loss) (b : Z) (R : A -> Prop) (m : M A) :
  spec (fun ev => is_train ev = true) R m ->
  logged c b (fun a c' b' => R a /\ c' = c /\ b' = b) m.
Proof.
  intros Hm s. destruct (Hm s) as (evs & Htr & Hq & Hr).
  assert (Hevs : Forall not_print evs /\ epoch_total c evs = c /\ accum_count evs = 0).
  { clear Htr Hr. induction Hq as [|ev evs Hev _ IH]; [done|].
    destruct IH as (Hp & Ht & Hc). destruct ev; try done.
    split; [by constructor|]. split; [done|].
    unfold accum_count in *. by rewrite filter_cons_False by done. }
  destruct Hevs as (Hp & Ht & Hc).
  exists evs. split; [done|]. split; [done|]. intros a Ha.
  rewrite Ht, Hc, Z.add_0_r. split; [by apply Hr | done].
Qed.

Lemma logged_accum (c : Loss) (b : Z) (e start stop : Z) (l0 l1 l2 : Loss) :
  logged c b (fun _ c' b' => c' = loss_add c (loss_add (loss_add l0 l1) l2)
                             /\ b' = b + 1)
         (emit (EvAccum e start stop l0 l1 l2)).
Proof.
  intros s. exists [EvAccum e start stop l0 l1 l2]. simpl.
  split; [done|]. split; [by constructor | done].
Qed.

Lemma NN_fit_level_trains (m : NNDual) (lvl : level) (start stop : Z) :
  spec (fun ev => is_train ev = true) (fun _ => True) (NN_fit_level m lvl start stop).
Proof.
  unfold NN_fit_level.
  destruct (stop <? py_len (pl_get (nn_train_x m) lvl)); [|by apply spec_ret].
  apply (spec_bind _ (fun _ => True)); [by apply spec_lift|]. intros lvl_y _.
  by apply spec_sess_train.
Qed.

Lemma RNN_fit_level_trains (m : RNNDual) (z : list Z) (lvl : level)
    (start stop : Z) (prev : Loss) :
  spec (fun ev => is_train ev = true) (fun _ => True)
       (RNN_fit_level m z lvl start stop prev).
Proof.
  unfold RNN_fit_level.
  destruct (stop <? py_len (pl_get (rnn_train_x m) lvl)); [|by apply spec_ret].
  by apply spec_sess_train.
Qed.

Lemma NN_positions_logged (m : NNDual) (e : Z) (ps : list (Z * Z)) :
  logged loss_zero 0 (fun acc c b => acc = (c, b))
         (forM (NN_fit_position m e) (loss_zero, 0) ps).
Proof.
  apply logged_forM; [done|]. intros [curr_loss batches] c b [start stop] _ [= -> ->].
  unfold NN_fit_position.
  eapply logged_bind; [apply logged_of_spec, NN_fit_level_trains|].
  intros l0 c' b' (_ & -> & ->).
  eapply logged_bind; [apply logged_of_spec, NN_fit_level_trains|].
  intros l1 c' b' (_ & -> & ->).
  eapply logged_bind; [apply logged_of_spec, NN_fit_level_trains|].
  intros l2 c' b' (_ & -> & ->).
  eapply logged_bind; [apply logged_accum|].
  intros _ c' b' [-> ->]. by apply logged_ret.
Qed.

Lemma RNN_positions_logged (m : RNNDual) (z : list Z) (e : Z)
    (losses : Loss * Loss * Loss) (ps : list (Z * Z)) :
  logged loss_zero 0 (fun acc c b => acc.1 = (c, b))
         (forM (RNN_fit_position m z e) (loss_zero, 0, losses) ps).
Proof.
  apply logged_forM; [done|].
  intros [[curr_loss batches] [[p0 p1] p2]] c b [start stop] _ [= -> ->].
  unfold RNN_fit_position.
  eapply logged_bind; [apply logged_of_spec, RNN_fit_level_trains|].
  intros l0 c' b' (_ & -> & ->).
  eapply logged_bind; [apply logged_of_spec, RNN_fit_level_trains|].
  intros l1 c' b' (_ & -> & ->).
  eapply logged_bind; [apply logged_of_spec, RNN_fit_level_trains|].
  intros l2 c' b' (_ & -> & ->).
  eapply logged_bind; [apply logged_accum|].
  intros _ c' b' [-> ->]. by apply logged_ret.
Qed.

(** an epoch that completes *)
Lemma print_average_run (e : Z) (curr_loss : Loss) (batches : Z)
    (s s' : St Session Loss) :
  print_average e curr_loss batches s = (Ok tt, s') ->
  batches <> 0
  /\ s' = MkSt (session s)
               (trace s ++ [EvPrintEpoch e; EvPrintLoss (loss_div curr_loss batches)]).
Proof.
  unfold print_average. rewrite bind_run. unfold emit at 1.
  destruct (Z.eqb_spec batches 0); [done|]. unfold emit. simpl.
  intros [= <-]. split; [done|]. by rewrite <- app_assoc.
Qed.

Lemma NN_fit_epoch_log (m : NNDual) (chunk_size e : Z) (s s' : St Session Loss) :
  NN_fit_epoch m chunk_size e s = (Ok tt, s') ->
  exists body,
    trace s' = trace s ++ body
                 ++ [EvPrintEpoch e;
                     EvPrintLoss (loss_div (epoch_total loss_zero body)
                                           (accum_count body))]
    /\ Forall not_print body /\ accum_count body <> 0.
Proof.
  unfold NN_fit_epoch. rewrite bind_run. unfold lift at 1.
  destruct (NN_positions m chunk_size) as [ps|]; [|done].
  rewrite bind_run.
  destruct (NN_positions_logged m e ps s) as (body & Htr & Hq & Hr).
  destruct (forM (NN_fit_position m e) (loss_zero, 0) ps s)
    as [[[curr_loss batches]|] s1]; [|done].
  simpl in Htr. specialize (Hr _ eq_refl). injection Hr as -> ->.
  intros Hp. apply print_average_run in Hp as [Hne ->].
  exists body. simpl. rewrite Htr, Z.add_0_l in *. by rewrite <- app_assoc.
Qed.

Lemma RNN_fit_epoch_log (m : RNNDual) (chunk_size : Z) (z : list Z)
    (losses losses' : Loss * Loss * Loss) (e : Z) (s s' : St Session Loss) :
  RNN_fit_epoch m chunk_size z losses e s = (Ok losses', s') ->
  exists body,
    trace s' = trace s ++ body
                 ++ [EvPrintEpoch e;
                     EvPrintLoss (loss_div (epoch_total loss_zero body)
                                           (accum_count body))]
    /\ Forall not_print body /\ accum_count body <> 0.
Proof.
  unfold RNN_fit_epoch. rewrite bind_run. unfold lift at 1.
  destruct (RNN_positions m chunk_size) as [ps|]; [|done].
  rewrite bind_run.
  destruct (RNN_positions_logged m z e losses ps s) as (body & Htr & Hq & Hr).
  destruct (forM (RNN_fit_position m z e) (loss_zero, 0, losses) ps s)
    as [[[[curr_loss batches] losses1]|] s1]; [|done].
  simpl in Htr. specialize (Hr _ eq_refl). simpl in Hr. injection Hr as -> ->.
  rewrite bind_run.
  destruct (print_average e (epoch_total loss_zero body) (0 + accum_count body) s1)
    as [[[]|] s2] eqn:Hp; [|done].
  apply print_average_run in Hp as [Hne ->]. intros [= _ <-].
  exists body. simpl. rewrite Htr, Z.add_0_l in *. by rewrite <- app_assoc.
Qed.

Lemma NN_fit_epochs_log (m : NNDual) (chunk_size : Z) (k n : nat)
    (s s' : St Session Loss) :
  forM (fun _ e => NN_fit_epoch m chunk_size e) tt (Z.of_nat <$> seq k n) s
  = (Ok tt, s') ->
  exists evs, trace s' = trace s ++ evs /\ epoch_log (Z.of_nat k) n evs.
Proof.
  revert k s. induction n as [|n IH]; intros k s.
  - simpl. intros [= <-]. exists []. by rewrite app_nil_r.
  - cbn [seq fmap list_fmap forM]. rewrite bind_run.
    destruct (NN_fit_epoch m chunk_size (Z.of_nat k) s) as [[[]|] s1] eqn:He; [|done].
    intros Hrest. apply NN_fit_epoch_log in He as (body & Htr & Hq & Hne).
    destruct (IH (S k) s1 Hrest) as (rest & Htr' & Hlog).
    eexists. split.
    + rewrite Htr', Htr, <- !app_assoc. reflexivity.
    + exists body, rest. split; [done|]. split; [done|].
      split; [done|]. by replace (Z.of_nat k + 1) with (Z.of_nat (S k)) by lia.
Qed.

Lemma RNN_fit_epochs_log (m : RNNDual) (chunk_size : Z) (z : list Z) (k n : nat)
    (losses losses' : Loss * Loss * Loss) (s s' : St Session Loss) :
  forM (RNN_fit_epoch m chunk_size z) losses (Z.of_nat <$> seq k n) s
  = (Ok losses', s') ->
  exists evs, trace s' = trace s ++ evs /\ epoch_log (Z.of_nat k) n evs.
Proof.
  revert k losses s. induction n as [|n IH]; intros k losses s.
  - simpl. intros [= _ <-]. exists []. by rewrite app_nil_r.
  - cbn [seq fmap list_fmap forM]. rewrite bind_run.
    destruct (RNN_fit_epoch m chunk_size z losses (Z.of_nat k) s)
      as [[losses1|] s1] eqn:He; [|done].
    intros Hrest. apply RNN_fit_epoch_log in He as (body & Htr & Hq & Hne).
    destruct (IH (S k) losses1 s1 Hrest) as (rest & Htr' & Hlog).
    eexists. split.
    + rewrite Htr', Htr, <- !app_assoc. reflexivity.
    + exists body, rest. split; [done|]. split; [done|].
      split; [done|]. by replace (Z.of_nat k + 1) with (Z.of_nat (S k)) by lia.
Qed.

(** X18: what a call of [fit] that returns has printed, in the two dual
    models.  The events of the call are those of the epochs 0, 1, ... up
    to [epochs], in order; each epoch visits at least one position,
    prints nothing while it visits them, and ends with its number
    followed by the average: the sum, in the order of the positions, of
    the three summands recorded at each position, divided by the number
    of positions visited (positions at which no level had data left
    count too). *)
Theorem fit_prints_epoch_averages (chunk_size : Z) (s : St Session Loss) :
  (forall m : NNDual,
     (NN_fit m chunk_size s).1 = Ok tt ->
     exists evs,
       trace (NN_fit m chunk_size s).2 = trace s ++ evs
       /\ epoch_log 0 (Z.to_nat (nn_epochs m)) evs)
  /\ (forall m : RNNDual,
        (RNN_fit m chunk_size s).1 = Ok tt ->
        exists evs,
          trace (RNN_fit m chunk_size s).2 = trace s ++ evs
          /\ epoch_log 0 (Z.to_nat (rnn_epochs m)) evs).
Proof.
  split; intros m.
  - unfold NN_fit. rewrite py_range_count, !bind_lift_Ok.
    destruct (forM _ tt _ s) as [[[]|] s'] eqn:Hf; [|done]. intros _.
    by apply NN_fit_epochs_log in Hf.
  - unfold RNN_fit. destruct (np_zeros (rnn_bsz m)) as [z|]; [|done].
    rewrite !bind_lift_Ok, py_range_count, !bind_lift_Ok, !bind_run.
    destruct (forM _ _ _ s) as [[losses|] s'] eqn:Hf; [|done]. intros _.
    by apply RNN_fit_epochs_log in Hf.
Qed.

End Averages.

(** * Concrete runs

    The theorems above applied to small corpora, with [elements] as the
    enumeration of the token set, [std_order] as the order of the levels
    and [toy_engine] as the engine; and the inputs on which three
    sentences of the specification fail. *)

Lemma elements_enumerates (s : gset string) : elements s ≡ₚ elements s.
Proof. reflexivity. Defined.

Lemma std_order_enumerates : std_order ≡ₚ [L0; L1; L2].
Proof. reflexivity. Defined.

Lemma Z_leb_total (x y : Z) : (x <=? y) = true \/ (y <=? x) = true.
Proof. destruct (Z.leb_spec x y); [by left|]. right. apply Z.leb_le. lia. Defined.

Lemma Z_leb_trans (x y z : Z) :
  (x <=? y) = true -> (y <=? z) = true -> (x <=? z) = true.
Proof. rewrite !Z.leb_le. lia. Defined.

Lemma sample_targets_known (n0 n1 n2 : nat) :
  targets_known (make_lvl_dict (sample_corpus n0) (sample_corpus n1) (sample_corpus n2)
                               sample_commands sample_commands sample_commands).
Proof.
  intros lvl nl ml Hin.
  destruct lvl; simpl in *; apply elem_of_replicate in Hin as [[= -> ->] _]; left.
Defined.

Lemma sample_no_reserved_word (n0 n1 n2 : nat) (w : string) :
  w <> "go" -> w <> "north" ->
  w ∉ all_source_tokens (make_lvl_dict (sample_corpus n0) (sample_corpus n1)
                                       (sample_corpus n2)
                                       sample_commands sample_commands sample_commands).
Proof.
  intros Hgo Hnorth Hin. apply all_source_tokens_elem_of in Hin as [lvl Hin].
  unfold source_tokens in Hin. apply list_elem_of_join in Hin as (nl & Hw & Hnl).
  apply list_elem_of_fmap in Hnl as ([nl' ml] & -> & Hentry).
  destruct lvl; simpl in Hentry;
    apply elem_of_replicate in Hentry as [[= -> ->] _];
    simpl in Hw; rewrite !elem_of_cons, elem_of_nil in Hw; tauto.
Defined.

(** C3 fails as stated: on a corpus whose source sequence holds the token
    [<<PAD>>], [RNNDual] is constructed with [id2word] = [PAD, UNK, PAD];
    there is one distinct token, but the vocabulary has 2 entries and not
    3, and [word2id] sends [PAD] to 2 and not to 0. *)
Lemma build_vocabulary_reserved_word :
  exists m,
    RNNDual_init elements std_order [(["<<PAD>>"], ["MOVE"; "N"])] [] []
                 sample_commands sample_commands sample_commands 1 16 = Ok m
    /\ distinct_tokens (rnn_lvl_dict m) = 1%nat
    /\ size (rnn_word2id m) = 2%nat
    /\ rnn_word2id m !! PAD = Some 2%nat
    /\ rnn_id2word m = [PAD; UNK; PAD]
    /\ ~ vocabulary_ok (all_source_tokens (rnn_lvl_dict m))
                       (rnn_word2id m) (rnn_id2word m).
Proof.
  eexists. split; [vm_compute; reflexivity|].
  repeat split; try (vm_compute; reflexivity).
  intros (Hsize & _). vm_compute in Hsize. discriminate.
Qed.

(** C3 on a small corpus *)
Lemma build_vocabulary_bijection_witness :
  let lvl_dict := make_lvl_dict (sample_corpus 2) (sample_corpus 1) (sample_corpus 5)
                                sample_commands sample_commands sample_commands in
  vocabulary_ok (all_source_tokens lvl_dict)
    (NN_build_vocabulary elements std_order lvl_dict).1
    (NN_build_vocabulary elements std_order lvl_dict).2
  /\ vocabulary_ok (all_source_tokens lvl_dict)
       (RNN_build_vocabulary elements std_order lvl_dict).1.1.1
       (RNN_build_vocabulary elements std_order lvl_dict).1.1.2.
Proof.
  apply (build_vocabulary_bijection elements std_order).
  - exact elements_enumerates.
  - exact std_order_enumerates.
  - by apply sample_no_reserved_word.
  - by apply sample_no_reserved_word.
Defined.

(** C2 fails as stated: a corpus whose source sequence holds the token
    [<<UNK>>] has no vectorized input at all; [word2id] has 2 entries and
    sends the token to 2, so the histogram loop indexes outside the vector
    and construction raises [IndexError]. *)
Lemma NN_vectorize_reserved_word :
  NNDual_init elements std_order [(["<<UNK>>"], ["MOVE"; "N"])] [] []
              sample_commands sample_commands sample_commands 1 16 = Raise IndexError.
Proof. vm_compute. reflexivity. Qed.

(** C2 on a small corpus *)
Lemma NN_vectorize_word_counts_witness :
  exists m,
    NNDual_init elements std_order (sample_corpus 2) (sample_corpus 1) (sample_corpus 5)
                sample_commands sample_commands sample_commands 1 16 = Ok m
    /\ forall lvl j nl ml,
         lvl_pc (pl_get (make_lvl_dict (sample_corpus 2) (sample_corpus 1) (sample_corpus 5)
                           sample_commands sample_commands sample_commands) lvl) !! j
         = Some (nl, ml) ->
         exists v,
           pl_get (nn_train_x m) lvl !! j = Some v
           /\ length v = size (nn_word2id m)
           /\ forall i, (i < size (nn_word2id m))%nat ->
                exists w, nn_id2word m !! i = Some w
                          /\ v !! i = Some (Z.of_nat (occurrences w nl)).
Proof.
  apply (NN_vectorize_word_counts elements std_order).
  - exact elements_enumerates.
  - exact std_order_enumerates.
  - by apply sample_no_reserved_word.
  - by apply sample_no_reserved_word.
  - apply sample_targets_known.
  - intros lvl nl ml Hin.
    destruct lvl; simpl in Hin;
      apply elem_of_replicate in Hin as [[= -> ->] _]; simpl; lia.
Defined.

(** C5 on a small corpus, for [RNNDual] *)
Lemma sequence_vectorize_padded_witness :
  exists m,
    RNNDual_init elements std_order (sample_corpus 2) (sample_corpus 1) (sample_corpus 5)
                 sample_commands sample_commands sample_commands 1 16 = Ok m
    /\ is_longest (rnn_max_len m)
         (all_source_lengths (make_lvl_dict (sample_corpus 2) (sample_corpus 1) (sample_corpus 5)
                                sample_commands sample_commands sample_commands))
    /\ forall lvl j nl ml,
         lvl_pc (pl_get (make_lvl_dict (sample_corpus 2) (sample_corpus 1) (sample_corpus 5)
                           sample_commands sample_commands sample_commands) lvl) !! j
         = Some (nl, ml) ->
         exists v,
           pl_get (rnn_train_x m) lvl !! j = Some v
           /\ py_len v = rnn_max_len m
           /\ padded_ids (rnn_word2id m) nl v
           /\ pl_get (rnn_lengths m) lvl !! j = Some (py_len nl).
Proof.
  apply (proj1 (sequence_vectorize_padded elements std_order 1 16
                  elements_enumerates std_order_enumerates)).
  - apply sample_targets_known.
  - vm_compute. discriminate.
Defined.

(** C4 on the small engine: [NNDual.score] of an input with an unknown
    word *)
Lemma score_two_stage_witness :
  exists m,
    NNDual_init elements std_order (sample_corpus 2) (sample_corpus 1) (sample_corpus 5)
                sample_commands sample_commands sample_commands 1 16 = Ok m
    /\ two_stage (E := toy_engine) (nn_lvl_dict m) (score_feed [0; 1; 2; 0] None)
         (MkSt 0%nat [])
         (NN_score (E := toy_engine) m ["go"; "go"; "zz"] (MkSt 0%nat [])).
Proof.
  eexists. split; [vm_compute; reflexivity|].
  apply (proj1 (score_two_stage (E := toy_engine) Z_leb_total Z_leb_trans
                  ["go"; "go"; "zz"] [0; 1; 2; 0] (MkSt 0%nat []))).
  vm_compute. reflexivity.
Defined.

(** C6 on the small engine: an input of five tokens on a model fitted
    to sequences of two *)
Lemma score_truncates_long_input_witness :
  exists m,
    RNNDual_init elements std_order (sample_corpus 2) (sample_corpus 1) (sample_corpus 5)
                 sample_commands sample_commands sample_commands 1 16 = Ok m
    /\ let nl := ["go"; "north"; "then"; "go"; "south"] in
       let cut := take (Z.to_nat (rnn_max_len m)) nl in
       (exists seq, RNN_input m nl = Ok seq /\ RNN_input m cut = Ok seq)
       /\ RNN_score (E := toy_engine) m nl (MkSt 0%nat [])
          = RNN_score (E := toy_engine) m cut (MkSt 0%nat []).
Proof.
  eexists. split; [vm_compute; reflexivity|].
  apply (proj1 (score_truncates_long_input (E := toy_engine)
                  (fun t seq n se _ => eq_refl)
                  ["go"; "north"; "then"; "go"; "south"] (MkSt 0%nat []))).
  vm_compute. split; [discriminate | reflexivity].
Defined.

(** C7 on the small engine: L1 holds exactly 16 examples *)
Lemma fit_sixteen_examples_no_step_witness :
  exists m,
    NNDual_init elements std_order (sample_corpus 48) (sample_corpus 16) (sample_corpus 5)
                sample_commands sample_commands sample_commands 1 16 = Ok m
    /\ exists evs,
         trace (NN_fit (E := toy_engine) m 48 (MkSt 0%nat [])).2 = [] ++ evs
         /\ steps_of (train_op_of L1) evs = 0%nat.
Proof.
  eexists. split; [vm_compute; reflexivity|].
  apply (proj1 (fit_sixteen_examples_no_step (E := toy_engine) 48 L1)).
  - vm_compute. reflexivity.
  - vm_compute. reflexivity.
Defined.

(** C8 on the small engine *)
Lemma fit_chunk_zero_trains_nothing_witness :
  exists m,
    NNDual_init elements std_order (sample_corpus 48) (sample_corpus 16) (sample_corpus 5)
                sample_commands sample_commands sample_commands 1 16 = Ok m
    /\ session (NN_fit (E := toy_engine) m 0 (MkSt 5%nat [])).2 = 5%nat
    /\ nothing_trained (E := toy_engine) (MkSt 5%nat [])
         (NN_fit (E := toy_engine) m 0 (MkSt 5%nat [])).2.
Proof.
  eexists. split; [vm_compute; reflexivity|].
  apply (proj1 (fit_chunk_zero_trains_nothing (E := toy_engine) (MkSt 5%nat []))).
Defined.

(** C9 on the small engine *)
Lemma score_twice_same_output_witness :
  exists m,
    NNDual_init elements std_order (sample_corpus 2) (sample_corpus 1) (sample_corpus 5)
                sample_commands sample_commands sample_commands 1 16 = Ok m
    /\ let first := NN_score (E := toy_engine) m ["go"; "zz"] (MkSt 3%nat []) in
       let second := NN_score (E := toy_engine) m ["go"; "zz"] first.2 in
       first.1 = second.1
       /\ session first.2 = 3%nat
       /\ session second.2 = 3%nat.
Proof.
  eexists. split; [vm_compute; reflexivity|].
  apply (score_twice_same_output (E := toy_engine)
           (fun t fd se => eq_refl) (fun t fd se se' _ _ => eq_refl)).
Defined.

(** C10 fails as stated, in its example: with [batch_size] = 16, 40
    examples for L0 and [chunk_size] = -1, which is at most the batch
    size, the slice [train_x['L0'][:-1]] holds 39 rows, two positions are
    visited and [fit] takes three optimizer steps and returns; and with
    [batch_size] = 0 and [chunk_size] = 0 the call raises [ValueError]
    from [range], not a division by zero. *)
Lemma fit_negative_chunk_visits_positions :
  exists m m0,
    NNDual_init elements std_order (sample_corpus 40) (sample_corpus 20) (sample_corpus 5)
                sample_commands sample_commands sample_commands 1 16 = Ok m
    /\ NNDual_init elements std_order (sample_corpus 40) (sample_corpus 20) (sample_corpus 5)
                   sample_commands sample_commands sample_commands 1 0 = Ok m0
    /\ -1 <= nn_bsz m
    /\ NN_positions m (-1) = Ok [(0, 16); (16, 32)]
    /\ (NN_fit (E := toy_engine) m (-1) (MkSt 0%nat [])).1 = Ok tt
    /\ steps (trace (NN_fit (E := toy_engine) m (-1) (MkSt 0%nat [])).2) = 3%nat
    /\ 0 <= nn_bsz m0
    /\ (NN_fit (E := toy_engine) m0 0 (MkSt 0%nat [])).1 = Raise ValueError.
Proof.
  eexists. eexists.
  split; [vm_compute; reflexivity|].
  split; [vm_compute; reflexivity|].
  split; [vm_compute; discriminate|].
  split; [vm_compute; reflexivity|].
  split; [vm_compute; reflexivity|].
  split; [vm_compute; reflexivity|].
  split; [vm_compute; discriminate|].
  vm_compute; reflexivity.
Qed.

(** C10 on the small engine: [chunk_size] = [batch_size] = 16 *)
Lemma fit_no_position_divides_by_zero_witness :
  exists m,
    NNDual_init elements std_order (sample_corpus 40) (sample_corpus 20) (sample_corpus 5)
                sample_commands sample_commands sample_commands 1 16 = Ok m
    /\ NN_positions m 16 = Ok []
    /\ NN_fit (E := toy_engine) m 16 (MkSt 0%nat [])
       = (Raise ZeroDivisionError, MkSt 0%nat [EvPrintEpoch 0]).
Proof.
  eexists. split; [vm_compute; reflexivity|].
  match goal with
  | |- NN_positions ?m _ = _ /\ _ =>
      pose proof (proj1 (fit_no_position_divides_by_zero (E := toy_engine) 16
                           (MkSt 0%nat [])) m) as [Hfit Hpos];
      assert (Hp : NN_positions m 16 = Ok [])
        by (apply Hpos; vm_compute; [reflexivity | split; discriminate])
  end.
  split; [exact Hp|]. apply Hfit; [vm_compute; reflexivity | exact Hp].
Defined.

(** ** The further properties on concrete inputs *)

(** X1 on the sample commands *)
Lemma make_labels_last_position_witness :
  make_labels sample_commands !! join_tokens ["MOVE"; "S"] = Some 1%nat.
Proof.
  apply (proj2 (make_labels_last_position sample_commands)).
  - apply (bool_decide_unpack _). vm_compute. exact I.
  - reflexivity.
Defined.

(** X2 on a corpus that holds a reserved word *)
Lemma build_vocabulary_sound_witness :
  vocabulary_sound (source_tokens [(["<<PAD>>"; "go"], ["MOVE"; "N"])])
    (RC_build_vocabulary elements [(["<<PAD>>"; "go"], ["MOVE"; "N"])]).1
    (RC_build_vocabulary elements [(["<<PAD>>"; "go"], ["MOVE"; "N"])]).2.
Proof.
  apply (proj2 (build_vocabulary_sound elements std_order
                  elements_enumerates std_order_enumerates)).
Defined.

(** X3 on a small corpus *)
Lemma RC_build_vocabulary_bijection_witness :
  vocabulary_ok (source_tokens (sample_corpus 3))
    (RC_build_vocabulary elements (sample_corpus 3)).1
    (RC_build_vocabulary elements (sample_corpus 3)).2.
Proof.
  apply (RC_build_vocabulary_bijection elements (sample_corpus 3)).
  - exact elements_enumerates.
  - apply (bool_decide_unpack _). vm_compute. exact I.
  - apply (bool_decide_unpack _). vm_compute. exact I.
Defined.

(** X4 on a corpus with a target that is no command *)
Lemma NNDual_init_outcome_witness :
  match NNDual_init elements std_order (sample_corpus 2) [(["go"], ["JUMP"])] []
                    sample_commands sample_commands sample_commands 1 16 with
  | Ok m =>
      (PAD ∉ all_source_tokens
               (make_lvl_dict (sample_corpus 2) [(["go"], ["JUMP"])] []
                              sample_commands sample_commands sample_commands))
      /\ (UNK ∉ all_source_tokens
                  (make_lvl_dict (sample_corpus 2) [(["go"], ["JUMP"])] []
                                 sample_commands sample_commands sample_commands))
      /\ targets_joined_known
           (make_lvl_dict (sample_corpus 2) [(["go"], ["JUMP"])] []
                          sample_commands sample_commands sample_commands)
  | Raise e =>
      (e = KeyError
       /\ ~ targets_joined_known
              (make_lvl_dict (sample_corpus 2) [(["go"], ["JUMP"])] []
                             sample_commands sample_commands sample_commands))
      \/ (e = IndexError
          /\ (PAD ∈ all_source_tokens
                      (make_lvl_dict (sample_corpus 2) [(["go"], ["JUMP"])] []
                                     sample_commands sample_commands sample_commands)
              \/ UNK ∈ all_source_tokens
                         (make_lvl_dict (sample_corpus 2) [(["go"], ["JUMP"])] []
                                        sample_commands sample_commands
                                        sample_commands)))
  end.
Proof.
  apply (NNDual_init_outcome elements std_order (sample_corpus 2)
           [(["go"], ["JUMP"])] [] sample_commands sample_commands sample_commands
           1 16).
  - exact elements_enumerates.
  - exact std_order_enumerates.
Defined.

(** X5 on a corpus that holds a reserved word *)
Lemma RNNDual_init_outcome_witness :
  match RNNDual_init elements std_order [(["<<UNK>>"; "go"], ["MOVE"; "N"])] [] []
                     sample_commands sample_commands sample_commands 1 16 with
  | Ok m =>
      targets_joined_known
        (make_lvl_dict [(["<<UNK>>"; "go"], ["MOVE"; "N"])] [] []
                       sample_commands sample_commands sample_commands)
  | Raise e =>
      e = KeyError
      /\ ~ targets_joined_known
             (make_lvl_dict [(["<<UNK>>"; "go"], ["MOVE"; "N"])] [] []
                            sample_commands sample_commands sample_commands)
  end.
Proof.
  apply (RNNDual_init_outcome elements std_order
           [(["<<UNK>>"; "go"], ["MOVE"; "N"])] [] []
           sample_commands sample_commands sample_commands 1 16).
  exact std_order_enumerates.
Defined.

(** X7 on a small corpus, for [NNDual] *)
Lemma train_arrays_parallel_witness :
  exists m,
    NNDual_init elements std_order (sample_corpus 2) (sample_corpus 1) (sample_corpus 5)
                sample_commands sample_commands sample_commands 1 16 = Ok m
    /\ forall lvl,
         parallel_arrays (lvl_commands (pl_get (nn_lvl_dict m) lvl))
                         (lvl_pc (pl_get (nn_lvl_dict m) lvl))
                         (fun v => length v = size (nn_word2id m))
                         (pl_get (nn_train_x m) lvl) (pl_get (nn_train_y m) lvl).
Proof.
  eexists. split; [vm_compute; reflexivity|].
  apply (proj1 (train_arrays_parallel elements std_order 1 16 std_order_enumerates)
           (sample_corpus 2) (sample_corpus 1) (sample_corpus 5)
           sample_commands sample_commands sample_commands).
  vm_compute. reflexivity.
Defined.

(** X8 on 40 rows and a batch size of 16 *)
Lemma positions_windows_witness :
  exists ps,
    positions 40 16 = Ok ps
    /\ Z.of_nat (length ps) = Z.max 0 ((40 - 1) `div` 16)
    /\ forall (i : nat) start stop,
         ps !! i = Some (start, stop) ->
         start = Z.of_nat i * 16 /\ stop = start + 16 /\ stop <= 40 - 1.
Proof. apply (positions_windows 40 16). lia. Defined.

(** X9 on the small engine *)
Lemma fit_feeds_windows_witness :
  exists m,
    NNDual_init elements std_order (sample_corpus 48) (sample_corpus 20) (sample_corpus 5)
                sample_commands sample_commands sample_commands 1 16 = Ok m
    /\ exists evs,
         trace (NN_fit (E := toy_engine) m 48 (MkSt 0%nat [])).2 = [] ++ evs
         /\ Forall (NN_step m) evs.
Proof.
  eexists. split; [vm_compute; reflexivity|].
  apply (proj1 (fit_feeds_windows (E := toy_engine) 48 (MkSt 0%nat []))).
  vm_compute. reflexivity.
Defined.

(** X12 on the small engine: no epoch *)
Lemma fit_degenerate_parameters_witness :
  exists m,
    NNDual_init elements std_order (sample_corpus 48) (sample_corpus 20) (sample_corpus 5)
                sample_commands sample_commands sample_commands 0 16 = Ok m
    /\ NN_fit (E := toy_engine) m 48 (MkSt 0%nat []) = (Ok tt, MkSt 0%nat []).
Proof.
  eexists. split; [vm_compute; reflexivity|].
  apply (proj1 (proj1 (fit_degenerate_parameters (E := toy_engine) 48 (MkSt 0%nat []))
                  _)).
  vm_compute. discriminate.
Defined.

(** X13 on an input with an unknown word *)
Lemma NN_score_input_histogram_witness :
  exists m,
    NNDual_init elements std_order (sample_corpus 2) (sample_corpus 1) (sample_corpus 5)
                sample_commands sample_commands sample_commands 1 16 = Ok m
    /\ exists seq,
         NN_input m ["go"; "zz"; "go"] = Ok seq
         /\ length seq = size (nn_word2id m)
         /\ (forall w k, nn_word2id m !! w = Some k -> k <> UNK_ID ->
               seq !! k = Some (Z.of_nat (occurrences w ["go"; "zz"; "go"])))
         /\ seq !! UNK_ID
            = Some (Z.of_nat (unknown_words (nn_word2id m) ["go"; "zz"; "go"])).
Proof.
  eexists. split; [vm_compute; reflexivity|].
  apply (NN_score_input_histogram elements std_order
           (sample_corpus 2) (sample_corpus 1) (sample_corpus 5)
           sample_commands sample_commands sample_commands 1 16).
  - exact elements_enumerates.
  - exact std_order_enumerates.
  - vm_compute. reflexivity.
  - vm_compute. reflexivity.
Defined.

(** X14 on an input longer than the rows of the model *)
Lemma sequence_score_input_row_witness :
  exists m,
    RNNDual_init elements std_order (sample_corpus 2) (sample_corpus 1) (sample_corpus 5)
                 sample_commands sample_commands sample_commands 1 16 = Ok m
    /\ exists seq,
         RNN_input m ["go"; "zz"; "north"] = Ok seq
         /\ score_row int32 (rnn_word2id m) (rnn_max_len m) ["go"; "zz"; "north"] seq.
Proof.
  eexists. split; [vm_compute; reflexivity|].
  apply (proj1 (sequence_score_input_row (E := toy_engine) ["go"; "zz"; "north"])).
  vm_compute. discriminate.
Defined.

(** X15 on the small engine *)
Lemma score_returns_command_of_level_witness :
  exists m,
    NNDual_init elements std_order (sample_corpus 2) (sample_corpus 1) (sample_corpus 5)
                sample_commands sample_commands sample_commands 1 16 = Ok m
    /\ trace (NN_score (E := toy_engine) m ["go"; "zz"] (MkSt 0%nat [])).2 = []
    /\ forall command p lvl q,
         (NN_score (E := toy_engine) m ["go"; "zz"] (MkSt 0%nat [])).1
         = Ok (command, p, lvl, q) ->
         exists l, Z.of_nat lvl = level_index l
                   /\ command ∈ lvl_commands (pl_get (nn_lvl_dict m) l).
Proof.
  eexists. split; [vm_compute; reflexivity|].
  apply (proj1 (score_returns_command_of_level (E := toy_engine) ["go"; "zz"]
                  (MkSt 0%nat []))).
Defined.

(** X16 on the small engine *)
Lemma sequence_score_twice_same_output_witness :
  exists m,
    RNNDual_init elements std_order (sample_corpus 2) (sample_corpus 1) (sample_corpus 5)
                 sample_commands sample_commands sample_commands 1 16 = Ok m
    /\ let first := RNN_score (E := toy_engine) m ["go"; "zz"] (MkSt 3%nat []) in
       let second := RNN_score (E := toy_engine) m ["go"; "zz"] first.2 in
       first.1 = second.1
       /\ session first.2 = 3%nat
       /\ session second.2 = 3%nat
       /\ trace second.2 = [].
Proof.
  eexists. split; [vm_compute; reflexivity|].
  apply (proj1 (sequence_score_twice_same_output (E := toy_engine)
                  (fun t fd se => eq_refl) (fun t fd se se' _ _ => eq_refl)
                  ["go"; "zz"] (MkSt 3%nat []))).
Defined.

(** X17 on the small engine *)
Lemma RC_score_first_maximum_witness :
  exists m seq y_row,
    RNNClassifier_init elements (sample_corpus 3) sample_commands 1 16 = Ok m
    /\ RC_input m ["go"; "zz"] = Ok seq
    /\ exists pred_command p,
         is_first_max (E := toy_engine) y_row pred_command
         /\ y_row !! pred_command = Some p
         /\ RC_score (E := toy_engine) m ["go"; "zz"] (MkSt 0%nat [])
            = (match rc_commands m !! pred_command with
               | Some command => Ok (command, p)
               | None => Raise IndexError
               end, MkSt 0%nat []).
Proof.
  do 3 eexists. split; [vm_compute; reflexivity|].
  split; [vm_compute; reflexivity|].
  eapply (RC_score_first_maximum (E := toy_engine) Z_leb_total Z_leb_trans _
            ["go"; "zz"] _ _ (MkSt 0%nat []) 0%nat).
  - vm_compute. reflexivity.
  - vm_compute. reflexivity.
  - discriminate.
Defined.

(** X18 on the small engine: two epochs *)
Lemma fit_prints_epoch_averages_witness :
  exists m,
    NNDual_init elements std_order (sample_corpus 48) (sample_corpus 20) (sample_corpus 5)
                sample_commands sample_commands sample_commands 2 16 = Ok m
    /\ exists evs,
         trace (NN_fit (E := toy_engine) m 48 (MkSt 0%nat [])).2 = [] ++ evs
         /\ epoch_log (E := toy_engine) 0 (Z.to_nat (nn_epochs m)) evs.
Proof.
  eexists. split; [vm_compute; reflexivity|].
  apply (proj1 (fit_prints_epoch_averages (E := toy_engine) 48 (MkSt 0%nat []))).
  vm_compute. reflexivity.
Defined.
